(** * Panorama Command Runner (src/pano-tui.py): dispatch and job tracking

    A shallow embedding of the coroutines of [PanoramaTUI] and the
    properties of the command dispatch and job-tracking engine.

    Conventions of the embedding.
    - A Python value that is [str] or [None] (the [.text] of an XML
      element, a dictionary key taken from it) is an [option string];
      strings are byte strings, so [str.lower] acts on the letters A-Z.
    - [ET.fromstring] and [requests.get] are library code: a reply of the
      network is given as what those calls produce (an exception of
      [requests], or a status code with a body that either parses to an
      element tree or is malformed).
    - Each coroutine is a function in a state-and-exception monad over the
      application state [App]; every [log.write], [run_worker], request and
      sleep is appended to the trace of effects of the state, in program
      order.  Exceptions that the source does not catch end the coroutine
      with [Raised].
    - A coroutine handed to [run_worker] is recorded as [Spawned]; its own
      run is that of another coroutine and is not interleaved with the
      trace of the one that started it.
    - The widgets are library code.  The log is [RichLog(markup=True)]: its
      [write] parses the text as console markup and raises [MarkupError]
      when a closing tag closes nothing, and [Selection] parses its label
      in the same spirit.  Module [Rich] follows [rich.markup] for the log;
      what the embedding takes from the toolkit without following its code
      is a parameter ([Toolkit]): the normal form of a style name, whether
      the parameters of a meta tag evaluate, and the prompt a label is
      parsed to.
    - [Select.set_options] puts the value of the dropdown back to
      [Select.BLANK]. *)

From Stdlib Require Import String Ascii ZArith List DecimalString.
From Stdlib Require Import Sorting.Sorted Sorting.Permutation Lia.
From stdpp Require Import base option list strings gmap.

Set Warnings "-register-all".
Open Scope string_scope.
Open Scope list_scope.

(** ** Python strings *)

Module Py.

(** [str] or [None]. *)
Abbreviation Text := (option string).

(** Interpolation [f"{x}"]. *)
Definition fmt (x : Text) : string :=
  match x with
  | Some s => s
  | None => "None"
  end.

(** Truth value of a [str]-or-[None] in a condition. *)
Definition truthy (x : Text) : bool :=
  match x with
  | Some EmptyString => false
  | Some _ => true
  | None => false
  end.

Definition lower_ascii (c : ascii) : ascii :=
  let n := nat_of_ascii c in
  if andb (Nat.leb 65 n) (Nat.leb n 90) then ascii_of_nat (n + 32) else c.

(** [s.lower()]. *)
Fixpoint lower (s : string) : string :=
  match s with
  | EmptyString => EmptyString
  | String c s' => String (lower_ascii c) (lower s')
  end.

(** [needle in hay]. *)
Fixpoint contains (needle hay : string) : bool :=
  if String.prefix needle hay then true
  else match hay with
       | EmptyString => false
       | String _ hay' => contains needle hay'
       end.

(** [sep.join(parts)] when every part is a [str]; a [None] among the
    parts makes [join] raise [TypeError], which is [None] here. *)
Definition join (sep : string) (parts : list Text) : option string :=
  String.concat sep <$> mapM id parts.

(** [str(n)] for a length and for a status code. *)
Definition str_of_nat (n : nat) : string :=
  NilZero.string_of_uint (Nat.to_uint n).

Definition str_of_Z (z : Z) : string :=
  NilZero.string_of_int (Z.to_int z).

End Py.
Import Py.

(** ** Console markup of the output log

    [RichLog.write] hands a [str] to [Text.from_markup], that is to
    [rich.markup.render].  Only what decides whether [render] raises
    [MarkupError] is followed here: the tags that [_parse] finds, and the
    stack of open tags. *)

Module Rich.

(** [Tag(name, parameters)] *)
Record Tag : Type := { name : string; parameters : option string }.

(** [tag_text.partition("=")]: the text before the first "=", and the
    text after it when there is one. *)
Fixpoint partition_eq (s : string) : string * option string :=
  match s with
  | "" => ("", None)
  | String c s' =>
      if Ascii.eqb c "=" then ("", Some s')
      else let p := partition_eq s' in (String c p.1, p.2)
  end.

Definition tag_of (tag_text : string) : Tag :=
  let p := partition_eq tag_text in
  {| name := p.1; parameters := p.2 |}.

(** A tag, as [RE_TAGS] matches it: a run of backslashes, an opening
    bracket, one character out of a-z, #, / and @, then the shortest text
    without an opening bracket, up to a closing bracket.

    The first character of a tag. *)
Definition opens_tag (c : ascii) : bool :=
  let n := nat_of_ascii c in
  (Nat.leb 97 n && Nat.leb n 122) || Nat.eqb n 35 || Nat.eqb n 47
  || Nat.eqb n 64.

(** [RE_TAGS.finditer] as one pass over the characters.  [Outside k]: no
    tag is being read, and [k] backslashes come right before the next
    character; [Bracket k]: an opening bracket has just been read, after
    [k] backslashes; [Inside k t r]: [t] is the text of the tag read so
    far, [k] backslashes came before its bracket, and [t] ends in [r]
    backslashes.  An opening bracket inside a tag ends the attempt, and
    the leftmost match that can follow starts at the [r] backslashes
    before that bracket. *)
Inductive Scan : Type :=
| Outside (escapes : nat)
| Bracket (escapes : nat)
| Inside (escapes : nat) (tag_text : string) (run : nat).

(** One character; at a closing bracket the tag is complete.  As in
    [_parse], the tag counts when the number of backslashes before it is
    even, and is literal text when it is odd. *)
Definition step (q : Scan) (c : ascii) : Scan * option string :=
  match q with
  | Outside k =>
      if Ascii.eqb c "\" then (Outside (S k), None)
      else if Ascii.eqb c "[" then (Bracket k, None)
      else (Outside 0, None)
  | Bracket k =>
      if opens_tag c then (Inside k (String c "") 0, None)
      else if Ascii.eqb c "[" then (Bracket 0, None)
      else if Ascii.eqb c "\" then (Outside 1, None)
      else (Outside 0, None)
  | Inside k t r =>
      if Ascii.eqb c "]"
      then (Outside 0, if Nat.even k then Some t else None)
      else if Ascii.eqb c "[" then (Bracket r, None)
      else (Inside k (t +:+ String c "")
                   (if Ascii.eqb c "\" then S r else 0), None)
  end.

(** The texts of the tags of [s], in order. *)
Fixpoint scan (q : Scan) (s : string) : list string :=
  match s with
  | "" => []
  | String c s' =>
      let r := step q c in
      match r.2 with
      | Some t => t :: scan r.1 s'
      | None => scan r.1 s'
      end
  end.

(** [str.strip()]: the white space of Python, as UTF-8 bytes. *)
Definition bytes (l : list nat) : string :=
  foldr (fun n s => String (ascii_of_nat n) s) "" l.

Definition whitespace : list (list nat) :=
  [[9]; [10]; [11]; [12]; [13]; [28]; [29]; [30]; [31]; [32];
   [194; 133]; [194; 160]; [225; 154; 128];
   [226; 128; 128]; [226; 128; 129]; [226; 128; 130]; [226; 128; 131];
   [226; 128; 132]; [226; 128; 133]; [226; 128; 134]; [226; 128; 135];
   [226; 128; 136]; [226; 128; 137]; [226; 128; 138];
   [226; 128; 168]; [226; 128; 169]; [226; 128; 175]; [226; 129; 159];
   [227; 128; 128]].

Fixpoint drop_string (n : nat) (s : string) : string :=
  match n, s with
  | S n', String _ s' => drop_string n' s'
  | _, _ => s
  end.

Fixpoint strip_prefixes (fuel : nat) (ws : list string) (s : string) : string :=
  match fuel with
  | O => s
  | S fuel' =>
      match List.find (fun w => String.prefix w s) ws with
      | Some w => strip_prefixes fuel' ws (drop_string (String.length w) s)
      | None => s
      end
  end.

Definition lstrip (s : string) : string :=
  strip_prefixes (String.length s) (bytes <$> whitespace) s.

Definition rstrip (s : string) : string :=
  String.rev
    (strip_prefixes (String.length s) ((fun w => bytes (rev w)) <$> whitespace)
       (String.rev s)).

Definition strip (s : string) : string := rstrip (lstrip s).

Section Render.

(** [Style.normalize], and whether the parameters of a meta tag
    ([@click=...]) fail to evaluate ([literal_eval]). *)
Variable normalize : string -> string.
Variable meta_error : string -> bool.

(** [tag.name == style_name] in [pop_style], where both names have gone
    through [normalize]: equal names have equal normal forms, so the names
    themselves are compared first. *)
Definition same_style (style_name open_name : string) : bool :=
  String.eqb open_name style_name
  || String.eqb (normalize open_name) (normalize style_name).

(** [pop_style]: the innermost open tag of that name leaves the stack
    (its head is the innermost tag). *)
Fixpoint pop_style (style_name : string) (stack : list Tag)
  : option (Tag * list Tag) :=
  match stack with
  | [] => None
  | t :: rest =>
      if same_style style_name (name t) then Some (t, rest)
      else (fun r => (r.1, t :: r.2)) <$> pop_style style_name rest
  end.

Definition pop (stack : list Tag) : option (Tag * list Tag) :=
  match stack with
  | [] => None
  | t :: rest => Some (t, rest)
  end.

(** The closed tag is a meta tag whose parameters do not evaluate. *)
Definition meta_fails (open_tag : Tag) : bool :=
  match parameters open_tag with
  | Some p =>
      negb (String.eqb p "") && String.prefix "@" (normalize (name open_tag))
      && meta_error p
  | None => false
  end.

(** The loop of [render] over the tags; [true] is [MarkupError]. *)
Fixpoint check (tags : list Tag) (style_stack : list Tag) : bool :=
  match tags with
  | [] => false
  | tag :: rest =>
      if String.prefix "/" (name tag) then
        let style_name := strip (drop_string 1 (name tag)) in
        match (if String.eqb style_name "" then pop style_stack
               else pop_style style_name style_stack) with
        | None => true
        | Some (open_tag, stack') =>
            if meta_fails open_tag then true else check rest stack'
        end
      else check rest (tag :: style_stack)
  end.

(** [render(markup)] raises [MarkupError]. *)
Definition markup_error (markup : string) : bool :=
  if contains "[" markup
  then check (tag_of <$> scan (Outside 0) markup) []
  else false.

End Render.

(** Notions for the statements about the scan: the state it is in after
    a text, and a text without bracket and backslash. *)
Fixpoint final (q : Scan) (s : string) : Scan :=
  match s with
  | "" => q
  | String c s' => final (step q c).1 s'
  end.

(** A character that is neither a bracket nor a backslash. *)
Definition plain_char (c : ascii) : bool :=
  negb (Ascii.eqb c "[") && negb (Ascii.eqb c "\").

Fixpoint plain (s : string) : bool :=
  match s with
  | "" => true
  | String c s' => plain_char c && plain s'
  end.

End Rich.

(** ** xml.etree.ElementTree *)

Module ET.

Inductive Element : Type :=
  Elem (tag : string) (attrib : gmap string string)
       (text : Text) (children : list Element).

Definition tag (e : Element) : string :=
  match e with Elem t _ _ _ => t end.
Definition attrib (e : Element) : gmap string string :=
  match e with Elem _ a _ _ => a end.
Definition text (e : Element) : Text :=
  match e with Elem _ _ x _ => x end.
Definition children (e : Element) : list Element :=
  match e with Elem _ _ _ cs => cs end.

(** The elements below [e] in document order ([e.iter()] without [e]
    itself). *)
Fixpoint descendants (e : Element) : list Element :=
  match e with
  | Elem _ _ _ cs => concat (map (fun c => c :: descendants c) cs)
  end.

(** The steps of the ElementPath subset the program uses:
    [.], [/tag] and [//tag]. *)
Inductive Step : Type :=
| Self
| Child (t : string)
| Descendant (t : string).

Definition has_tag (t : string) (e : Element) : bool :=
  String.eqb (tag e) t.

(** One selector of [ElementPath.iterfind]: it maps the current result
    list to the next one, keeping document order. *)
Definition select (s : Step) (result : list Element) : list Element :=
  match s with
  | Self => result
  | Child t =>
      concat (map (fun elem => List.filter (has_tag t) (children elem)) result)
  | Descendant t =>
      concat (map (fun elem => List.filter (has_tag t) (descendants elem)) result)
  end.

Definition findall (elem : Element) (path : list Step) : list Element :=
  fold_left (fun result s => select s result) path [elem].

(** [elem.find(path)]: the first match or [None]. *)
Definition find (elem : Element) (path : list Step) : option Element :=
  head (findall elem path).

(** The outcome of [ET.fromstring(response.text)]. *)
Inductive Body : Type :=
| Malformed
| Document (root : Element).

End ET.
Import ET.

(** The paths of the program. *)
Definition path_msg : list Step := [Self; Descendant "msg"].
  (* ".//msg" *)
Definition path_device_entries : list Step :=
  [Self; Child "result"; Child "devices"; Child "entry"].
  (* "./result/devices/entry" *)
Definition path_hostname : list Step := [Child "hostname"].
Definition path_serial : list Step := [Child "serial"].
Definition path_versions : list Step :=
  [Self; Child "result"; Child "sw-updates"; Child "versions";
   Child "entry"; Child "version"].
  (* "./result/sw-updates/versions/entry/version" *)
Definition path_job : list Step := [Self; Child "result"; Child "job"].
Definition path_job_status : list Step :=
  [Self; Child "result"; Child "job"; Child "status"].
Definition path_job_result : list Step :=
  [Self; Child "result"; Child "job"; Child "result"].
Definition path_job_progress : list Step :=
  [Self; Child "result"; Child "job"; Child "progress"].
Definition path_job_details_line : list Step :=
  [Self; Child "result"; Child "job"; Child "details"; Child "line"].

(** ** The command catalog [URL_CHOICES] *)

(** A template of [str.format]: literal text and replacement fields. *)
Inductive Piece : Type :=
| Lit (s : string)
| Field (name : string).

Record CommandInfo : Type := {
  cmd : list Piece;
  generates_job : option bool   (* the key is absent for two entries *)
}.

Definition URL_CHOICES : list (string * CommandInfo) :=
  [ ("Software Version Check",
     {| cmd := [Lit "<request><system><software><check></check></software></system></request>"];
        generates_job := None |});
    ("Download Version",
     {| cmd := [Lit "<request><system><software><download><version>";
                Field "version";
                Lit "</version></download></software></system></request>"];
        generates_job := Some true |});
    ("Install Version",
     {| cmd := [Lit "<request><system><software><install><version>";
                Field "version";
                Lit "</version></install></software></system></request>"];
        generates_job := Some true |});
    ("Reboot",
     {| cmd := [Lit "<request><restart><system></system></restart></request>"];
        generates_job := None |}) ].

(** [URL_CHOICES[name]]; [None] stands for [KeyError]. *)
Fixpoint catalog_lookup (name : string) (catalog : list (string * CommandInfo))
  : option CommandInfo :=
  match catalog with
  | [] => None
  | (n, info) :: rest =>
      if String.eqb n name then Some info else catalog_lookup name rest
  end.

(** [command_info.get("generates_job")] as a condition. *)
Definition produces_job (info : CommandInfo) : bool :=
  match generates_job info with
  | Some b => b
  | None => false
  end.

(** The template as the string literal of the source. *)
Fixpoint template_text (t : list Piece) : string :=
  match t with
  | [] => ""
  | Lit s :: t' => s +:+ template_text t'
  | Field n :: t' => "{" +:+ n +:+ "}" +:+ template_text t'
  end.

(** [template.format(version=version)]; a field other than [version] is a
    [KeyError] ([None]). *)
Fixpoint format_version (t : list Piece) (version : Text) : option string :=
  match t with
  | [] => Some ""
  | Lit s :: t' => (fun r => s +:+ r) <$> format_version t' version
  | Field n :: t' =>
      if String.eqb n "version"
      then (fun r => fmt version +:+ r) <$> format_version t' version
      else None
  end.

(** ** Requests and replies *)

Record Request : Type := {
  rq_url : string;
  rq_cmd : string;              (* params 'cmd'; 'type' is always 'op' *)
  rq_target : option Text;      (* params 'target', when the key is given *)
  rq_auth : string * string
}.

(** [requests.exceptions.RequestException], with [HTTPError] told apart
    as [fetch_devices] does; [detail] is [str(e)]. *)
Inductive RequestException : Type :=
| HTTPError (status_code : Z) (detail : string)
| OtherRequestException (detail : string).

Definition exn_str (e : RequestException) : string :=
  match e with
  | HTTPError _ d => d
  | OtherRequestException d => d
  end.

(** What [run_api_request] followed by [raise_for_status] gives. *)
Inductive Reply : Type :=
| Failed (e : RequestException)
| Ok (status_code : Z) (body : Body).

Definition base_url (pano_ip : string) : string :=
  "https://" +:+ pano_ip +:+ "/api/".

(** ** The output log *)

(** One constructor per [log.write] of the source. *)
Inductive LogLine : Type :=
  (* fetch_devices *)
| ErrPanoIpRequired
| FetchingDevices (pano_ip : string)
| ApiErrorAuthFailed
| ApiError (error_msg : Text)
| FoundDevices (n : nat)
| ErrForbidden
| ErrHttp (e : string)
| ErrConnection (e : string)
  (* run_version_check *)
| ErrSelectOneDevice
| RunningVersionCheck (hostname : Text)
| WarnNoVersions
| FoundVersions (n : nat)
  (* track_job_progress *)
| WarnNoJobStatus (job_id : string) (hostname : Text)
| JobFinishedOk (job_id : string) (hostname : Text)
| JobFinishedFailure (job_id : string) (hostname : Text) (details : string)
| JobProgress (job_id : string) (hostname : Text) (progress : string)
| JobOngoing (job_id : string) (hostname : Text) (status : Text)
| ErrCheckingJob (job_id : string) (hostname : Text) (e : string)
  (* run_execute_command *)
| ErrNoDevicesSelected
| Starting (command_name : string) (n : nat)
| Running (command_name : string) (hostname : Text)
| JobEnqueued (job_id : string) (hostname : Text)
| ErrNoJobId (command_name : string) (hostname : Text)
| Success (status_code : Z)
| ErrForDevice (hostname : Text) (e : string)
  (* handle_button_press *)
| ErrCredentialsRequired
| ErrSelectVersionFirst.

Definition nl : string := String (ascii_of_nat 10) "".

(** The text written to the log widget. *)
Definition render (l : LogLine) : string :=
  match l with
  | ErrPanoIpRequired => "[red]Error: Panorama IP is required.[/red]"
  | FetchingDevices ip => "Fetching devices from " +:+ ip +:+ "..."
  | ApiErrorAuthFailed =>
      "[red]API Error: Authentication failed. Please check your username and password.[/red]"
  | ApiError m => "[red]API Error: " +:+ fmt m +:+ "[/red]"
  | FoundDevices n =>
      "[green]Success! Found " +:+ str_of_nat n +:+ " connected devices.[/green]"
  | ErrForbidden =>
      "[red]Connection Error: Received status 403 Forbidden. Please check your username and password.[/red]"
  | ErrHttp e => "[red]HTTP Error: " +:+ e +:+ "[/red]"
  | ErrConnection e => "[red]Connection Error: " +:+ e +:+ "[/red]"
  | ErrSelectOneDevice =>
      "[red]Error: Please select one device to check for versions.[/red]"
  | RunningVersionCheck h =>
      "Running Software Version Check on " +:+ fmt h +:+ "..."
  | WarnNoVersions => "[yellow]Warning: No software versions found.[/yellow]"
  | FoundVersions n =>
      "[green]Success! Found " +:+ str_of_nat n +:+ " versions. Dropdown populated.[/green]"
  | WarnNoJobStatus j h =>
      "[yellow]Warning: Could not determine status for job " +:+ j +:+ " on "
        +:+ fmt h +:+ ".[/yellow]"
  | JobFinishedOk j h =>
      "[green]✅ Job " +:+ j +:+ " on " +:+ fmt h +:+ " FINISHED successfully.[/green]"
  | JobFinishedFailure j h d =>
      "[red]❌ Job " +:+ j +:+ " on " +:+ fmt h +:+ " FINISHED with failure.[/red]"
        +:+ nl +:+ d
  | JobProgress j h p =>
      "  -> Job " +:+ j +:+ " on " +:+ fmt h +:+ " is downloading... " +:+ p
        +:+ "% complete."
  | JobOngoing j h s =>
      "  -> Job " +:+ j +:+ " on " +:+ fmt h +:+ " is ongoing. Status: " +:+ fmt s
  | ErrCheckingJob j h e =>
      "[red]❌ Error checking job " +:+ j +:+ " on " +:+ fmt h +:+ ": " +:+ e +:+ "[/red]"
  | ErrNoDevicesSelected => "[red]Error: No devices selected.[/red]"
  | Starting c n =>
      nl +:+ "--- Starting '" +:+ c +:+ "' on " +:+ str_of_nat n +:+ " device(s) ---"
  | Running c h => "--- Running '" +:+ c +:+ "' on " +:+ fmt h +:+ " ---"
  | JobEnqueued j h =>
      "Job enqueued (ID: " +:+ j +:+ ") on " +:+ fmt h +:+ ". Monitoring..."
  | ErrNoJobId c h =>
      "[red]❌ Error: Command '" +:+ c +:+ "' did not return a job ID for "
        +:+ fmt h +:+ ".[/red]"
  | Success code =>
      "[green]✅ Success (Status Code: " +:+ str_of_Z code +:+ ")[/green]"
  | ErrForDevice h e => "[red]❌ Error for " +:+ fmt h +:+ ": " +:+ e +:+ "[/red]"
  | ErrCredentialsRequired =>
      "[red]Error: Username and Password are required.[/red]"
  | ErrSelectVersionFirst =>
      "[red]Error: Please run a version check and select a version first.[/red]"
  end.

(** ** Application state and effects *)

(** [Selection(prompt, value)] of the device list; [prompt] is the text
    of the parsed label, as the list shows it. *)
Record Selection : Type := { prompt : string; value : Text }.

(** The value of the version [Select]: [Select.BLANK] or an option value. *)
Inductive SelectValue : Type :=
| BLANK
| Chosen (v : Text).

(** The coroutines handed to [run_worker]. *)
Inductive Worker : Type :=
| FetchDevices (auth : string * string)
| RunVersionCheck (auth : string * string)
| RunExecuteCommand (auth : string * string) (command_name : string)
                    (version : Text)
| TrackJobProgress (auth : string * string) (serial : Text)
                   (job_id : string).

Inductive Effect : Type :=
| Logged (l : LogLine)          (* log.write(...) *)
| Requested (rq : Request)      (* the request handed to the thread *)
| Replied (r : Reply)           (* the awaited call has come back *)
| Slept (seconds : nat)         (* await asyncio.sleep(...) *)
| Spawned (w : Worker).         (* self.run_worker(...) *)

Record App : Type := {
  serial_to_hostname : gmap Text Text;
  pano_ip : string;
  username : string;
  password : string;
  device_list : list Selection;        (* options of the SelectionList *)
  selected : list Text;                (* selection_list.selected *)
  version_options : list (Text * Text);
  version_disabled : bool;
  version_value : SelectValue;
  clock : nat;                         (* requests issued so far *)
  trace : list Effect
}.

Definition with_table (t : gmap Text Text) (st : App) : App :=
  {| serial_to_hostname := t; pano_ip := pano_ip st;
     username := username st; password := password st;
     device_list := device_list st; selected := selected st;
     version_options := version_options st;
     version_disabled := version_disabled st;
     version_value := version_value st;
     clock := clock st; trace := trace st |}.

Definition with_devices (opts : list Selection) (sel : list Text) (st : App)
  : App :=
  {| serial_to_hostname := serial_to_hostname st; pano_ip := pano_ip st;
     username := username st; password := password st;
     device_list := opts; selected := sel;
     version_options := version_options st;
     version_disabled := version_disabled st;
     version_value := version_value st;
     clock := clock st; trace := trace st |}.

(** [version_select.set_options(opts)] followed by
    [version_select.disabled = dis]: [set_options] replaces the options and
    puts the value back to [Select.BLANK]. *)
Definition with_versions (opts : list (Text * Text)) (dis : bool) (st : App)
  : App :=
  {| serial_to_hostname := serial_to_hostname st; pano_ip := pano_ip st;
     username := username st; password := password st;
     device_list := device_list st; selected := selected st;
     version_options := opts;
     version_disabled := dis;
     version_value := BLANK;
     clock := clock st; trace := trace st |}.

Definition with_io (c : nat) (tr : list Effect) (st : App) : App :=
  {| serial_to_hostname := serial_to_hostname st; pano_ip := pano_ip st;
     username := username st; password := password st;
     device_list := device_list st; selected := selected st;
     version_options := version_options st;
     version_disabled := version_disabled st;
     version_value := version_value st;
     clock := c; trace := tr |}.

(** The lines of the log widget, the workers started and the requests
    issued, read off the trace. *)
Definition output_log (tr : list Effect) : list LogLine :=
  omap (fun e => match e with Logged l => Some l | _ => None end) tr.

Definition workers (tr : list Effect) : list Worker :=
  omap (fun e => match e with Spawned w => Some w | _ => None end) tr.

Definition requests (tr : list Effect) : list Request :=
  omap (fun e => match e with Requested rq => Some rq | _ => None end) tr.

(** ** The monad of a coroutine *)

(** The exceptions the program raises and never catches. *)
Inductive Exn : Type :=
| ParseError        (* ET.fromstring on a malformed body *)
| KeyError          (* a missing dictionary key or format field *)
| AttributeError    (* [.text] or [.lower()] of [None] *)
| TypeError         (* [join] over a list holding [None] *)
| MarkupError.      (* [log.write] or [Selection] on markup that does not parse *)

Inductive Res (A : Type) : Type :=
| Normal (a : A)
| Raised (e : Exn).
Arguments Normal {A} a.
Arguments Raised {A} e.

Definition M (A : Type) : Type := App -> Res A * App.

#[export] Instance M_ret : MRet M :=
  fun A (a : A) st => (Normal a, st).

#[export] Instance M_bind : MBind M :=
  fun A B (k : A -> M B) (m : M A) st =>
    match m st with
    | (Normal a, st') => k a st'
    | (Raised e, st') => (Raised e, st')
    end.

Definition raise {A : Type} (e : Exn) : M A :=
  fun st => (Raised e, st).

Definition get {A : Type} (field : App -> A) : M A :=
  fun st => (Normal (field st), st).

Definition modify (f : App -> App) : M unit :=
  fun st => (Normal tt, f st).

(** [o] when it is there, the exception [e] when it is [None]. *)
Definition from_option {A : Type} (e : Exn) (o : option A) : M A :=
  match o with
  | Some a => mret a
  | None => raise e
  end.

Definition emit (e : Effect) : M unit :=
  modify (fun st => with_io (clock st) (trace st ++ [e]) st).

Definition run_worker (w : Worker) : M unit := emit (Spawned w).
Definition sleep (seconds : nat) : M unit := emit (Slept seconds).

Definition fromstring (b : Body) : M Element :=
  match b with
  | Malformed => raise ParseError
  | Document root => mret root
  end.

Fixpoint for_each {A : Type} (l : list A) (body : A -> M unit) : M unit :=
  match l with
  | [] => mret tt
  | x :: l' => body x ;; for_each l' body
  end.

(** How the body of a [while True] leaves an iteration. *)
Inductive LoopCtl : Type :=
| Continue
| Break.

(** How a run of a loop on bounded fuel ends: it left the loop, or the
    fuel ran out while it was still iterating. *)
Inductive Completion : Type :=
| Exited
| Unfinished.

Fixpoint while_true (fuel : nat) (body : M LoopCtl) : M Completion :=
  match fuel with
  | O => mret Unfinished
  | S fuel' =>
      ctl ← body;
      match ctl with
      | Break => mret Exited
      | Continue => while_true fuel' body
      end
  end.

(** ** [options.sort(key=lambda sel: sel.prompt)] *)

(** [list.sort] is a stable sort; the stable result is the one of
    inserting from the right. *)
Fixpoint insert_by_prompt (x : Selection) (l : list Selection)
  : list Selection :=
  match l with
  | [] => [x]
  | y :: l' =>
      if String.leb (prompt x) (prompt y) then x :: y :: l'
      else y :: insert_by_prompt x l'
  end.

Definition sort_by_prompt (l : list Selection) : list Selection :=
  foldr insert_by_prompt [] l.

(** ** The toolkit *)

(** What the widgets do with a text, as far as the code of the toolkit is
    not followed here. *)
Record Toolkit : Type := {
  (* rich: [Style.normalize] *)
  style_normalize : string -> string;
  (* rich: the parameters of a meta tag do not evaluate *)
  meta_error : string -> bool;
  (* textual: the text of the prompt that [Selection(label, ...)] parses
     the label to; [None] when the label does not parse ([MarkupError]) *)
  selection_prompt : string -> option string
}.

(** The log takes the line: its text parses as console markup. *)
Definition accepted (ui : Toolkit) (l : LogLine) : bool :=
  negb (Rich.markup_error (style_normalize ui) (meta_error ui) (render l)).

(** ** The coroutines of [PanoramaTUI] *)

Section Coroutines.

Variable ui : Toolkit.

(** The manager behind the API: the reply to the request issued as the
    [n]-th one. *)
Variable net : nat -> Request -> Reply.

(** [log.write(text)] *)
Definition log_write (l : LogLine) : M unit :=
  if accepted ui l then emit (Logged l) else raise MarkupError.

(** [await asyncio.to_thread(self.run_api_request, ...)] followed by
    [response.raise_for_status()]. *)
Definition run_api_request (rq : Request) : M Reply :=
  fun st =>
    let r := net (clock st) rq in
    (Normal r,
     with_io (S (clock st)) (trace st ++ [Requested rq; Replied r]) st).

(** *** fetch_devices *)

Definition device_label (hostname serial : Text) : string :=
  fmt hostname +:+ " (" +:+ fmt serial +:+ ")".

(** The loop over the [entry] elements; [options] is the list built so
    far. *)
Fixpoint collect_options (entries : list Element) (options : list Selection)
  : M (list Selection) :=
  match entries with
  | [] => mret options
  | entry :: rest =>
      match find entry path_hostname, find entry path_serial with
      | Some hostname_node, Some serial_node =>
          let hostname := text hostname_node in
          let serial := text serial_node in
          modify (fun st =>
            with_table (<[serial := hostname]> (serial_to_hostname st)) st) ;;
          shown ← from_option MarkupError
                    (selection_prompt ui (device_label hostname serial));
          collect_options rest
            (options ++ [{| prompt := shown; value := serial |}])
      | _, _ => collect_options rest options
      end
  end.

Definition fetch_devices (auth : string * string) : M unit :=
  modify (with_devices [] []) ;;
  modify (with_table ∅) ;;
  ip ← get pano_ip;
  if String.eqb ip "" then log_write ErrPanoIpRequired
  else
    log_write (FetchingDevices ip) ;;
    response ← run_api_request
      {| rq_url := base_url ip;
         rq_cmd := "<show><devices><connected></connected></devices></show>";
         rq_target := None;
         rq_auth := auth |};
    match response with
    | Failed (HTTPError status_code e) =>
        if Z.eqb status_code 403 then log_write ErrForbidden
        else log_write (ErrHttp e)
    | Failed (OtherRequestException e) => log_write (ErrConnection e)
    | Ok _ body =>
        root ← fromstring body;
        status ← from_option KeyError (attrib root !! "status");
        if String.eqb status "error" then
          let error_msg :=
            match find root path_msg with
            | Some msg_node => text msg_node
            | None => Some "Unknown API error"
            end in
          lowered ← from_option AttributeError (lower <$> error_msg);
          if contains "authentication failed" lowered
          then log_write ApiErrorAuthFailed
          else log_write (ApiError error_msg)
        else
          options ← collect_options (findall root path_device_entries) [];
          let options := sort_by_prompt options in
          sel ← get selected;
          modify (with_devices options sel) ;;
          log_write (FoundDevices (length options))
    end.

(** *** run_version_check *)

Definition run_version_check (auth : string * string) : M unit :=
  sel ← get selected;
  match sel with
  | [] => log_write ErrSelectOneDevice
  | target_serial :: _ =>
      table ← get serial_to_hostname;
      let target_hostname := default target_serial (table !! target_serial) in
      log_write (RunningVersionCheck target_hostname) ;;
      ip ← get pano_ip;
      info ← from_option KeyError
               (catalog_lookup "Software Version Check" URL_CHOICES);
      response ← run_api_request
        {| rq_url := base_url ip;
           rq_cmd := template_text (cmd info);
           rq_target := Some target_serial;
           rq_auth := auth |};
      match response with
      | Failed e => log_write (ErrConnection (exn_str e))
      | Ok _ body =>
          root ← fromstring body;
          status ← from_option KeyError (attrib root !! "status");
          if String.eqb status "error" then
            msg_node ← from_option AttributeError (find root path_msg);
            log_write (ApiError (text msg_node))
          else
            let versions := text <$> findall root path_versions in
            match versions with
            | [] => log_write WarnNoVersions
            | _ =>
                modify (with_versions ((fun v => (v, v)) <$> versions) false) ;;
                log_write (FoundVersions (length versions))
            end
      end
  end.

(** *** track_job_progress *)

Definition show_job (job_id : string) : string :=
  "<show><jobs><id>" +:+ job_id +:+ "</id></jobs></show>".

(** One iteration of the [while True] loop. *)
Definition poll_job (auth : string * string) (serial : Text)
           (job_id : string) (hostname : Text) : M LoopCtl :=
  sleep 5 ;;
  ip ← get pano_ip;
  response ← run_api_request
    {| rq_url := base_url ip;
       rq_cmd := show_job job_id;
       rq_target := Some serial;
       rq_auth := auth |};
  match response with
  | Failed e =>
      log_write (ErrCheckingJob job_id hostname (exn_str e)) ;;
      mret Break
  | Ok _ body =>
      root ← fromstring body;
      match find root path_job_status with
      | None =>
          log_write (WarnNoJobStatus job_id hostname) ;;
          mret Break
      | Some status_node =>
          let status := text status_node in
          if bool_decide (status = Some "FIN") then
            result_node ← from_option AttributeError
                            (find root path_job_result);
            (if bool_decide (text result_node = Some "OK")
             then log_write (JobFinishedOk job_id hostname)
             else
               details ← from_option TypeError
                 (join nl (text <$> findall root path_job_details_line));
               log_write (JobFinishedFailure job_id hostname details)) ;;
            mret Break
          else if bool_decide (status = Some "ACT") then
            match find root path_job_progress with
            | Some progress_node =>
                if truthy (text progress_node)
                then log_write (JobProgress job_id hostname
                                  (fmt (text progress_node)))
                else mret tt
            | None => mret tt
            end ;;
            mret Continue
          else
            log_write (JobOngoing job_id hostname status) ;;
            mret Continue
      end
  end.

(** The loop runs on [fuel] iterations at most; the source has no bound. *)
Definition track_job_progress (fuel : nat) (auth : string * string)
           (serial : Text) (job_id : string) : M Completion :=
  table ← get serial_to_hostname;
  let hostname := default serial (table !! serial) in
  while_true fuel (poll_job auth serial job_id hostname).

(** *** run_execute_command *)

(** [node is not None and node.text], as the text it yields. *)
Definition text_if_any (node : option Element) : option string :=
  match node with
  | Some n => if truthy (text n) then text n else None
  | None => None
  end.

(** [cmd.format(version=version) if version else cmd]; [None] is the
    [KeyError] of [format]. *)
Definition render_command (command_info : CommandInfo) (version : Text)
  : option string :=
  if truthy version then format_version (cmd command_info) version
  else Some (template_text (cmd command_info)).

(** The body of the loop over the selected serials. *)
Definition execute_on_device (auth : string * string)
           (command_name : string) (command_info : CommandInfo)
           (version : Text) (ip : string) (serial : Text) : M unit :=
  table ← get serial_to_hostname;
  let hostname := default serial (table !! serial) in
  command_xml ← from_option KeyError (render_command command_info version);
  log_write (Running command_name hostname) ;;
  response ← run_api_request
    {| rq_url := base_url ip;
       rq_cmd := command_xml;
       rq_target := Some serial;
       rq_auth := auth |};
  match response with
  | Failed e => log_write (ErrForDevice hostname (exn_str e))
  | Ok status_code body =>
      if produces_job command_info then
        root ← fromstring body;
        match text_if_any (find root path_job) with
        | Some job_id =>
            log_write (JobEnqueued job_id hostname) ;;
            run_worker (TrackJobProgress auth serial job_id)
        | None => log_write (ErrNoJobId command_name hostname)
        end
      else log_write (Success status_code)
  end.

Definition run_execute_command (auth : string * string)
           (command_name : string) (version : Text) : M unit :=
  selected_serials ← get selected;
  match selected_serials with
  | [] => log_write ErrNoDevicesSelected
  | _ =>
      ip ← get pano_ip;
      command_info ← from_option KeyError
                       (catalog_lookup command_name URL_CHOICES);
      log_write (Starting command_name (length selected_serials)) ;;
      for_each selected_serials
        (execute_on_device auth command_name command_info version ip)
  end.

(** *** handle_button_press *)

(** The part of the handler after the credential guard. *)
Definition press_action (button_id : string) (auth : string * string)
  : M unit :=
  if String.eqb button_id "fetch" then run_worker (FetchDevices auth)
  else if String.eqb button_id "run_check_versions"
  then run_worker (RunVersionCheck auth)
  else if bool_decide
            (button_id ∈ ["run_download"; "run_install"; "run_reboot"])
  then
    let command_name :=
      if String.eqb button_id "run_download" then "Download Version"
      else if String.eqb button_id "run_install" then "Install Version"
      else if String.eqb button_id "run_reboot" then "Reboot"
      else "" in
    command_info ← from_option KeyError
                     (catalog_lookup command_name URL_CHOICES);
    if produces_job command_info then
      version ← get version_value;
      match version with
      | BLANK => log_write ErrSelectVersionFirst
      | Chosen v => run_worker (RunExecuteCommand auth command_name v)
      end
    else run_worker (RunExecuteCommand auth command_name None)
  else mret tt.

Definition handle_button_press (button_id : string) : M unit :=
  user ← get username;
  pass ← get password;
  table ← get serial_to_hostname;
  if orb (String.eqb user "") (String.eqb pass "") then
    if andb (negb (String.eqb button_id "fetch")) (bool_decide (table = ∅))
    then press_action button_id (user, pass)
    else log_write ErrCredentialsRequired
  else press_action button_id (user, pass).

End Coroutines.

(** ** Notions used in the statements *)

(** The hostname shown for a serial:
    [self.serial_to_hostname.get(serial, serial)]. *)
Definition hostname_of (st : App) (serial : Text) : Text :=
  default serial (serial_to_hostname st !! serial).

(** The state after [n] more requests and the effects [effs]. *)
Definition after (st : App) (n : nat) (effs : list Effect) : App :=
  with_io (n + clock st) (trace st ++ effs) st.

Definition replies (tr : list Effect) : list Reply :=
  omap (fun e => match e with Replied r => Some r | _ => None end) tr.

(** Reads a trace with the flag "a request is awaiting its reply": a
    request while one is pending, or a reply while none is, stops the
    reading with [None]. *)
Fixpoint handshake (pending : bool) (tr : list Effect) : option bool :=
  match tr with
  | [] => Some pending
  | Requested _ :: tr' => if pending then None else handshake true tr'
  | Replied _ :: tr' => if pending then handshake false tr' else None
  | _ :: tr' => handshake pending tr'
  end.

(** Two requests are in flight at once: a second one is issued before any
    reply to the first has come back. *)
Definition overlapping (tr : list Effect) : Prop :=
  exists pre rq1 mid rq2 post,
    tr = pre ++ Requested rq1 :: mid ++ Requested rq2 :: post /\
    replies mid = [].

(** The effects of a device served to its end: the line announcing it,
    its request, the reply, and at once the outcome line of that device
    with what belongs to it (the tracker started); no other request or
    reply in between. *)
Inductive served (serial : Text) : list Effect -> Prop :=
| served_block (command_name : string) (hostname : Text) (rq : Request)
               (r : Reply) (outcome : LogLine) (rest : list Effect) :
    rq_target rq = Some serial ->
    requests rest = [] ->
    replies rest = [] ->
    served serial (Logged (Running command_name hostname) :: Requested rq
                   :: Replied r :: Logged outcome :: rest).

(** The request [run_execute_command] sends for one device. *)
Definition device_request (auth : string * string) (ip : string)
           (command_xml : string) (serial : Text) : Request :=
  {| rq_url := base_url ip; rq_cmd := command_xml;
     rq_target := Some serial; rq_auth := auth |}.

(** The effects a run has added to the trace of the state it began in. *)
Definition added (st st' : App) : list Effect :=
  drop (length (trace st)) (trace st').

(** ** Sample replies and states *)

(** A toolkit for the sample runs: a style name that is no style
    definition is normalised by stripping it and putting it in lower
    case, the parameters of a meta tag evaluate, and a label is shown as
    it is written unless it holds a closing tag, which closes nothing
    there. *)
Definition plain_toolkit : Toolkit :=
  {| style_normalize := fun style => lower (Rich.strip style);
     meta_error := fun _ => false;
     selection_prompt :=
       fun label => if contains "[/" label then None else Some label |}.

Definition leaf (t x : string) : Element := Elem t ∅ (Some x) [].
Definition bare (t : string) : Element := Elem t ∅ None [].
Definition node (t : string) (cs : list Element) : Element := Elem t ∅ None cs.

(** [<response status="...">...</response>] *)
Definition response (status : string) (cs : list Element) : Element :=
  Elem "response" {[ "status" := status ]} None cs.

(** A reply to [show jobs id]: [<result><job>...</job></result>]. *)
Definition job_reply (fields : list Element) : Reply :=
  Ok 200 (Document (response "success" [node "result" [node "job" fields]])).

(** The reply that enqueues job 42. *)
Definition enqueued_42 : Reply :=
  Ok 200 (Document (response "success" [node "result" [leaf "job" "42"]])).

Definition admin : string * string := ("admin", "secret").

(** Two devices fetched and selected, credentials entered. *)
Definition two_devices : App :=
  {| serial_to_hostname :=
       <[Some "001" := Some "fw-a"]> (<[Some "002" := Some "fw-b"]> ∅);
     pano_ip := "10.0.0.1";
     username := "admin"; password := "secret";
     device_list := [ {| prompt := "fw-a (001)"; value := Some "001" |};
                      {| prompt := "fw-b (002)"; value := Some "002" |} ];
     selected := [Some "001"; Some "002"];
     version_options := [(Some "10.2.3", Some "10.2.3")];
     version_disabled := false;
     version_value := Chosen (Some "10.2.3");
     clock := 0; trace := [] |}.

(** The manager answers the first request with a body that is not XML and
    every later one by enqueuing job 42. *)
Definition net_first_malformed (n : nat) (rq : Request) : Reply :=
  match n with
  | O => Ok 200 Malformed
  | S _ => enqueued_42
  end.

(** The manager answers every request with status 200 and an empty
    success envelope. *)
Definition net_ok (n : nat) (rq : Request) : Reply :=
  Ok 200 (Document (response "success" [])).

(** The reply that enqueues a job whose identifier holds a closing tag. *)
Definition enqueued_stray : Reply :=
  Ok 200 (Document (response "success" [node "result" [leaf "job" "[/x]"]])).

(** The manager enqueues job 42 for every request. *)
Definition net_enqueue (n : nat) (rq : Request) : Reply := enqueued_42.

Definition download_xml : string :=
  "<request><system><software><download><version>10.2.3</version></download></software></system></request>".

Definition reboot_xml : string :=
  "<request><restart><system></system></restart></request>".

Definition download_info : CommandInfo :=
  {| cmd := [Lit "<request><system><software><download><version>";
             Field "version";
             Lit "</version></download></software></system></request>"];
     generates_job := Some true |}.

(** The request of one poll of [track_job_progress]. *)
Definition poll_request (auth : string * string) (ip : string)
           (serial : Text) (job_id : string) : Request :=
  {| rq_url := base_url ip; rq_cmd := show_job job_id;
     rq_target := Some serial; rq_auth := auth |}.

(** The manager gives the same reply to every request. *)
Definition net_const (r : Reply) (n : nat) (rq : Request) : Reply := r.

(** The manager gives the replies of a script in turn, then [last]. *)
Definition net_script (script : list Reply) (last : Reply)
           (n : nat) (rq : Request) : Reply :=
  nth n script last.

Definition timed_out : Reply := Failed (OtherRequestException "timed out").

(** Job snapshots: active at 40 percent, pending, finished. *)
Definition active_40 : Reply :=
  job_reply [leaf "status" "ACT"; leaf "progress" "40"].
Definition pending : Reply := job_reply [leaf "status" "PEND"].
Definition finished_ok : Reply :=
  job_reply [leaf "status" "FIN"; leaf "result" "OK"].
Definition finished_failed : Reply :=
  job_reply [leaf "status" "FIN"; leaf "result" "FAIL";
             node "details" [leaf "line" "Failed to download";
                             leaf "line" "No space left"]].

(** Finished with failure, the second detail line an empty element
    [<line/>]. *)
Definition finished_failed_empty_line : Reply :=
  job_reply [leaf "status" "FIN"; leaf "result" "FAIL";
             node "details" [leaf "line" "Failed to download";
                             bare "line"]].

(** Finished, and no [result] element in the snapshot. *)
Definition finished_without_result : Reply :=
  job_reply [leaf "status" "FIN"].

(** The request of [fetch_devices] and the state it starts from once the
    device list and the lookup table are cleared. *)
Definition fetch_request (auth : string * string) (ip : string) : Request :=
  {| rq_url := base_url ip;
     rq_cmd := "<show><devices><connected></connected></devices></show>";
     rq_target := None; rq_auth := auth |}.

Definition cleared (st : App) : App := with_table ∅ (with_devices [] [] st).

(** The request of [run_version_check]. *)
Definition version_check_request (auth : string * string) (ip : string)
           (serial : Text) : Request :=
  {| rq_url := base_url ip;
     rq_cmd := "<request><system><software><check></check></software></system></request>";
     rq_target := Some serial; rq_auth := auth |}.

(** The label "hostname (serial)" of an [entry] element that has both
    children. *)
Definition entry_label (entry : Element) : option string :=
  match find entry path_hostname, find entry path_serial with
  | Some hostname_node, Some serial_node =>
      Some (device_label (text hostname_node) (text serial_node))
  | _, _ => None
  end.

(** The option an [entry] element stands for: the one whose prompt is its
    parsed label when it has both children and the label parses, none
    otherwise. *)
Definition entry_selection (ui : Toolkit) (entry : Element)
  : option Selection :=
  match find entry path_hostname, find entry path_serial with
  | Some hostname_node, Some serial_node =>
      (fun shown => {| prompt := shown; value := text serial_node |}) <$>
      selection_prompt ui
        (device_label (text hostname_node) (text serial_node))
  | _, _ => None
  end.

(** The label of every entry that has both children parses. *)
Definition labels_parse (ui : Toolkit) (entries : list Element) : Prop :=
  Forall (fun entry =>
            forall label, entry_label entry = Some label ->
                          is_Some (selection_prompt ui label))
         entries.

(** The order of the device list: by the prompt, compared as strings. *)
Definition by_prompt (a b : Selection) : Prop :=
  String.le (prompt a) (prompt b).

(** An error envelope with the message "Authentication failed". *)
Definition authentication_failed : Element :=
  response "error" [node "result" [leaf "msg" "Authentication failed"]].

(** A device list: two complete entries out of order and one entry
    without serial. *)
Definition connected_devices : Element :=
  response "success"
    [node "result"
       [node "devices"
          [node "entry" [leaf "hostname" "fw-b"; leaf "serial" "002"];
           node "entry" [leaf "hostname" "fw-c"];
           node "entry" [leaf "hostname" "fw-a"; leaf "serial" "001"]]]].

(** Nothing fetched yet and no credentials entered. *)
Definition fresh_app : App :=
  {| serial_to_hostname := ∅;
     pano_ip := "10.0.0.1";
     username := ""; password := "";
     device_list := []; selected := [];
     version_options := []; version_disabled := true;
     version_value := BLANK;
     clock := 0; trace := [] |}.

(** The line a poll writes for a job that goes on: the progress line for
    the status "ACT" with a progress text, no line for "ACT" without one,
    the "ongoing" line for any other status. *)
Definition observation (job_id : string) (hostname : Text) (root : Element)
           (status : Text) : option LogLine :=
  if bool_decide (status = Some "ACT")
  then JobProgress job_id hostname <$> text_if_any (find root path_job_progress)
  else Some (JobOngoing job_id hostname status).

(** A reply that keeps the tracker of [job_id] in its loop: it parses,
    carries a status element whose text is not "FIN", and the log takes
    the line it leads to. *)
Definition keeps_polling (ui : Toolkit) (job_id : string) (hostname : Text)
           (r : Reply) : Prop :=
  exists code root status_node,
    r = Ok code (Document root) /\
    find root path_job_status = Some status_node /\
    text status_node <> Some "FIN" /\
    forall line,
      observation job_id hostname root (text status_node) = Some line ->
      accepted ui line = true.

(** The lines [execute_on_device] can write for a device shown as
    [hostname]: the announcement, the error of a failed request, and for a
    command that produces a job the job line or the "no job id" error.
    (The success line of the other commands holds a status code only.) *)
Definition device_line (command_name : string) (command_info : CommandInfo)
           (hostname : Text) (line : LogLine) : Prop :=
  line = Running command_name hostname \/
  (exists e, line = ErrForDevice hostname e) \/
  (produces_job command_info = true /\
   ((exists job_id, line = JobEnqueued job_id hostname) \/
    line = ErrNoJobId command_name hostname)).

(** The serial and the hostname an [entry] element with both children
    puts into the lookup table. *)
Definition entry_pair (entry : Element) : option (Text * Text) :=
  match find entry path_hostname, find entry path_serial with
  | Some hostname_node, Some serial_node =>
      Some (text serial_node, text hostname_node)
  | _, _ => None
  end.

(** [table[serial] = hostname] for the pairs of a list, in order. *)
Definition store_pairs (table : gmap Text Text) (pairs : list (Text * Text))
  : gmap Text Text :=
  foldl (fun t p => <[p.1 := p.2]> t) table pairs.

(** Two devices listed, the first one selected, the address erased. *)
Definition no_address : App :=
  {| serial_to_hostname := serial_to_hostname two_devices;
     pano_ip := ""; username := "admin"; password := "secret";
     device_list := device_list two_devices;
     selected := [Some "001"];
     version_options := []; version_disabled := true;
     version_value := BLANK; clock := 0; trace := [] |}.

(** A device list in which the serial 001 comes twice, under two
    hostnames. *)
Definition renamed_device : Element :=
  response "success"
    [node "result"
       [node "devices"
          [node "entry" [leaf "hostname" "old-name"; leaf "serial" "001"];
           node "entry" [leaf "hostname" "new-name"; leaf "serial" "001"]]]].

(** A device list whose first hostname holds a closing tag. *)
Definition stray_tag_devices : Element :=
  response "success"
    [node "result"
       [node "devices"
          [node "entry" [leaf "hostname" "fw[/b]"; leaf "serial" "001"];
           node "entry" [leaf "hostname" "fw-b"; leaf "serial" "002"]]]].

(** A job snapshot whose status holds a closing tag, and a failed poll
    whose error text closes the colour of its line. *)
Definition status_stray : Reply := job_reply [leaf "status" "[/x]"].
Definition failed_stray : Reply :=
  Failed (HTTPError 500
            ("500 Server Error: [/] for url: https://10.0.0.1/api/"
             +:+ "?type=op&cmd=%3Cshow%3E%3Cjobs%3E%3Cid%3E42%3C%2Fid%3E"
             +:+ "%3C%2Fjobs%3E%3C%2Fshow%3E&target=001")).

(** An error envelope whose [msg] element is empty, one without any
    [msg], and a root without status attribute. *)
Definition error_with_empty_msg : Element :=
  response "error" [node "result" [bare "msg"]].
Definition error_without_msg : Element := response "error" [].
Definition no_status_attribute : Element :=
  Elem "response" ∅ None [node "result" []].

(** A version list of two entries. *)
Definition two_versions : Element :=
  response "success"
    [node "result"
       [node "sw-updates"
          [node "versions"
             [node "entry" [leaf "version" "11.0.2"; leaf "downloaded" "no"];
              node "entry" [leaf "version" "10.2.3"]]]]].

(** * The command-line script (src/palo_upgrade_script.py)

    The script reads its answers from the operator line by line and prints
    as it goes.  A function that reads takes the lines still to come and
    gives back what it returns, the lines left and the events it has
    caused; [input] on no line left raises [EOFError]. *)

Module Script.

(** An entry of [URL_CHOICES]. *)
Record Check : Type := {
  name : string;
  template : list Piece;
  requires_version : bool
}.

Definition URL_CHOICES : list (string * Check) :=
  [ ("1", {| name := "Software Version Check";
             template :=
               [Lit "https://"; Field "host";
                Lit "/api/?type=op&cmd=<request><system><software><check></check></software></system></request>&key=";
                Field "key"];
             requires_version := false |});
    ("2", {| name := "Download Version";
             template :=
               [Lit "https://"; Field "host";
                Lit "/api/?type=op&cmd=<request><system><software><download><version>";
                Field "version";
                Lit "</version></download></software></system></request>&key=";
                Field "key"];
             requires_version := true |});
    ("3", {| name := "Install Version";
             template :=
               [Lit "https://"; Field "host";
                Lit "/api/?type=op&cmd=<request><system><software><install><version>";
                Field "version";
                Lit "</version></install></software></system></request>&key=";
                Field "key"];
             requires_version := true |});
    ("4", {| name := "Reboot";
             template :=
               [Lit "https://"; Field "host";
                Lit "/api/?type=op&cmd=<request><restart><system></system></restart></request>&key=";
                Field "key"];
             requires_version := false |}) ].

(** [URL_CHOICES[choice]], [None] when [choice not in URL_CHOICES]. *)
Fixpoint lookup_choice (choice : string) (choices : list (string * Check))
  : option Check :=
  match choices with
  | [] => None
  | (key, check) :: rest =>
      if String.eqb key choice then Some check else lookup_choice choice rest
  end.

(** [format_args[field]]. *)
Fixpoint lookup_arg (field : string) (args : list (string * string))
  : option string :=
  match args with
  | [] => None
  | (k, v) :: rest =>
      if String.eqb k field then Some v else lookup_arg field rest
  end.

(** [template.format] on the arguments [format_args]; a field without
    argument is a [KeyError] ([None]). *)
Fixpoint format (t : list Piece) (args : list (string * string))
  : option string :=
  match t with
  | [] => Some ""
  | Lit s :: t' => (fun r => s +:+ r) <$> format t' args
  | Field n :: t' =>
      match lookup_arg n args with
      | Some v => (fun r => v +:+ r) <$> format t' args
      | None => None
      end
  end.

(** What the script prints. *)
Inductive Line : Type :=
| MenuHeader
| MenuItem (key name : string)
| InvalidChoice
| EnterHosts
| PressEnter
| NoHosts
| StartingLine (check_name : string) (n : nat)
| RunningLine (check_name host : string)
| SuccessLine (status_code : Z)
| HttpErrorLine (status_code : Z) (reason : string)
| ConnectionErrorLine (host : string)
| TimeoutLine (host : string)
| UnexpectedLine (host e : string)
| Separator.

(** The prompts of [getpass] and [input]. *)
Inductive Prompt : Type :=
| ApiKeyPrompt
| ChoicePrompt
| VersionPrompt (check_name : string)
| HostPrompt (n : nat).

Inductive Event : Type :=
| Printed (l : Line)           (* print(...) *)
| Prompted (p : Prompt)        (* the prompt of input(...) or getpass(...) *)
| Fetched (url : string).      (* requests.get(url, ...) *)

(** The text of a printed line and of a prompt. *)
Definition render_line (l : Line) : string :=
  match l with
  | MenuHeader => "Please select the command you would like to run:"
  | MenuItem key n => "  " +:+ key +:+ ". " +:+ n
  | InvalidChoice =>
      "acInvalid choice. Please enter a valid number from the list."
  | EnterHosts => nl +:+ "Enter the server hostnames or IP addresses one by one."
  | PressEnter => "Press Enter on an empty line when you are finished."
  | NoHosts => nl +:+ "No hosts entered. Exiting."
  | StartingLine c n =>
      nl +:+ "--- Starting '" +:+ c +:+ "' on " +:+ str_of_nat n
         +:+ " server(s) ---"
  | RunningLine c host => "--- Running '" +:+ c +:+ "' on " +:+ host +:+ " ---"
  | SuccessLine code => "Success (Status Code: " +:+ str_of_Z code +:+ ")"
  | HttpErrorLine code reason =>
      "HTTP Error: " +:+ str_of_Z code +:+ " " +:+ reason
  | ConnectionErrorLine host =>
      "Connection Error: Failed to resolve or connect to " +:+ host +:+ "."
  | TimeoutLine host => "Timeout: The request to " +:+ host +:+ " timed out."
  | UnexpectedLine host e =>
      "An unexpected requests error occurred for " +:+ host +:+ ": " +:+ e
  | Separator => "-------------------------" +:+ nl
  end.

Definition render_prompt (p : Prompt) : string :=
  match p with
  | ApiKeyPrompt => "Please enter your API key: "
  | ChoicePrompt => "Enter your choice (e.g., 1): "
  | VersionPrompt c => "Please enter the version for '" +:+ c +:+ "': "
  | HostPrompt n => "Host #" +:+ str_of_nat n +:+ ": "
  end.

(** The exceptions the script does not catch. *)
Inductive Exn : Type :=
| KeyError      (* a field of the template without argument *)
| EOFError.     (* [input] with no line left *)

(** How a function that reads ends. *)
Inductive Run (A : Type) : Type :=
| Returned (a : A) (rest : list string) (out : list Event)
| Crashed (e : Exn) (out : list Event).
Arguments Returned {A} a rest out.
Arguments Crashed {A} e out.

(** The events [pre] have come first. *)
Definition prepend {A : Type} (pre : list Event) (r : Run A) : Run A :=
  match r with
  | Returned a rest out => Returned a rest (pre ++ out)
  | Crashed e out => Crashed e (pre ++ out)
  end.

(** [r], then [k] on its result and on the lines it has left. *)
Definition and_then {A B : Type} (r : Run A) (k : A -> list string -> Run B)
  : Run B :=
  match r with
  | Returned a rest out => prepend out (k a rest)
  | Crashed e out => Crashed e out
  end.

Definition events {A : Type} (r : Run A) : list Event :=
  match r with
  | Returned _ _ out => out
  | Crashed _ out => out
  end.

(** [input(prompt)], and [getpass.getpass(prompt)], which reads a line of
    the operator as well. *)
Definition input (p : Prompt) (lines : list string) : Run string :=
  match lines with
  | [] => Crashed EOFError [Prompted p]
  | line :: rest => Returned line rest [Prompted p]
  end.

Definition get_api_key (lines : list string) : Run string :=
  input ApiKeyPrompt lines.

(** The [while True] of [get_user_selections]: each iteration reads one
    line with [input], so the loop is a recursion on the lines to come. *)
Fixpoint choose (lines : list string) : Run (Check * Text) :=
  match lines with
  | [] => Crashed EOFError [Prompted ChoicePrompt]
  | choice :: rest =>
      match lookup_choice choice URL_CHOICES with
      | Some selected_check =>
          if requires_version selected_check then
            prepend [Prompted ChoicePrompt]
              (and_then (input (VersionPrompt (name selected_check)) rest)
                 (fun version rest' =>
                    Returned (selected_check, Some version) rest' []))
          else Returned (selected_check, None) rest [Prompted ChoicePrompt]
      | None =>
          prepend [Prompted ChoicePrompt; Printed InvalidChoice] (choose rest)
      end
  end.

Definition menu : list Event :=
  Printed MenuHeader
  :: ((fun kv => Printed (MenuItem kv.1 (name kv.2))) <$> URL_CHOICES).

Definition get_user_selections (lines : list string) : Run (Check * Text) :=
  prepend menu (choose lines).

(** The [while True] of [get_host_list], with the hosts read so far. *)
Fixpoint read_hosts (hosts : list string) (lines : list string)
  : Run (list string) :=
  match lines with
  | [] => Crashed EOFError [Prompted (HostPrompt (length hosts + 1))]
  | host :: rest =>
      if String.eqb host ""
      then Returned hosts rest [Prompted (HostPrompt (length hosts + 1))]
      else prepend [Prompted (HostPrompt (length hosts + 1))]
             (read_hosts (hosts ++ [host]) rest)
  end.

Definition get_host_list (lines : list string) : Run (list string) :=
  prepend [Printed EnterHosts; Printed PressEnter] (read_hosts [] lines).

(** What [requests.get] followed by [raise_for_status] gives, the
    exceptions told apart as the [except] clauses do, in their order: an
    exception that is both a connection error and a timeout counts as a
    connection error. *)
Inductive Failure : Type :=
| HttpFailure (status_code : Z) (reason : string)
| ConnectionFailure
| TimeoutFailure
| OtherFailure (e : string).

Inductive Outcome : Type :=
| Raises (f : Failure)
| Status (status_code : Z).

(** The line of the [try] block for one host. *)
Definition report (host : string) (o : Outcome) : Line :=
  match o with
  | Status code => SuccessLine code
  | Raises (HttpFailure code reason) => HttpErrorLine code reason
  | Raises ConnectionFailure => ConnectionErrorLine host
  | Raises TimeoutFailure => TimeoutLine host
  | Raises (OtherFailure e) => UnexpectedLine host e
  end.

(** [format_args] for one host. *)
Definition format_args (host api_key : string) (version : Text)
  : list (string * string) :=
  [("host", host); ("key", api_key)]
  ++ (if truthy version then [("version", fmt version)] else []).

Section Commands.

(** The servers: the outcome of the [n]-th request, by its URL. *)
Variable net : nat -> string -> Outcome.

(** The loop of [run_commands] over the hosts, [n] requests having been
    made; [Some e] is the exception that has ended it. *)
Fixpoint visit (n : nat) (selected_check : Check) (api_key : string)
         (version : Text) (host_list : list string)
  : option Exn * list Event :=
  match host_list with
  | [] => (None, [])
  | host :: rest =>
      match format (template selected_check)
                   (format_args host api_key version) with
      | None => (Some KeyError, [])
      | Some url =>
          let later := visit (S n) selected_check api_key version rest in
          (later.1,
           [Printed (RunningLine (name selected_check) host);
            Fetched url;
            Printed (report host (net n url));
            Printed Separator] ++ later.2)
      end
  end.

Definition run_commands (host_list : list string) (selected_check : Check)
           (api_key : string) (version : Text) : option Exn * list Event :=
  match host_list with
  | [] => (None, [Printed NoHosts])
  | _ =>
      let loop := visit 0 selected_check api_key version host_list in
      (loop.1,
       Printed (StartingLine (name selected_check) (length host_list))
       :: loop.2)
  end.

(** The main block. *)
Definition main (lines : list string) : Run unit :=
  and_then (get_api_key lines) (fun api_key lines1 =>
  and_then (get_user_selections lines1) (fun selection lines2 =>
  and_then (get_host_list lines2) (fun hosts lines3 =>
    let done := run_commands hosts selection.1 api_key selection.2 in
    match done.1 with
    | None => Returned tt lines3 done.2
    | Some e => Crashed e done.2
    end))).

End Commands.

(** The URLs requested and the lines printed, read off the events. *)
Definition fetched (out : list Event) : list string :=
  omap (fun e => match e with Fetched url => Some url | _ => None end) out.

Definition printed (out : list Event) : list Line :=
  omap (fun e => match e with Printed l => Some l | _ => None end) out.

(** A line that reports the outcome of a request. *)
Definition is_report (l : Line) : bool :=
  match l with
  | SuccessLine _ | HttpErrorLine _ _ | ConnectionErrorLine _
  | TimeoutLine _ | UnexpectedLine _ _ => true
  | _ => false
  end.

(** The prompts "Host #first", "Host #first+1", ..., [count] of them. *)
Definition host_prompts (first count : nat) : list Event :=
  (fun n => Prompted (HostPrompt n)) <$> seq first count.

(** Every host answers with status 200. *)
Definition all_ok (n : nat) (url : string) : Outcome := Status 200.



Definition download_check : Check :=
  {| name := "Download Version";
     template :=
       [Lit "https://"; Field "host";
        Lit "/api/?type=op&cmd=<request><system><software><download><version>";
        Field "version";
        Lit "</version></download></software></system></request>&key=";
        Field "key"];
     requires_version := true |}.

End Script.

(** * Properties *)

(** ** Running the monad *)

Lemma run_bind {A B : Type} (m : M A) (k : A -> M B) (st : App) :
  (m ≫= k) st =
  match m st with
  | (Normal a, st') => k a st'
  | (Raised e, st') => (Raised e, st')
  end.
Proof. reflexivity. Qed.

Lemma output_log_app (t1 t2 : list Effect) :
  output_log (t1 ++ t2) = output_log t1 ++ output_log t2.
Proof. apply omap_app. Qed.

Lemma workers_app (t1 t2 : list Effect) :
  workers (t1 ++ t2) = workers t1 ++ workers t2.
Proof. apply omap_app. Qed.

Lemma requests_app (t1 t2 : list Effect) :
  requests (t1 ++ t2) = requests t1 ++ requests t2.
Proof. apply omap_app. Qed.

Lemma append_assoc (a b c : string) : (a +:+ b) +:+ c = a +:+ (b +:+ c).
Proof.
  induction a as [| x a IH]; [done|].
  change (String x ((a +:+ b) +:+ c) = String x (a +:+ b +:+ c)).
  by rewrite IH.
Qed.

Lemma append_nil_r (a : string) : a +:+ "" = a.
Proof.
  induction a as [| x a IH]; [done|].
  change (String x (a +:+ "") = String x a). by rewrite IH.
Qed.

(** ** Lines the log always takes *)

Module RichFacts.
Import Rich.

Lemma scan_app (q : Scan) (a b : string) :
  scan q (a +:+ b) = scan q a ++ scan (final q a) b.
Proof.
  revert q. induction a as [| c a IH]; intros q; [done|].
  change (String c a +:+ b) with (String c (a +:+ b)).
  cbn [scan final]. rewrite IH. by destruct (step q c).2.
Qed.

Lemma final_app (q : Scan) (a b : string) :
  final q (a +:+ b) = final (final q a) b.
Proof.
  revert q. induction a as [| c a IH]; intros q; [done|].
  change (String c a +:+ b) with (String c (a +:+ b)). cbn [final]. apply IH.
Qed.

Lemma step_plain (k : nat) (c : ascii) :
  plain_char c = true -> step (Outside k) c = (Outside 0, None).
Proof.
  unfold plain_char. cbn [step]. intros H.
  destruct (Ascii.eqb c "["), (Ascii.eqb c "\"); cbn in H;
    by try discriminate.
Qed.

(** Outside a tag, a plain text holds no tag and leaves the scan outside. *)
Lemma scan_plain (k : nat) (s : string) :
  plain s = true ->
  scan (Outside k) s = [] /\ exists k', final (Outside k) s = Outside k'.
Proof.
  revert k. induction s as [| c s IH]; intros k Hs; [by eauto|].
  cbn [plain] in Hs. apply andb_true_iff in Hs as [Hc Hs].
  cbn [scan final]. rewrite (step_plain k c Hc). cbn [fst snd]. by apply IH.
Qed.

Lemma contains_bracket_app (a b : string) :
  contains "[" (a +:+ b) = contains "[" a || contains "[" b.
Proof.
  induction a as [| c a IH]; [by destruct b|].
  change (String c a +:+ b) with (String c (a +:+ b)).
  cbn [contains String.prefix].
  destruct (ascii_dec "[" c); [by destruct a, b | exact IH].
Qed.

Section Accepted.

Variables (normalize : string -> string) (meta_error : string -> bool).

(** A plain text between two texts, the first of which ends outside a
    tag and the second of which begins with a plain character, plays no
    part in the parsing. *)
Lemma markup_error_plain_middle (pre body post : string) (k : nat)
      (c : ascii) (post' : string) :
  plain body = true ->
  final (Outside 0) pre = Outside k ->
  post = String c post' ->
  plain_char c = true ->
  markup_error normalize meta_error (pre +:+ (body +:+ post))
  = markup_error normalize meta_error (pre +:+ post).
Proof.
  intros Hbody Hpre -> Hc. unfold markup_error.
  assert (Hb : contains "[" body = false).
  { clear -Hbody. induction body as [| x body IH]; [done|].
    cbn [plain] in Hbody. apply andb_true_iff in Hbody as [Hx Hbody].
    cbn [contains String.prefix]. unfold plain_char in Hx.
    destruct (ascii_dec "[" x) as [<- | _]; [done | by apply IH]. }
  rewrite !contains_bracket_app, Hb, orb_false_l.
  rewrite !scan_app, Hpre.
  destruct (scan_plain k body Hbody) as [-> [k' Hk']].
  rewrite Hk'. cbn [scan app]. by rewrite !(step_plain _ c Hc).
Qed.

End Accepted.

Lemma plain_string_of_uint (d : Decimal.uint) :
  plain (NilEmpty.string_of_uint d) = true.
Proof. induction d; cbn; auto. Qed.

Lemma plain_str_of_nat (n : nat) : plain (str_of_nat n) = true.
Proof.
  unfold str_of_nat, NilZero.string_of_uint.
  destruct (Nat.to_uint n) eqn:Hd; try done; rewrite <- Hd;
    apply plain_string_of_uint.
Qed.

Lemma plain_str_of_Z (z : Z) : plain (str_of_Z z) = true.
Proof.
  unfold str_of_Z, NilZero.string_of_int.
  destruct (Z.to_int z) as [d | d]; cbn [plain plain_char];
    unfold NilZero.string_of_uint;
    (destruct d eqn:Hd; try done; rewrite <- Hd; apply plain_string_of_uint).
Qed.

End RichFacts.

Section Literals.

Variable ui : Toolkit.

(** The lines without text of the operator or of the manager are always
    taken: each is one colour tag closed by its own closing tag, around a
    text of the program or a number. *)
Lemma accepted_ErrPanoIpRequired : accepted ui ErrPanoIpRequired = true.
Proof. vm_compute. reflexivity. Qed.

Lemma accepted_ApiErrorAuthFailed : accepted ui ApiErrorAuthFailed = true.
Proof. vm_compute. reflexivity. Qed.

Lemma accepted_unknown_api_error :
  accepted ui (ApiError (Some "Unknown API error")) = true.
Proof. vm_compute. reflexivity. Qed.

Lemma accepted_ErrForbidden : accepted ui ErrForbidden = true.
Proof. vm_compute. reflexivity. Qed.

Lemma accepted_ErrSelectOneDevice : accepted ui ErrSelectOneDevice = true.
Proof. vm_compute. reflexivity. Qed.

Lemma accepted_WarnNoVersions : accepted ui WarnNoVersions = true.
Proof. vm_compute. reflexivity. Qed.

Lemma accepted_ErrNoDevicesSelected : accepted ui ErrNoDevicesSelected = true.
Proof. vm_compute. reflexivity. Qed.

Lemma accepted_ErrCredentialsRequired :
  accepted ui ErrCredentialsRequired = true.
Proof. vm_compute. reflexivity. Qed.

Lemma accepted_ErrSelectVersionFirst :
  accepted ui ErrSelectVersionFirst = true.
Proof. vm_compute. reflexivity. Qed.

Lemma accepted_FoundDevices (n : nat) : accepted ui (FoundDevices n) = true.
Proof.
  unfold accepted.
  change (render (FoundDevices n))
    with ("[green]Success! Found "
          +:+ (str_of_nat n +:+ " connected devices.[/green]")).
  rewrite (RichFacts.markup_error_plain_middle _ _ _ _ _ 0 " "
             "connected devices.[/green]")
    by (try reflexivity; apply RichFacts.plain_str_of_nat).
  vm_compute. reflexivity.
Qed.

Lemma accepted_FoundVersions (n : nat) : accepted ui (FoundVersions n) = true.
Proof.
  unfold accepted.
  change (render (FoundVersions n))
    with ("[green]Success! Found "
          +:+ (str_of_nat n +:+ " versions. Dropdown populated.[/green]")).
  rewrite (RichFacts.markup_error_plain_middle _ _ _ _ _ 0 " "
             "versions. Dropdown populated.[/green]")
    by (try reflexivity; apply RichFacts.plain_str_of_nat).
  vm_compute. reflexivity.
Qed.

Lemma accepted_Success (code : Z) : accepted ui (Success code) = true.
Proof.
  unfold accepted.
  change (render (Success code))
    with ("[green]✅ Success (Status Code: "
          +:+ (str_of_Z code +:+ ")[/green]")).
  rewrite (RichFacts.markup_error_plain_middle _ _ _ _ _ 0 ")" "[/green]")
    by (try reflexivity; apply RichFacts.plain_str_of_Z).
  vm_compute. reflexivity.
Qed.

(** The opening line of a dispatch names a command of the catalog. *)
Lemma accepted_Starting (command_name : string) (info : CommandInfo)
      (n : nat) :
  catalog_lookup command_name URL_CHOICES = Some info ->
  accepted ui (Starting command_name n) = true.
Proof.
  cbn [catalog_lookup URL_CHOICES]. unfold accepted.
  repeat (destruct (String.eqb _ command_name) eqn:Hname;
          [apply String.eqb_eq in Hname as <-; intros _;
           match goal with
           | |- context [render (Starting ?c n)] =>
               change (render (Starting c n))
                 with ((nl +:+ "--- Starting '" +:+ c +:+ "' on ")
                       +:+ (str_of_nat n +:+ " device(s) ---"))
           end;
           rewrite (RichFacts.markup_error_plain_middle _ _ _ _ _ 0 " "
                      "device(s) ---")
             by (try reflexivity; apply RichFacts.plain_str_of_nat);
           vm_compute; reflexivity | clear Hname]).
  discriminate.
Qed.

End Literals.

(** Unfolds the primitives of the monad in the goal; the lines that are
    always taken are written. *)
Ltac literal_lines :=
  rewrite ?accepted_ErrPanoIpRequired, ?accepted_ApiErrorAuthFailed,
    ?accepted_unknown_api_error, ?accepted_ErrForbidden,
    ?accepted_ErrSelectOneDevice, ?accepted_WarnNoVersions,
    ?accepted_ErrNoDevicesSelected, ?accepted_ErrCredentialsRequired,
    ?accepted_ErrSelectVersionFirst, ?accepted_FoundDevices,
    ?accepted_FoundVersions, ?accepted_Success.

Ltac run_monad :=
  unfold mbind, M_bind, mret, M_ret, log_write, run_worker, sleep, emit,
    modify, get, raise, from_option, fromstring, run_api_request;
  literal_lines;
  cbn [fst snd clock trace pano_ip serial_to_hostname selected username
       password device_list version_options version_disabled version_value
       with_io with_table with_devices with_versions].

Lemma handshake_app (p : bool) (t1 t2 : list Effect) :
  handshake p (t1 ++ t2) = handshake p t1 ≫= fun p' => handshake p' t2.
Proof.
  revert p. induction t1 as [| e t1 IH]; intros p; [done|].
  destruct e, p; cbn; auto.
Qed.

Lemma handshake_pending_no_reply (tr : list Effect) :
  replies tr = [] -> handshake true tr = Some true \/ handshake true tr = None.
Proof.
  induction tr as [| e tr IH]; intros H; [by left|].
  destruct e; cbn in *; auto. discriminate.
Qed.

Lemma handshake_no_overlap (p : bool) (tr : list Effect) :
  is_Some (handshake p tr) -> ~ overlapping tr.
Proof.
  intros [q Hq] (pre & rq1 & mid & rq2 & post & -> & Hmid).
  rewrite handshake_app in Hq.
  destruct (handshake p pre) as [[]|]; cbn in Hq; try discriminate.
  rewrite handshake_app in Hq.
  destruct (handshake_pending_no_reply mid Hmid) as [H | H];
    rewrite H in Hq; cbn in Hq; discriminate.
Qed.

(** ** The catalog and the log lines *)

Lemma download_catalog_entry :
  catalog_lookup "Download Version" URL_CHOICES = Some download_info /\
  render_command download_info (Some "10.2.3") = Some download_xml /\
  template_text (cmd download_info) =
  "<request><system><software><download><version>{version}</version></download></software></system></request>".
Proof. repeat split; reflexivity. Qed.

Lemma render_examples :
  render (JobProgress "42" (Some "fw-a") "40")
  = "  -> Job 42 on fw-a is downloading... 40% complete." /\
  render (JobOngoing "42" (Some "fw-a") (Some "PEND"))
  = "  -> Job 42 on fw-a is ongoing. Status: PEND" /\
  render (Success 200) = "[green]✅ Success (Status Code: 200)[/green]" /\
  render (FoundDevices 12)
  = "[green]Success! Found 12 connected devices.[/green]" /\
  render (ErrNoJobId "Install Version" None)
  = "[red]❌ Error: Command 'Install Version' did not return a job ID for None.[/red]".
Proof. vm_compute. repeat split; reflexivity. Qed.

(** What the log takes and what it refuses, whatever the toolkit does
    with style names: a text without bracket, a colour closed by its own
    tag, an opening tag left open; not a closing tag that has nothing to
    close, be it after the colour of the line was closed by the text. *)
Lemma markup_examples (ui : Toolkit) :
  accepted ui (JobOngoing "42" (Some "fw-a") (Some "PEND")) = true /\
  accepted ui (ErrForDevice (Some "fw-a") "timed out") = true /\
  accepted ui (JobOngoing "42" (Some "fw-a") (Some "[bold]PEND")) = true /\
  accepted ui (ErrForDevice (Some "fw-a") "\[/x] timed out") = true /\
  accepted ui (JobOngoing "42" (Some "fw-a") (Some "[/x]")) = false /\
  accepted ui (JobEnqueued "[/x]" (Some "fw-a")) = false /\
  accepted ui (ErrForDevice (Some "fw-a") "timed out [/]") = false.
Proof. vm_compute. repeat split; reflexivity. Qed.

(** ** Dispatch: [run_execute_command] *)

(** Closes one case of the analysis of a device: the effects are read off
    the trace, the facts about them hold by computation. *)
Ltac device_case :=
  eexists; split; [rewrite <- ?app_assoc; reflexivity |];
  repeat split; try done; try (intros _; by constructor).

Ltac silent_case :=
  exists []; rewrite app_nil_r; repeat split; done.

Section Dispatch.

Variable ui : Toolkit.
Variable net : nat -> Request -> Reply.
Variables (auth : string * string) (command_name : string).
Variables (command_info : CommandInfo) (version : Text) (ip : string).

Local Abbreviation body :=
  (execute_on_device ui net auth command_name command_info version ip).

(** What one device adds to the trace, whatever the reply: its request
    is answered before anything else happens, a normal end has issued
    the one request of that device, and a command that produces no job
    starts no worker. *)
Lemma execute_on_device_effects (serial : Text) (st : App) :
  exists effs,
    trace (body serial st).2 = trace st ++ effs /\
    handshake false effs = Some false /\
    ((body serial st).1 = Normal tt ->
     rq_target <$> requests effs = [Some serial]) /\
    ((body serial st).1 = Normal tt -> served serial effs) /\
    (produces_job command_info = false -> workers effs = []).
Proof.
  unfold body, execute_on_device. run_monad.
  destruct (render_command command_info version) as [xml|]; run_monad.
  2:{ silent_case. }
  destruct (accepted ui (Running _ _)); run_monad.
  2:{ silent_case. }
  match goal with
  | |- context [net ?c ?rq] => destruct (net c rq) as [e | code body0]
  end; run_monad.
  { destruct (accepted ui (ErrForDevice _ _)); run_monad; device_case. }
  destruct (produces_job command_info); run_monad.
  2:{ device_case. }
  destruct body0 as [| root]; run_monad.
  { device_case. }
  destruct (text_if_any (find root path_job)) as [job_id|]; run_monad;
    match goal with
    | |- context [accepted ui ?l] => destruct (accepted ui l)
    end; run_monad; device_case.
Qed.

Lemma for_each_cons {A : Type} (x : A) (l : list A) (f : A -> M unit)
      (st : App) :
  for_each (x :: l) f st =
  match f x st with
  | (Normal _, st') => for_each l f st'
  | (Raised e, st') => (Raised e, st')
  end.
Proof. reflexivity. Qed.

(** The same for the whole loop over the selected serials. *)
Lemma dispatch_loop_effects (serials : list Text) (st : App) :
  exists effs,
    trace (for_each serials body st).2 = trace st ++ effs /\
    handshake false effs = Some false /\
    ((for_each serials body st).1 = Normal tt ->
     rq_target <$> requests effs = Some <$> serials) /\
    ((for_each serials body st).1 = Normal tt ->
     exists blocks, effs = concat blocks /\ Forall2 served serials blocks) /\
    (produces_job command_info = false -> workers effs = []).
Proof.
  revert st. induction serials as [| serial rest IH]; intros st.
  { exists []. rewrite app_nil_r. repeat split; try done.
    intros _. exists []. split; [done | constructor]. }
  rewrite for_each_cons.
  destruct (execute_on_device_effects serial st)
    as (effs1 & Htr1 & Hhs1 & Hrq1 & Hsv1 & Hw1).
  destruct (body serial st) as [[[] | e] st1] eqn:Hbody; cbn [fst snd] in *.
  - destruct (IH st1) as (effs2 & Htr2 & Hhs2 & Hrq2 & Hsv2 & Hw2).
    exists (effs1 ++ effs2). split; [|split; [|split; [|split]]].
    + by rewrite Htr2, Htr1, app_assoc.
    + by rewrite handshake_app, Hhs1.
    + intros Hn. rewrite requests_app, fmap_app, Hrq1, Hrq2; done.
    + intros Hn. destruct (Hsv2 Hn) as (blocks & -> & Hblocks).
      exists (effs1 :: blocks). split; [done|]. constructor; auto.
    + intros Hj. by rewrite workers_app, Hw1, Hw2.
  - exists effs1. done.
Qed.

(** A device whose request fails with an exception of [requests] gets
    its error line and the loop goes on: when no body is malformed and
    the command renders, nothing but a line that the log refuses ends the
    loop before every device has been sent its request. *)
Lemma dispatch_survives_request_errors (serials : list Text) (st : App) :
  is_Some (render_command command_info version) ->
  (forall n rq code, net n rq <> Ok code Malformed) ->
  (for_each serials body st).1 = Normal tt \/
  (for_each serials body st).1 = Raised MarkupError.
Proof.
  intros [xml Hxml] Hnet. revert st.
  induction serials as [| serial rest IH]; intros st; [by left|].
  rewrite for_each_cons.
  assert (Hb : (body serial st).1 = Normal tt \/
               (body serial st).1 = Raised MarkupError).
  { unfold body, execute_on_device. run_monad. rewrite Hxml. run_monad.
    destruct (accepted ui (Running _ _)); run_monad; [|by right].
    match goal with
    | |- context [net ?c ?rq] =>
        pose proof (Hnet c rq) as Hn;
        destruct (net c rq) as [e | code body0]
    end; run_monad.
    { destruct (accepted ui (ErrForDevice _ _)); run_monad; auto. }
    destruct (produces_job command_info); run_monad; [|by left].
    destruct body0 as [| root]; [by destruct (Hn code)|]. run_monad.
    destruct (text_if_any (find root path_job)); run_monad;
      match goal with
      | |- context [accepted ui ?l] => destruct (accepted ui l)
      end; run_monad; auto. }
  destruct (body serial st) as [[[] | e] st1]; cbn [fst] in Hb;
    [apply IH | by destruct Hb as [Hb | Hb]; [discriminate | right]].
Qed.

End Dispatch.

(** Every command of the catalog renders, with or without a version. *)
Lemma catalog_commands_render (name : string) (info : CommandInfo)
      (version : Text) :
  catalog_lookup name URL_CHOICES = Some info ->
  is_Some (render_command info version).
Proof.
  cbn [catalog_lookup URL_CHOICES]. unfold render_command.
  repeat (destruct (String.eqb _ name);
          [intros [= <-]; destruct (truthy version); cbn; eauto |]).
  discriminate.
Qed.

(** C4. Spawning of trackers fails on a job identifier that the log does
    not take: "Download Version" on two devices, the manager enqueuing a
    job whose identifier holds a closing tag.  The "enqueued" line is
    written to the log as markup, [log.write] raises [MarkupError] before
    [run_worker] is reached, and the [except] clause of the loop does not
    catch it: the device has its reply with a job identifier and gets
    neither the "enqueued" line nor a tracker, and the second device is
    never sent its request. *)
Theorem job_id_with_markup_starts_no_tracker (ui : Toolkit) :
  let out := run_execute_command ui (net_const enqueued_stray) admin
               "Download Version" (Some "10.2.3") two_devices in
  text_if_any
    (find (response "success" [node "result" [leaf "job" "[/x]"]]) path_job)
  = Some "[/x]" /\
  out.1 = Raised MarkupError /\
  output_log (trace out.2) =
    [Starting "Download Version" 2;
     Running "Download Version" (Some "fw-a")] /\
  requests (trace out.2) =
    [device_request admin "10.0.0.1" download_xml (Some "001")] /\
  replies (trace out.2) = [enqueued_stray] /\
  workers (trace out.2) = [].
Proof. vm_compute. repeat split; reflexivity. Qed.

(** X23. Spawning of trackers is decided by the job flag of the command
    and by the presence of a job identifier.  For a command that produces no
    job, the loop over any devices starts no worker, whatever the replies.
    For a command that produces a job and a device whose opening line the
    log takes: a parsed reply without a job identifier gives that device
    the one "did not return a job ID" error and no worker; a parsed reply
    with a job identifier gives the one "enqueued" line followed by one
    tracker for that serial and job; in either case, when the log refuses
    the line, the coroutine ends in [MarkupError] with nothing written or
    started after the reply. *)
Theorem tracker_spawning_by_job_flag
    (ui : Toolkit) (net : nat -> Request -> Reply) (auth : string * string)
    (command_name : string) (command_info : CommandInfo) (version : Text)
    (ip : string) (xml : string)
    (Hxml : render_command command_info version = Some xml) :
  (produces_job command_info = false ->
   forall serials st,
     workers (trace (for_each serials
       (execute_on_device ui net auth command_name command_info version ip)
       st).2) = workers (trace st)) /\
  (produces_job command_info = true ->
   forall serial st code root,
     let rq := device_request auth ip xml serial in
     let hostname := hostname_of st serial in
     let replied := [Logged (Running command_name hostname);
                     Requested rq; Replied (Ok code (Document root))] in
     accepted ui (Running command_name hostname) = true ->
     net (clock st) rq = Ok code (Document root) ->
     (text_if_any (find root path_job) = None ->
      execute_on_device ui net auth command_name command_info version ip
        serial st =
      if accepted ui (ErrNoJobId command_name hostname)
      then (Normal tt,
            after st 1
              (replied ++ [Logged (ErrNoJobId command_name hostname)]))
      else (Raised MarkupError, after st 1 replied))
     /\
     (forall job_id,
        text_if_any (find root path_job) = Some job_id ->
        execute_on_device ui net auth command_name command_info version ip
          serial st =
        if accepted ui (JobEnqueued job_id hostname)
        then (Normal tt,
              after st 1
                (replied ++ [Logged (JobEnqueued job_id hostname);
                             Spawned (TrackJobProgress auth serial job_id)]))
        else (Raised MarkupError, after st 1 replied))).
Proof.
  split.
  - intros Hjob serials st.
    destruct (dispatch_loop_effects ui net auth command_name command_info
                version ip serials st) as (effs & -> & _ & _ & _ & Hw).
    by rewrite workers_app, Hw, app_nil_r.
  - intros Hjob serial st code root rq hostname replied Hrun Hr.
    subst replied hostname.
    unfold execute_on_device, after, hostname_of in *. run_monad.
    rewrite Hxml. run_monad. rewrite Hrun. run_monad.
    fold (device_request auth ip xml serial).
    fold rq. rewrite Hr, Hjob. run_monad.
    split.
    + intros ->. run_monad.
      destruct (accepted ui (ErrNoJobId _ _)); run_monad;
        by rewrite <- !app_assoc.
    + intros job_id ->. run_monad.
      destruct (accepted ui (JobEnqueued _ _)); run_monad;
        by rewrite <- !app_assoc.
Qed.

(** X23 on the sample download: the reply that enqueues job 42 gives the
    first device its "enqueued" line and its tracker. *)
Lemma tracker_spawning_by_job_flag_witness :
  render_command download_info (Some "10.2.3") = Some download_xml /\
  accepted plain_toolkit
    (Running "Download Version" (hostname_of two_devices (Some "001")))
  = true /\
  execute_on_device plain_toolkit net_enqueue admin "Download Version"
    download_info (Some "10.2.3") "10.0.0.1" (Some "001") two_devices =
  (Normal tt,
   after two_devices 1
     [Logged (Running "Download Version" (Some "fw-a"));
      Requested (device_request admin "10.0.0.1" download_xml (Some "001"));
      Replied enqueued_42;
      Logged (JobEnqueued "42" (Some "fw-a"));
      Spawned (TrackJobProgress admin (Some "001") "42")]).
Proof.
  split; [reflexivity|]. split; [reflexivity|].
  destruct (tracker_spawning_by_job_flag plain_toolkit net_enqueue admin
              "Download Version" download_info (Some "10.2.3") "10.0.0.1"
              download_xml eq_refl)
    as [_ Hjob].
  destruct (Hjob eq_refl (Some "001") two_devices 200%Z
              (response "success" [node "result" [leaf "job" "42"]])
              eq_refl eq_refl)
    as [_ Hsome].
  exact (Hsome "42" eq_refl).
Defined.

(** C1. The isolation of errors fails for a reply that is not well-formed
    XML: "Download Version" on two devices, the first reply malformed.
    [ET.fromstring] raises [ParseError], which the [except] clause of the
    loop does not catch: the coroutine ends there, the first device gets no
    failure line, and the second device is never sent its request.  A
    tracker whose poll gets such a reply ends in the same way, without a
    line for its job. *)
Theorem malformed_reply_aborts_dispatch (ui : Toolkit) :
  let out := run_execute_command ui net_first_malformed admin
               "Download Version" (Some "10.2.3") two_devices in
  let poll := track_job_progress ui (net_const (Ok 200 Malformed)) 3 admin
                (Some "001") "42" two_devices in
  out.1 = Raised ParseError /\
  output_log (trace out.2) =
    [Starting "Download Version" 2;
     Running "Download Version" (Some "fw-a")] /\
  requests (trace out.2) =
    [device_request admin "10.0.0.1" download_xml (Some "001")] /\
  workers (trace out.2) = [] /\
  poll.1 = Raised ParseError /\
  output_log (trace poll.2) = [].
Proof. vm_compute. repeat split; reflexivity. Qed.

(** The same dispatch when every reply is well-formed: both devices are
    served, each with its tracker. *)
Lemma wellformed_replies_reach_every_device (ui : Toolkit) :
  let out := run_execute_command ui net_enqueue admin "Download Version"
               (Some "10.2.3") two_devices in
  out.1 = Normal tt /\
  output_log (trace out.2) =
    [Starting "Download Version" 2;
     Running "Download Version" (Some "fw-a");
     JobEnqueued "42" (Some "fw-a");
     Running "Download Version" (Some "fw-b");
     JobEnqueued "42" (Some "fw-b")] /\
  workers (trace out.2) =
    [TrackJobProgress admin (Some "001") "42";
     TrackJobProgress admin (Some "002") "42"].
Proof. vm_compute. repeat split; reflexivity. Qed.

Lemma added_app (st st' : App) (effs : list Effect) :
  trace st' = trace st ++ effs -> added st st' = effs.
Proof. intros H. unfold added. rewrite H. apply drop_app_length. Qed.

(** The whole of [run_execute_command]: its effects, read off the trace. *)
Lemma run_execute_command_effects
    (ui : Toolkit) (net : nat -> Request -> Reply) (auth : string * string)
    (command_name : string) (version : Text) (st : App) :
  exists effs,
    trace (run_execute_command ui net auth command_name version st).2
    = trace st ++ effs /\
    handshake false effs = Some false /\
    ((run_execute_command ui net auth command_name version st).1 = Normal tt ->
     rq_target <$> requests effs = Some <$> selected st) /\
    ((run_execute_command ui net auth command_name version st).1 = Normal tt ->
     selected st <> [] ->
     exists blocks,
       effs = Logged (Starting command_name (length (selected st)))
              :: concat blocks /\
       Forall2 served (selected st) blocks).
Proof.
  unfold run_execute_command. run_monad.
  destruct (selected st) as [| serial rest] eqn:Hsel.
  { run_monad. by eexists. }
  run_monad.
  destruct (catalog_lookup command_name URL_CHOICES) as [info|] eqn:Hinfo;
    run_monad.
  2:{ exists []. by rewrite app_nil_r. }
  rewrite (accepted_Starting ui command_name info _ Hinfo). run_monad.
  set (st1 := with_io _ _ st).
  destruct (dispatch_loop_effects ui net auth command_name info version
              (pano_ip st) (serial :: rest) st1)
    as (effs & Htr & Hhs & Hrq & Hsv & _).
  exists (Logged (Starting command_name (length (serial :: rest))) :: effs).
  split; [|split; [|split]].
  - rewrite Htr. subst st1. cbn [trace with_io]. by rewrite <- app_assoc.
  - done.
  - intros Hn. by apply Hrq.
  - intros Hn _. destruct (Hsv Hn) as (blocks & -> & Hblocks). by exists blocks.
Qed.

(** ** The job tracker: [track_job_progress] *)

Lemma while_true_step (fuel : nat) (body : M LoopCtl) (st : App) :
  while_true (S fuel) body st =
  match body st with
  | (Normal Continue, st') => while_true fuel body st'
  | (Normal Break, st') => (Normal Exited, st')
  | (Raised e, st') => (Raised e, st')
  end.
Proof.
  cbn [while_true]. rewrite run_bind.
  by destruct (body st) as [[[] | e] st'].
Qed.

(** [while_true k] ends [Unfinished] exactly when its [k] iterations have
    all continued; the loop on more fuel then goes on from the state they
    have led to. *)
Lemma while_true_add (k n : nat) (body : M LoopCtl) (st st_k : App) :
  while_true k body st = (Normal Unfinished, st_k) ->
  while_true (k + n) body st = while_true n body st_k.
Proof.
  revert st. induction k as [| k IH]; intros st Hk.
  - cbn in Hk. by injection Hk as ->.
  - cbn [Nat.add]. rewrite while_true_step in *.
    destruct (body st) as [[[] | e] st']; try discriminate. by apply IH.
Qed.

Lemma with_io_same (st : App) : with_io (clock st) (trace st) st = st.
Proof. by destruct st. Qed.

Lemma after_nothing (st : App) : after st 0 [] = st.
Proof. unfold after. cbn. by rewrite app_nil_r, with_io_same. Qed.

Lemma after_after (st : App) (n m : nat) (e1 e2 : list Effect) :
  after (after st n e1) m e2 = after st (m + n) (e1 ++ e2).
Proof.
  unfold after, with_io. cbn. rewrite <- app_assoc. f_equal. lia.
Qed.

Lemma added_after (st : App) (n : nat) (effs : list Effect) :
  added st (after st n effs) = effs.
Proof. unfold added, after. cbn. apply drop_app_length. Qed.

Lemma after_frame (st : App) (n : nat) (effs : list Effect) :
  after st n effs
  = with_io (clock (after st n effs)) (trace (after st n effs)) st.
Proof. reflexivity. Qed.

Lemma requests_logged (lines : list LogLine) : requests (Logged <$> lines) = [].
Proof. by induction lines. Qed.

Lemma workers_logged (lines : list LogLine) : workers (Logged <$> lines) = [].
Proof. by induction lines. Qed.

(** Closes the cases of a poll: each line is taken by the log or not. *)
Ltac lines_case :=
  repeat match goal with
         | |- context [accepted ?u ?l] => destruct (accepted u l)
         end;
  run_monad; rewrite <- ?app_assoc; cbn [app];
  first [by eexists _, [_] | by eexists _, []].

Section Tracker.

Variable ui : Toolkit.
Variable net : nat -> Request -> Reply.
Variables (auth : string * string) (serial : Text) (job_id : string).
Variable hostname : Text.

Local Abbreviation poll := (poll_job ui net auth serial job_id hostname).
Local Abbreviation rq_at st := (poll_request auth (pano_ip st) serial job_id).

(** Every iteration sleeps, issues its one request and gets the reply,
    whatever it does next; after that it writes lines only, and it touches
    nothing but the trace and the clock. *)
Lemma poll_job_writes_lines_only (st : App) :
  exists res lines,
    poll st =
    (res, after st 1 ([Slept 5; Requested (rq_at st);
                       Replied (net (clock st) (rq_at st))]
                      ++ (Logged <$> lines))).
Proof.
  unfold poll_job, after. run_monad. fold (rq_at st).
  destruct (net (clock st) (rq_at st)) as [e | code [| root]]; run_monad;
    [lines_case | lines_case |].
  destruct (find root path_job_status) as [status_node|]; run_monad;
    [| lines_case].
  case_bool_decide; run_monad.
  { destruct (find root path_job_result) as [result_node|]; run_monad;
      [| lines_case].
    case_bool_decide; run_monad; [lines_case|].
    destruct (join nl _); run_monad; lines_case. }
  case_bool_decide; run_monad; [| lines_case].
  destruct (find root path_job_progress) as [progress_node|]; run_monad;
    [| lines_case].
  destruct (truthy (text progress_node)); run_monad; lines_case.
Qed.

Lemma while_true_extends_trace (fuel : nat) (st : App) :
  exists tail, trace (while_true fuel poll st).2 = trace st ++ tail.
Proof.
  revert st. induction fuel as [| fuel IH]; intros st.
  { exists []. by rewrite app_nil_r. }
  rewrite while_true_step.
  destruct (poll_job_writes_lines_only st) as (res & lines & ->).
  destruct res as [[] | e]; cbn [snd]; try by eexists.
  destruct (IH (after st 1 ([Slept 5; Requested (rq_at st);
                             Replied (net (clock st) (rq_at st))]
                            ++ (Logged <$> lines))))
    as [tail' ->].
  cbn [after trace with_io]. rewrite <- app_assoc. by eexists.
Qed.

(** A poll that sees a status other than "FIN": the line of the
    observation, if there is one, is written and the loop goes on; when
    the log refuses the line, the tracker ends in [MarkupError]. *)
Lemma poll_job_observes (st : App) (code : Z) (root status_node : Element) :
  net (clock st) (rq_at st) = Ok code (Document root) ->
  find root path_job_status = Some status_node ->
  text status_node <> Some "FIN" ->
  let polled := after st 1 [Slept 5; Requested (rq_at st);
                            Replied (Ok code (Document root))] in
  poll st =
  match observation job_id hostname root (text status_node) with
  | None => (Normal Continue, polled)
  | Some line =>
      if accepted ui line
      then (Normal Continue, after polled 0 [Logged line])
      else (Raised MarkupError, polled)
  end.
Proof.
  intros Hr Hstatus Hfin polled. subst polled.
  unfold poll_job, observation, after, poll_request in *. run_monad.
  rewrite Hr. run_monad. rewrite Hstatus. run_monad.
  rewrite (bool_decide_eq_false_2 _ Hfin).
  case_bool_decide; run_monad.
  - unfold text_if_any.
    destruct (find root path_job_progress) as [progress_node|]; run_monad;
      [| by rewrite <- !app_assoc].
    destruct (text progress_node) as [[| c p] |]; cbn [truthy fmt fmap
      option_fmap option_map]; run_monad; try by rewrite <- !app_assoc.
    destruct (accepted ui _); run_monad; by rewrite <- !app_assoc.
  - cbn [fmap option_fmap option_map].
    destruct (accepted ui _); run_monad; by rewrite <- !app_assoc.
Qed.

Lemma while_true_reach (fuel : nat) (st : App) :
  exists n effs,
    n <= fuel /\
    (while_true fuel poll st).2 = after st n effs /\
    requests effs = replicate n (rq_at st) /\
    workers effs = [].
Proof.
  revert st. induction fuel as [| fuel IH]; intros st.
  { exists 0, []. by rewrite after_nothing. }
  rewrite while_true_step.
  destruct (poll_job_writes_lines_only st) as (res & lines & ->).
  set (effs1 := [_; _; _] ++ _).
  assert (Hrq : requests effs1 = [rq_at st])
    by (subst effs1; rewrite requests_app, requests_logged; done).
  assert (Hw : workers effs1 = [])
    by (subst effs1; rewrite workers_app, workers_logged; done).
  destruct res as [[] | e]; cbn [snd];
    try (exists 1, effs1; split; [lia | done]).
  destruct (IH (after st 1 effs1)) as (n & effs & Hn & -> & Hrqs & Hws).
  exists (S n), (effs1 ++ effs). split; [lia|].
  split; [rewrite after_after; f_equal; lia|].
  split; [by rewrite requests_app, Hrq, Hrqs | by rewrite workers_app, Hw, Hws].
Qed.

End Tracker.

Lemma track_job_progress_unfold
    (ui : Toolkit) (net : nat -> Request -> Reply) (fuel : nat)
    (auth : string * string) (serial : Text) (job_id : string) (st : App) :
  track_job_progress ui net fuel auth serial job_id st =
  while_true fuel
    (poll_job ui net auth serial job_id (hostname_of st serial)) st.
Proof. reflexivity. Qed.

(** C6. The indeterminate exit on a failed poll fails when the text of
    the exception is not markup the log takes: a poll that ends in an HTTP
    error whose reason phrase holds a closing tag.  The error line is
    written to the log as markup inside the [except] clause, [log.write]
    raises [MarkupError] there, and the tracker ends without any line:
    it polls no more, but it has emitted no error outcome. *)
Theorem failed_poll_with_markup_leaves_no_outcome (ui : Toolkit) :
  let out := track_job_progress ui (net_const failed_stray) 3 admin
               (Some "001") "42" two_devices in
  out.1 = Raised MarkupError /\
  output_log (trace out.2) = [] /\
  requests (trace out.2)
  = [poll_request admin "10.0.0.1" (Some "001") "42"] /\
  replies (trace out.2) = [failed_stray].
Proof. vm_compute. repeat split; reflexivity. Qed.

(** X25. The indeterminate exits are final.  Let the first [k] polls of a
    tracker have continued and led to [st_k].  If the next poll fails in
    [requests], or its reply has no status element, then on any further
    fuel the tracker has ended after that one request: it has left its
    loop with exactly one more line (the error, or the warning) when the
    log takes the line, and it has ended in [MarkupError] without a line
    when the log refuses it; nothing is polled after it.  And an iteration
    that breaks ends the loop, whatever the fuel left. *)
Theorem indeterminate_exits_are_final
    (ui : Toolkit) (net : nat -> Request -> Reply) (auth : string * string)
    (serial : Text) (job_id : string) (k fuel : nat) (st st_k : App)
    (line : LogLine)
    (Hpolls : track_job_progress ui net k auth serial job_id st
              = (Normal Unfinished, st_k))
    (Hexit :
       (exists e,
          net (clock st_k) (poll_request auth (pano_ip st_k) serial job_id)
          = Failed e /\
          line = ErrCheckingJob job_id (hostname_of st serial) (exn_str e)) \/
       (exists code root,
          net (clock st_k) (poll_request auth (pano_ip st_k) serial job_id)
          = Ok code (Document root) /\
          find root path_job_status = None /\
          line = WarnNoJobStatus job_id (hostname_of st serial))) :
  let rq := poll_request auth (pano_ip st_k) serial job_id in
  let polled := [Slept 5; Requested rq; Replied (net (clock st_k) rq)] in
  track_job_progress ui net (k + S fuel) auth serial job_id st =
  (if accepted ui line
   then (Normal Exited, after st_k 1 (polled ++ [Logged line]))
   else (Raised MarkupError, after st_k 1 polled)) /\
  (forall hostname st1 st2 n,
     poll_job ui net auth serial job_id hostname st1 = (Normal Break, st2) ->
     while_true (S n) (poll_job ui net auth serial job_id hostname) st1
     = (Normal Exited, st2)).
Proof.
  intros rq polled. subst polled. split.
  - rewrite track_job_progress_unfold in *.
    rewrite (while_true_add _ _ _ _ _ Hpolls), while_true_step.
    unfold poll_job, after. subst rq. unfold poll_request in *. run_monad.
    destruct Hexit as [(e & Hr & ->) | (code & root & Hr & Hnone & ->)];
      rewrite Hr; run_monad.
    + destruct (accepted ui _); run_monad; by rewrite <- !app_assoc.
    + rewrite Hnone. run_monad.
      destruct (accepted ui _); run_monad; by rewrite <- !app_assoc.
  - intros hostname st1 st2 n Hbreak. by rewrite while_true_step, Hbreak.
Qed.

(** X25 on a sample run: one poll at 40 percent, then a request that
    times out; on any fuel left the tracker has ended with the one error
    line. *)
Lemma indeterminate_exits_are_final_witness :
  track_job_progress plain_toolkit (net_script [active_40] timed_out) 1 admin
    (Some "001") "42" two_devices =
  (Normal Unfinished,
   after two_devices 1
     [Slept 5;
      Requested (poll_request admin "10.0.0.1" (Some "001") "42");
      Replied active_40;
      Logged (JobProgress "42" (Some "fw-a") "40")]) /\
  track_job_progress plain_toolkit (net_script [active_40] timed_out) (1 + 8)
    admin (Some "001") "42" two_devices =
  (Normal Exited,
   after (after two_devices 1
            [Slept 5;
             Requested (poll_request admin "10.0.0.1" (Some "001") "42");
             Replied active_40;
             Logged (JobProgress "42" (Some "fw-a") "40")]) 1
     [Slept 5;
      Requested (poll_request admin "10.0.0.1" (Some "001") "42");
      Replied timed_out;
      Logged (ErrCheckingJob "42" (Some "fw-a") "timed out")]).
Proof.
  assert (Hpolls :
    track_job_progress plain_toolkit (net_script [active_40] timed_out) 1
      admin (Some "001") "42" two_devices =
    (Normal Unfinished,
     after two_devices 1
       [Slept 5;
        Requested (poll_request admin "10.0.0.1" (Some "001") "42");
        Replied active_40;
        Logged (JobProgress "42" (Some "fw-a") "40")]))
    by (vm_compute; reflexivity).
  split; [exact Hpolls|].
  refine (proj1 (indeterminate_exits_are_final plain_toolkit
            (net_script [active_40] timed_out) admin (Some "001") "42" 1 7
            two_devices _
            (ErrCheckingJob "42" (Some "fw-a") "timed out") Hpolls _)).
  left. exists (OtherRequestException "timed out"). split; reflexivity.
Defined.

(** C7. The continuation of the loop fails on a status that is not markup
    the log takes: a poll whose status element holds a closing tag.  The
    status is neither "FIN" nor "ACT", the "ongoing" line that names it is
    written to the log as markup, [log.write] raises [MarkupError], and
    the tracker ends there: no observation is emitted and the job is not
    polled again, whatever the fuel left. *)
Theorem status_with_markup_ends_the_polling (ui : Toolkit) :
  let out := track_job_progress ui (net_const status_stray) 3 admin
               (Some "001") "42" two_devices in
  find (response "success"
          [node "result" [node "job" [leaf "status" "[/x]"]]])
       path_job_status = Some (leaf "status" "[/x]") /\
  out.1 = Raised MarkupError /\
  output_log (trace out.2) = [] /\
  requests (trace out.2)
  = [poll_request admin "10.0.0.1" (Some "001") "42"].
Proof. vm_compute. repeat split; reflexivity. Qed.

(** X26. Observations that are not terminal continue the loop.  Let the first
    [k] polls of a tracker have continued and led to [st_k], and let the
    next reply carry a status element whose text is not "FIN".  The line
    of that poll is the progress line with the very text of the progress
    element when the status is "ACT" and that text is not empty, no line
    when the status is "ACT" without such a text, and the "ongoing" line
    naming the status otherwise.  When the log takes the line (or there is
    none), the tracker is still in its loop after that poll, and on
    further fuel it sleeps and issues its next request; when the log
    refuses the line, the tracker ends in [MarkupError] without it. *)
Theorem nonterminal_polls_continue
    (ui : Toolkit) (net : nat -> Request -> Reply) (auth : string * string)
    (serial : Text) (job_id : string) (k fuel : nat) (st st_k : App)
    (code : Z) (root status_node : Element)
    (Hpolls : track_job_progress ui net k auth serial job_id st
              = (Normal Unfinished, st_k))
    (Hr : net (clock st_k) (poll_request auth (pano_ip st_k) serial job_id)
          = Ok code (Document root))
    (Hstatus : find root path_job_status = Some status_node)
    (Hfin : text status_node <> Some "FIN") :
  let rq := poll_request auth (pano_ip st_k) serial job_id in
  let hostname := hostname_of st serial in
  let seen := observation job_id hostname root (text status_node) in
  let polled := after st_k 1 [Slept 5; Requested rq;
                              Replied (Ok code (Document root))] in
  let st1 := after polled 0 (Logged <$> option_list seen) in
  (text status_node = Some "ACT" ->
   forall progress_node p,
     find root path_job_progress = Some progress_node ->
     text progress_node = Some p -> p <> "" ->
     seen = Some (JobProgress job_id hostname p)) /\
  (text status_node = Some "ACT" ->
   text_if_any (find root path_job_progress) = None -> seen = None) /\
  (text status_node <> Some "ACT" ->
   seen = Some (JobOngoing job_id hostname (text status_node))) /\
  ((forall line, seen = Some line -> accepted ui line = true) ->
   track_job_progress ui net (S k) auth serial job_id st
   = (Normal Unfinished, st1) /\
   exists tail,
     trace (track_job_progress ui net (S k + S fuel) auth serial job_id st).2 =
     trace st1 ++ [Slept 5; Requested rq; Replied (net (S (clock st_k)) rq)]
               ++ tail) /\
  (forall line,
     seen = Some line -> accepted ui line = false ->
     track_job_progress ui net (k + S fuel) auth serial job_id st
     = (Raised MarkupError, polled)).
Proof.
  intros rq hostname seen polled st1.
  rewrite !track_job_progress_unfold in *. fold hostname in Hpolls |- *.
  pose proof (poll_job_observes ui net auth serial job_id hostname st_k code
                root status_node Hr Hstatus Hfin) as Hpoll.
  cbv zeta in Hpoll. fold rq seen polled in Hpoll.
  split; [|split; [|split; [|split]]].
  - intros Hact node p Hnode Hp Hne. subst seen. unfold observation.
    rewrite Hact, bool_decide_eq_true_2 by done. unfold text_if_any.
    rewrite Hnode, Hp. by destruct p.
  - intros Hact Hnone. subst seen. unfold observation.
    by rewrite Hact, bool_decide_eq_true_2, Hnone by done.
  - intros Hact. subst seen. unfold observation.
    by rewrite bool_decide_eq_false_2 by done.
  - intros Hlog.
    assert (Hcont : poll_job ui net auth serial job_id hostname st_k
                    = (Normal Continue, st1)).
    { rewrite Hpoll. subst st1. destruct seen as [line|]; cbn.
      - by rewrite (Hlog line eq_refl).
      - by rewrite after_nothing. }
    assert (Hnext : while_true (S k)
                      (poll_job ui net auth serial job_id hostname) st
                    = (Normal Unfinished, st1)).
    { replace (S k) with (k + 1) by lia.
      rewrite (while_true_add _ _ _ _ _ Hpolls), while_true_step, Hcont.
      reflexivity. }
    split; [exact Hnext|].
    rewrite (while_true_add _ _ _ _ _ Hnext), while_true_step.
    destruct (poll_job_writes_lines_only ui net auth serial job_id hostname
                st1) as (res & lines & ->).
    change (pano_ip st1) with (pano_ip st_k).
    change (clock st1) with (S (clock st_k)).
    fold rq.
    set (st2 := after st1 1 _).
    destruct res as [[] | e]; cbn [snd];
      try (by exists (Logged <$> lines)).
    destruct (while_true_extends_trace ui net auth serial job_id hostname
                fuel st2) as [tail' ->].
    exists ((Logged <$> lines) ++ tail'). subst st2.
    cbn [after trace with_io]. by rewrite <- ?app_assoc.
  - intros line Hseen Hrej.
    rewrite (while_true_add _ _ _ _ _ Hpolls), while_true_step, Hpoll.
    by rewrite Hseen, Hrej.
Qed.

(** X26 on a sample run: a pending poll, then a poll at 40 percent; the
    tracker is still in its loop after both. *)
Lemma nonterminal_polls_continue_witness :
  track_job_progress plain_toolkit
    (net_script [pending; active_40] finished_ok) 1 admin (Some "001") "42"
    two_devices =
  (Normal Unfinished,
   after two_devices 1
     [Slept 5;
      Requested (poll_request admin "10.0.0.1" (Some "001") "42");
      Replied pending;
      Logged (JobOngoing "42" (Some "fw-a") (Some "PEND"))]) /\
  track_job_progress plain_toolkit
    (net_script [pending; active_40] finished_ok) 2 admin (Some "001") "42"
    two_devices =
  (Normal Unfinished,
   after (after (after two_devices 1
                   [Slept 5;
                    Requested (poll_request admin "10.0.0.1" (Some "001")
                                 "42");
                    Replied pending;
                    Logged (JobOngoing "42" (Some "fw-a") (Some "PEND"))]) 1
            [Slept 5;
             Requested (poll_request admin "10.0.0.1" (Some "001") "42");
             Replied active_40]) 0
     [Logged (JobProgress "42" (Some "fw-a") "40")]).
Proof.
  assert (Hpolls :
    track_job_progress plain_toolkit
      (net_script [pending; active_40] finished_ok) 1 admin (Some "001") "42"
      two_devices =
    (Normal Unfinished,
     after two_devices 1
       [Slept 5;
        Requested (poll_request admin "10.0.0.1" (Some "001") "42");
        Replied pending;
        Logged (JobOngoing "42" (Some "fw-a") (Some "PEND"))]))
    by (vm_compute; reflexivity).
  split; [exact Hpolls|].
  refine (proj1 (proj1 (proj2 (proj2 (proj2 (nonterminal_polls_continue
            plain_toolkit (net_script [pending; active_40] finished_ok) admin
            (Some "001") "42" 1 0 two_devices _ 200%Z
            (response "success"
               [node "result"
                  [node "job" [leaf "status" "ACT"; leaf "progress" "40"]]])
            (leaf "status" "ACT") Hpolls eq_refl eq_refl
            ltac:(discriminate))))) _)).
  intros line [= <-]. reflexivity.
Defined.

(** *** The finished status *)

(** What [join] gives holds each of the parts. *)
Lemma concat_holds_each_part (sep : string) (parts : list string) (s : string) :
  s ∈ parts ->
  exists pre post, String.concat sep parts = pre +:+ s +:+ post.
Proof.
  induction parts as [| x parts IH]; intros Hin; [by apply elem_of_nil in Hin|].
  destruct parts as [| y parts].
  { apply list_elem_of_singleton in Hin as ->. exists "", "".
    change (x = x +:+ ""). by rewrite append_nil_r. }
  change (String.concat sep (x :: y :: parts))
    with (x +:+ sep +:+ String.concat sep (y :: parts)).
  apply elem_of_cons in Hin as [-> | Hin].
  - by exists "", (sep +:+ String.concat sep (y :: parts)).
  - destruct (IH Hin) as (pre & post & ->).
    exists (x +:+ sep +:+ pre), post. by rewrite !append_assoc.
Qed.

Lemma join_holds_each_part (sep : string) (parts : list Text) (joined s : string) :
  join sep parts = Some joined -> Some s ∈ parts ->
  exists pre post, joined = pre +:+ s +:+ post.
Proof.
  unfold join. intros Hj Hin.
  destruct (mapM id parts) as [strs|] eqn:Hm; [|discriminate].
  injection Hj as <-. apply concat_holds_each_part.
  apply mapM_Some_1 in Hm.
  apply list_elem_of_lookup in Hin as [i Hi].
  destruct (Forall2_lookup_l _ _ _ _ _ Hm Hi) as (s' & Hs' & Heq).
  cbn in Heq. injection Heq as <-. by eapply list_elem_of_lookup_2.
Qed.

(** A poll that sees "FIN" with the result "OK" leaves the loop with the
    one success line, when the log takes that line. *)
Lemma finished_ok_exits_with_success
    (ui : Toolkit) (net : nat -> Request -> Reply) (auth : string * string)
    (serial : Text) (job_id : string) (hostname : Text) (fuel : nat)
    (st : App) (code : Z) (root status_node result_node : Element) :
  let rq := poll_request auth (pano_ip st) serial job_id in
  net (clock st) rq = Ok code (Document root) ->
  find root path_job_status = Some status_node ->
  text status_node = Some "FIN" ->
  find root path_job_result = Some result_node ->
  text result_node = Some "OK" ->
  accepted ui (JobFinishedOk job_id hostname) = true ->
  while_true (S fuel) (poll_job ui net auth serial job_id hostname) st =
  (Normal Exited,
   after st 1 [Slept 5; Requested rq; Replied (Ok code (Document root));
               Logged (JobFinishedOk job_id hostname)]).
Proof.
  intros rq Hr Hstatus Hfin Hresult Hok Hlog. rewrite while_true_step.
  unfold poll_job, after. subst rq. unfold poll_request in *. run_monad.
  rewrite Hr. run_monad. rewrite Hstatus. run_monad.
  rewrite Hfin, bool_decide_eq_true_2 by done. run_monad.
  rewrite Hresult. run_monad. rewrite Hok, bool_decide_eq_true_2 by done.
  rewrite Hlog. run_monad. by rewrite <- !app_assoc.
Qed.

(** A poll that sees "FIN" with a result element whose text is not "OK"
    leaves the loop with the one failure line, provided every detail line
    has a text and the log takes the failure line; the line then holds the
    text of every detail line. *)
Lemma finished_failure_lists_details
    (ui : Toolkit) (net : nat -> Request -> Reply) (auth : string * string)
    (serial : Text) (job_id : string) (hostname : Text) (fuel : nat)
    (st : App) (code : Z) (root status_node result_node : Element)
    (details : string) :
  let rq := poll_request auth (pano_ip st) serial job_id in
  net (clock st) rq = Ok code (Document root) ->
  find root path_job_status = Some status_node ->
  text status_node = Some "FIN" ->
  find root path_job_result = Some result_node ->
  text result_node <> Some "OK" ->
  join nl (text <$> findall root path_job_details_line) = Some details ->
  accepted ui (JobFinishedFailure job_id hostname details) = true ->
  while_true (S fuel) (poll_job ui net auth serial job_id hostname) st =
  (Normal Exited,
   after st 1 [Slept 5; Requested rq; Replied (Ok code (Document root));
               Logged (JobFinishedFailure job_id hostname details)]) /\
  (forall line_node,
     line_node ∈ findall root path_job_details_line ->
     exists s pre post,
       text line_node = Some s /\ details = pre +:+ s +:+ post).
Proof.
  intros rq Hr Hstatus Hfin Hresult Hok Hjoin Hlog. split.
  - rewrite while_true_step.
    unfold poll_job, after. subst rq. unfold poll_request in *. run_monad.
    rewrite Hr. run_monad. rewrite Hstatus. run_monad.
    rewrite Hfin, bool_decide_eq_true_2 by done. run_monad.
    rewrite Hresult. run_monad. rewrite bool_decide_eq_false_2 by done.
    run_monad. rewrite Hjoin. run_monad. rewrite Hlog. run_monad.
    by rewrite <- !app_assoc.
  - intros line_node Hin.
    assert (Hs : is_Some (text line_node)).
    { unfold join in Hjoin.
      destruct (mapM id _) as [strs|] eqn:Hm; [|discriminate].
      assert (Hall : is_Some (mapM id (text <$> findall root
                                         path_job_details_line)))
        by (by rewrite Hm).
      apply mapM_is_Some_1 in Hall. rewrite Forall_forall in Hall.
      apply (Hall (text line_node)). by apply list_elem_of_fmap_2. }
    destruct Hs as [s Hs]. exists s.
    destruct (join_holds_each_part nl _ details s Hjoin) as (pre & post & ->).
    { rewrite <- Hs. by apply list_elem_of_fmap_2. }
    by exists pre, post.
Qed.

(** C2. The finished status with a failure fails on a detail line that
    has no text: the poll sees "FIN" with the result "FAIL" and a [<line/>]
    among the detail lines.  [line.text] is [None] there and [join] raises
    [TypeError]: the tracker ends without a failure line.  The same poll
    with no result element ends in [AttributeError], raised by [.text] of
    [None]. *)
Theorem finished_failure_with_empty_detail_line_raises (ui : Toolkit) :
  let out := track_job_progress ui (net_const finished_failed_empty_line) 3
               admin (Some "001") "42" two_devices in
  let out' := track_job_progress ui (net_const finished_without_result) 3
                admin (Some "001") "42" two_devices in
  out.1 = Raised TypeError /\
  output_log (trace out.2) = [] /\
  length (requests (trace out.2)) = 1 /\
  out'.1 = Raised AttributeError /\
  output_log (trace out'.2) = [].
Proof. vm_compute. repeat split; reflexivity. Qed.

(** The finished status on replies that have all their texts: the success
    line, and the failure line with both detail lines. *)
Lemma finished_status_examples (ui : Toolkit) :
  output_log (trace (track_job_progress ui (net_const finished_ok) 3 admin
                       (Some "001") "42" two_devices).2)
  = [JobFinishedOk "42" (Some "fw-a")] /\
  output_log (trace (track_job_progress ui (net_const finished_failed) 3 admin
                       (Some "001") "42" two_devices).2)
  = [JobFinishedFailure "42" (Some "fw-a")
       ("Failed to download" +:+ nl +:+ "No space left")].
Proof. vm_compute. split; reflexivity. Qed.

(** X1. A tracker reaches the manager for its own job only.  On any fuel
    and whatever the replies, [track_job_progress] changes nothing of the
    application state but the clock and the trace, starts no worker, and
    every request it issues is the poll of its own job on its own serial:
    the same request each time, at most one per iteration. *)
Theorem tracker_only_polls_its_job
    (ui : Toolkit) (net : nat -> Request -> Reply) (fuel : nat)
    (auth : string * string) (serial : Text) (job_id : string) (st : App) :
  let out := track_job_progress ui net fuel auth serial job_id st in
  out.2 = with_io (clock out.2) (trace out.2) st /\
  workers (added st out.2) = [] /\
  exists n,
    n <= fuel /\
    clock out.2 = n + clock st /\
    requests (added st out.2)
    = replicate n (poll_request auth (pano_ip st) serial job_id).
Proof.
  intros out. subst out. rewrite track_job_progress_unfold.
  destruct (while_true_reach ui net auth serial job_id (hostname_of st serial)
              fuel st) as (n & effs & Hn & -> & Hrq & Hw).
  rewrite added_after. split; [apply after_frame|]. split; [done|].
  by exists n.
Qed.

(** X2. No bound on the polling.  When every reply of the manager parses
    and carries a status that is not "FIN", and the log takes the line of
    each such poll, the tracker is still in its loop after any number of
    iterations, having issued one request in each: there is no count or
    deadline that ends it. *)
Theorem tracker_polls_while_job_unfinished
    (ui : Toolkit) (net : nat -> Request -> Reply) (auth : string * string)
    (serial : Text) (job_id : string) (st : App) (fuel : nat)
    (Hnet : forall n rq,
       keeps_polling ui job_id (hostname_of st serial) (net n rq)) :
  let out := track_job_progress ui net fuel auth serial job_id st in
  out.1 = Normal Unfinished /\
  clock out.2 = fuel + clock st /\
  length (requests (added st out.2)) = fuel.
Proof.
  intros out. subst out. rewrite track_job_progress_unfold.
  set (hostname := hostname_of st serial) in *.
  assert (Hloop : forall fuel st0,
    exists effs,
      while_true fuel (poll_job ui net auth serial job_id hostname) st0
      = (Normal Unfinished, after st0 fuel effs) /\
      length (requests effs) = fuel).
  { clear fuel. induction fuel as [| fuel IH]; intros st0.
    { exists []. by rewrite after_nothing. }
    rewrite while_true_step.
    destruct (Hnet (clock st0) (poll_request auth (pano_ip st0) serial job_id))
      as (code & root & status_node & Hr & Hstatus & Hfin & Hlog).
    rewrite (poll_job_observes ui net auth serial job_id hostname st0 code
               root status_node Hr Hstatus Hfin).
    cbv zeta.
    set (polled := after st0 1 _).
    assert (Hst : exists effs1,
      match observation job_id hostname root (text status_node) with
      | Some line =>
          if accepted ui line
          then (Normal Continue, after polled 0 [Logged line])
          else (Raised MarkupError, polled)
      | None => (Normal Continue, polled)
      end = (Normal Continue, after st0 1 effs1) /\
      length (requests effs1) = 1).
    { destruct (observation _ _ _ _) as [line|].
      - rewrite (Hlog line eq_refl). subst polled. rewrite after_after.
        by eexists.
      - by eexists. }
    destruct Hst as (effs1 & -> & Hlen1).
    destruct (IH (after st0 1 effs1)) as (effs & -> & Hlen).
    exists (effs1 ++ effs). split.
    - rewrite after_after. do 2 f_equal. lia.
    - rewrite requests_app, length_app. lia. }
  destruct (Hloop fuel st) as (effs & -> & Hlen).
  cbn [fst snd]. by rewrite added_after.
Qed.

(** X2 on a manager that reports the job active at 40 percent for ever. *)
Lemma tracker_polls_while_job_unfinished_witness :
  (forall n rq,
     keeps_polling plain_toolkit "42" (Some "fw-a")
       (net_const active_40 n rq)) /\
  (track_job_progress plain_toolkit (net_const active_40) 7 admin
     (Some "001") "42" two_devices).1 = Normal Unfinished /\
  clock (track_job_progress plain_toolkit (net_const active_40) 7 admin
           (Some "001") "42" two_devices).2 = 7 + clock two_devices.
Proof.
  assert (Hnet : forall n rq,
    keeps_polling plain_toolkit "42" (Some "fw-a")
      (net_const active_40 n rq)).
  { intros n rq. eexists _, _, (leaf "status" "ACT").
    split; [reflexivity|]. split; [reflexivity|]. split; [discriminate|].
    by intros line [= <-]. }
  split; [exact Hnet|].
  destruct (tracker_polls_while_job_unfinished plain_toolkit
              (net_const active_40) admin (Some "001") "42" two_devices 7
              Hnet) as (H1 & H2 & _).
  exact (conj H1 H2).
Defined.

(** X3. An active job without progress is silent.  When the status is
    "ACT" and the progress element is missing or has no text, the poll
    writes no line at all and the tracker goes on. *)
Theorem active_without_progress_is_silent
    (ui : Toolkit) (net : nat -> Request -> Reply) (auth : string * string)
    (serial : Text) (job_id : string) (hostname : Text) (st : App) (code : Z)
    (root status_node : Element)
    (Hr : net (clock st) (poll_request auth (pano_ip st) serial job_id)
          = Ok code (Document root))
    (Hstatus : find root path_job_status = Some status_node)
    (Hact : text status_node = Some "ACT")
    (Hnone : text_if_any (find root path_job_progress) = None) :
  poll_job ui net auth serial job_id hostname st =
  (Normal Continue,
   after st 1 [Slept 5;
               Requested (poll_request auth (pano_ip st) serial job_id);
               Replied (Ok code (Document root))]).
Proof.
  unfold poll_job, after, poll_request in *. run_monad.
  rewrite Hr. run_monad. rewrite Hstatus. run_monad.
  rewrite Hact, bool_decide_eq_false_2 by done.
  rewrite bool_decide_eq_true_2 by done. run_monad.
  unfold text_if_any in Hnone.
  destruct (find root path_job_progress) as [progress_node|]; run_monad.
  - destruct (truthy (text progress_node)) eqn:Ht; run_monad.
    + by destruct (text progress_node).
    + by rewrite <- !app_assoc.
  - by rewrite <- !app_assoc.
Qed.

(** X3 on a snapshot that is active and has an empty progress element. *)
Lemma active_without_progress_is_silent_witness :
  text_if_any
    (find (response "success"
             [node "result"
                [node "job" [leaf "status" "ACT"; bare "progress"]]])
          path_job_progress) = None /\
  poll_job plain_toolkit
    (net_const (job_reply [leaf "status" "ACT"; bare "progress"]))
    admin (Some "001") "42" (Some "fw-a") two_devices =
  (Normal Continue,
   after two_devices 1
     [Slept 5;
      Requested (poll_request admin (pano_ip two_devices) (Some "001") "42");
      Replied (Ok 200
                 (Document
                    (response "success"
                       [node "result"
                          [node "job"
                             [leaf "status" "ACT"; bare "progress"]]])))]).
Proof.
  split; [reflexivity|].
  exact (active_without_progress_is_silent plain_toolkit
           (net_const (job_reply [leaf "status" "ACT"; bare "progress"]))
           admin (Some "001") "42" (Some "fw-a") two_devices 200%Z _
           (leaf "status" "ACT") eq_refl eq_refl eq_refl eq_refl).
Defined.

(** ** The device list: [fetch_devices] *)

Lemma insert_by_prompt_perm (x : Selection) (l : list Selection) :
  insert_by_prompt x l ≡ₚ x :: l.
Proof.
  induction l as [| y l IH]; [done|]. cbn.
  destruct (String.leb (prompt x) (prompt y)); [done|].
  by rewrite IH, Permutation_swap.
Qed.

Lemma sort_by_prompt_perm (l : list Selection) : sort_by_prompt l ≡ₚ l.
Proof.
  induction l as [| x l IH]; [done|]. cbn.
  by rewrite insert_by_prompt_perm, IH.
Qed.

Lemma insert_by_prompt_sorted (x : Selection) (l : list Selection) :
  Sorted by_prompt l -> Sorted by_prompt (insert_by_prompt x l).
Proof.
  induction l as [| y l IH]; intros Hl; [by repeat constructor|]. cbn.
  destruct (String.leb (prompt x) (prompt y)) eqn:Hxy.
  - constructor; [done|]. constructor. unfold by_prompt, String.le.
    by rewrite Hxy.
  - apply Sorted_inv in Hl as [Hl Hhd]. constructor; [by apply IH|].
    assert (Hyx : by_prompt y x).
    { unfold by_prompt, String.le.
      destruct (String.leb_total (prompt x) (prompt y)) as [H | H];
        [congruence | by rewrite H]. }
    destruct l as [| z l]; cbn; [by constructor|].
    destruct (String.leb (prompt x) (prompt z)); constructor; [done|].
    by apply HdRel_inv in Hhd.
Qed.

Lemma sort_by_prompt_sorted (l : list Selection) :
  StronglySorted by_prompt (sort_by_prompt l).
Proof.
  apply Sorted_StronglySorted.
  { intros a b c Hab Hbc. unfold by_prompt in *. by etrans. }
  induction l as [| x l IH]; [constructor|].
  by apply insert_by_prompt_sorted.
Qed.

Lemma store_pairs_cons (t : gmap Text Text) (p : Text * Text)
      (pairs : list (Text * Text)) :
  store_pairs t (p :: pairs) = store_pairs (<[p.1 := p.2]> t) pairs.
Proof. reflexivity. Qed.

Lemma store_pairs_app (t : gmap Text Text) (l1 l2 : list (Text * Text)) :
  store_pairs t (l1 ++ l2) = store_pairs (store_pairs t l1) l2.
Proof. apply foldl_app. Qed.

(** What the table holds was in the table or is one of the pairs. *)
Lemma store_pairs_lookup_inv (t : gmap Text Text) (pairs : list (Text * Text))
      (s h : Text) :
  store_pairs t pairs !! s = Some h -> (s, h) ∈ pairs \/ t !! s = Some h.
Proof.
  revert t. induction pairs as [| [s' h'] pairs IH]; intros t Hl; [by right|].
  rewrite store_pairs_cons in Hl. destruct (IH _ Hl) as [Hin | Hins].
  - left. by right.
  - cbn in Hins. rewrite lookup_insert in Hins. case_decide.
    + injection Hins as <-. subst. left. by left.
    + by right.
Qed.

Lemma store_pairs_keeps (t : gmap Text Text) (pairs : list (Text * Text))
      (s : Text) :
  is_Some (t !! s) -> is_Some (store_pairs t pairs !! s).
Proof.
  revert t. induction pairs as [| [s' h'] pairs IH]; intros t Hs; [done|].
  rewrite store_pairs_cons. apply IH. cbn. rewrite lookup_insert.
  by case_decide.
Qed.

(** Every serial of the pairs is in the table. *)
Lemma store_pairs_lookup_in (t : gmap Text Text) (pairs : list (Text * Text))
      (s h : Text) :
  (s, h) ∈ pairs -> is_Some (store_pairs t pairs !! s).
Proof.
  revert t. induction pairs as [| p pairs IH]; intros t Hin;
    [by apply elem_of_nil in Hin|].
  rewrite store_pairs_cons. apply elem_of_cons in Hin as [<- | Hin].
  - apply store_pairs_keeps. cbn. by rewrite lookup_insert_eq.
  - by apply IH.
Qed.

(** A serial that is not among the pairs keeps its entry. *)
Lemma store_pairs_other (t : gmap Text Text) (pairs : list (Text * Text))
      (s : Text) :
  s ∉ pairs.*1 -> store_pairs t pairs !! s = t !! s.
Proof.
  revert t. induction pairs as [| [s' h'] pairs IH]; intros t Hnot; [done|].
  rewrite store_pairs_cons. cbn in Hnot. apply not_elem_of_cons in Hnot as [? ?].
  rewrite IH by done. cbn. by rewrite lookup_insert_ne.
Qed.

Lemma store_pairs_empty (pairs : list (Text * Text)) :
  store_pairs ∅ pairs = ∅ <-> pairs = [].
Proof.
  split; [|by intros ->]. destruct pairs as [| [s h] pairs]; [done|].
  intros Hempty. exfalso.
  destruct (store_pairs_lookup_in ∅ ((s, h) :: pairs) s h) as [x Hx]; [by left|].
  by rewrite Hempty, lookup_empty in Hx.
Qed.

(** An entry yields an option only when it yields a pair, and the value
    of the option is the serial of the pair. *)
Lemma entry_selection_pair (ui : Toolkit) (entry : Element) (sel : Selection) :
  entry_selection ui entry = Some sel ->
  exists h, entry_pair entry = Some (value sel, h).
Proof.
  unfold entry_selection, entry_pair.
  destruct (find entry path_hostname) as [hn|]; [|done].
  destruct (find entry path_serial) as [sn|]; [|done].
  destruct (selection_prompt ui _); [|done].
  intros [= <-]. by eexists.
Qed.

Lemma labels_parse_cons (ui : Toolkit) (entry : Element)
      (rest : list Element) :
  labels_parse ui (entry :: rest) <->
  (forall label, entry_label entry = Some label ->
                 is_Some (selection_prompt ui label)) /\
  labels_parse ui rest.
Proof. apply Forall_cons. Qed.

Lemma omap_cons_case {A B : Type} (f : A -> option B) (x : A) (l : list A) :
  omap f (x :: l) = match f x with
                    | Some y => y :: omap f l
                    | None => omap f l
                    end.
Proof. reflexivity. Qed.

(** The loop over the entries.  It stores the pair of every entry that
    has both children, up to and including the first one whose label does
    not parse; it ends normally with the options of all these entries when
    every label parses, and in [MarkupError] otherwise. *)
Lemma collect_options_run (ui : Toolkit) (entries : list Element)
      (options : list Selection) (st : App) :
  exists res stored,
    collect_options ui entries options st =
    (res, with_table (store_pairs (serial_to_hostname st) stored) st) /\
    stored `prefix_of` omap entry_pair entries /\
    (res = Normal (options ++ omap (entry_selection ui) entries) /\
     stored = omap entry_pair entries /\ labels_parse ui entries \/
     res = Raised MarkupError /\ stored <> [] /\ ~ labels_parse ui entries).
Proof.
  revert options st. induction entries as [| entry rest IH]; intros options st.
  { exists (Normal options), []. cbn. rewrite app_nil_r.
    split; [by destruct st|]. split; [done|]. left.
    split; [done|]. split; [done | constructor]. }
  rewrite (omap_cons_case entry_pair), (omap_cons_case (entry_selection ui)).
  cbn [collect_options].
  assert (Hskip : entry_label entry = None ->
    exists res stored,
      collect_options ui rest options st =
      (res, with_table (store_pairs (serial_to_hostname st) stored) st) /\
      stored `prefix_of` omap entry_pair rest /\
      (res = Normal (options ++ omap (entry_selection ui) rest) /\
       stored = omap entry_pair rest /\ labels_parse ui (entry :: rest) \/
       res = Raised MarkupError /\ stored <> [] /\
       ~ labels_parse ui (entry :: rest))).
  { intros Hnone.
    destruct (IH options st) as (res & stored & Hrun & Hpre & Hres).
    exists res, stored. split; [done|]. split; [done|].
    destruct Hres as [(? & ? & Hp) | (? & ? & Hp)]; [left | right].
    - split; [done|]. split; [done|]. apply labels_parse_cons.
      split; [|done]. intros label. by rewrite Hnone.
    - split; [done|]. split; [done|]. rewrite labels_parse_cons.
      by intros [_ ?]. }
  pose proof (labels_parse_cons ui entry rest) as Hcons.
  change (entry_pair entry)
    with (match find entry path_hostname, find entry path_serial with
          | Some hostname_node, Some serial_node =>
              Some (text serial_node, text hostname_node)
          | _, _ => None
          end).
  change (entry_selection ui entry)
    with (match find entry path_hostname, find entry path_serial with
          | Some hostname_node, Some serial_node =>
              (fun shown => {| prompt := shown; value := text serial_node |})
              <$> selection_prompt ui
                    (device_label (text hostname_node) (text serial_node))
          | _, _ => None
          end).
  unfold entry_label in Hskip, Hcons.
  destruct (find entry path_hostname) as [hostname_node|];
    [destruct (find entry path_serial) as [serial_node|]|]; try by apply Hskip.
  clear Hskip. run_monad.
  destruct (selection_prompt ui (device_label (text hostname_node)
                                   (text serial_node))) as [shown|] eqn:Hl;
    run_monad.
  - destruct (IH (options ++ [{| prompt := shown; value := text serial_node |}])
                (with_table (<[text serial_node := text hostname_node]>
                               (serial_to_hostname st)) st))
      as (res & stored & Hrun & Hpre & Hres).
    exists res, ((text serial_node, text hostname_node) :: stored).
    split; [exact Hrun|]. split; [by apply prefix_cons|].
    destruct Hres as [(-> & -> & Hp) | (-> & Hne & Hp)]; [left | right].
    + split; [by rewrite <- app_assoc|]. split; [done|].
      apply Hcons. split; [|done].
      intros label [= <-]. by rewrite Hl.
    + split; [done|]. split; [done|]. rewrite Hcons.
      by intros [_ ?].
  - exists (Raised MarkupError), [(text serial_node, text hostname_node)].
    split; [done|]. split; [apply prefix_cons, prefix_nil|]. right.
    split; [done|]. split; [done|]. rewrite Hcons.
    intros [Hlabel _]. destruct (Hlabel _ eq_refl) as [shown Hshown].
    congruence.
Qed.

(** A fetch whose reply is a device list: what it leaves, by whether
    every label parses. *)
Lemma fetch_devices_listing
    (ui : Toolkit) (net : nat -> Request -> Reply) (auth : string * string)
    (st : App) (code : Z) (root : Element) (status : string) :
  pano_ip st <> "" ->
  accepted ui (FetchingDevices (pano_ip st)) = true ->
  net (clock st) (fetch_request auth (pano_ip st)) = Ok code (Document root) ->
  attrib root !! "status" = Some status ->
  status <> "error" ->
  let entries := findall root path_device_entries in
  let replied := [Logged (FetchingDevices (pano_ip st));
                  Requested (fetch_request auth (pano_ip st));
                  Replied (Ok code (Document root))] in
  (labels_parse ui entries /\
   fetch_devices ui net auth st =
   (Normal tt,
    after (with_devices (sort_by_prompt (omap (entry_selection ui) entries)) []
             (with_table (store_pairs ∅ (omap entry_pair entries)) st)) 1
      (replied ++
       [Logged (FoundDevices (length (omap (entry_selection ui) entries)))])))
  \/
  (~ labels_parse ui entries /\
   exists stored,
     stored `prefix_of` omap entry_pair entries /\ stored <> [] /\
     fetch_devices ui net auth st =
     (Raised MarkupError,
      after (with_devices [] [] (with_table (store_pairs ∅ stored) st)) 1
        replied)).
Proof.
  intros Hip Hopen Hr Hstatus Hok entries replied. subst replied.
  unfold fetch_devices, fetch_request, after in *. run_monad.
  apply String.eqb_neq in Hip, Hok. rewrite Hip, Hopen. run_monad.
  rewrite Hr. run_monad. rewrite Hstatus. run_monad. rewrite Hok.
  match goal with
  | |- context [collect_options ui ?es ?os ?s] =>
      destruct (collect_options_run ui es os s)
        as (res & stored & -> & Hpre & Hres)
  end.
  fold entries in Hpre, Hres |- *.
  destruct Hres as [(-> & -> & Hp) | (-> & Hne & Hp)]; [left | right].
  - split; [done|]. run_monad. rewrite <- !app_assoc. cbn [app].
    by rewrite (Permutation_length (sort_by_prompt_perm _)).
  - split; [done|]. exists stored. split; [done|]. split; [done|].
    run_monad. by rewrite <- !app_assoc.
Qed.

(** C5. The extraction of the device list fails on a label that is not
    markup the device list takes: a reply of two complete entries, the
    hostname of the first holding a closing tag.  [Selection] parses the
    label "hostname (serial)" and raises [MarkupError], which no [except]
    clause of [fetch_devices] catches: the fetch ends there, after the
    first serial has been put into the lookup table.  No entry is kept in
    the list presented, though both have a hostname and a serial; the
    second one is not even looked at; and no result line is written. *)
Theorem label_with_markup_leaves_the_list_empty
    (ui : Toolkit)
    (Hlabel : selection_prompt ui (device_label (Some "fw[/b]") (Some "001"))
              = None) :
  let out := fetch_devices ui (net_const (Ok 200 (Document stray_tag_devices)))
               admin two_devices in
  omap entry_pair (findall stray_tag_devices path_device_entries)
  = [(Some "001", Some "fw[/b]"); (Some "002", Some "fw-b")] /\
  out.1 = Raised MarkupError /\
  device_list out.2 = [] /\
  serial_to_hostname out.2 !! Some "001" = Some (Some "fw[/b]") /\
  serial_to_hostname out.2 !! Some "002" = None /\
  output_log (trace out.2) = [FetchingDevices "10.0.0.1"].
Proof.
  intros out. split; [reflexivity|].
  assert (Hout : out =
    (Raised MarkupError,
     after (with_devices [] []
              (with_table (<[Some "001" := Some "fw[/b]"]> ∅) two_devices)) 1
       [Logged (FetchingDevices "10.0.0.1");
        Requested (fetch_request admin "10.0.0.1");
        Replied (Ok 200 (Document stray_tag_devices))])).
  { subst out. unfold fetch_devices. run_monad.
    change (accepted ui (FetchingDevices "10.0.0.1")) with true.
    cbn [String.eqb Ascii.eqb Bool.eqb]. run_monad.
    unfold net_const. run_monad. cbn [attrib stray_tag_devices response].
    rewrite lookup_singleton_eq. run_monad.
    change ("success" =? "error")%string with false. cbv iota.
    change (findall stray_tag_devices path_device_entries)
      with [node "entry" [leaf "hostname" "fw[/b]"; leaf "serial" "001"];
            node "entry" [leaf "hostname" "fw-b"; leaf "serial" "002"]].
    cbn [collect_options].
    change (find (node "entry" [leaf "hostname" "fw[/b]"; leaf "serial" "001"])
              path_hostname) with (Some (leaf "hostname" "fw[/b]")).
    change (find (node "entry" [leaf "hostname" "fw[/b]"; leaf "serial" "001"])
              path_serial) with (Some (leaf "serial" "001")).
    cbv iota beta. run_monad. cbn [text leaf]. rewrite Hlabel. reflexivity. }
  rewrite Hout. cbn [fst snd after with_io with_devices with_table
                     device_list serial_to_hostname trace two_devices].
  split; [done|]. split; [done|]. split; [apply lookup_insert_eq|].
  split; [|reflexivity].
  rewrite lookup_insert_ne by done. apply lookup_empty.
Qed.

(** C5 on the sample toolkit, which refuses that label. *)
Lemma label_with_markup_leaves_the_list_empty_witness :
  selection_prompt plain_toolkit (device_label (Some "fw[/b]") (Some "001"))
  = None /\
  (fetch_devices plain_toolkit
     (net_const (Ok 200 (Document stray_tag_devices))) admin two_devices).1
  = Raised MarkupError /\
  device_list
    (fetch_devices plain_toolkit
       (net_const (Ok 200 (Document stray_tag_devices))) admin two_devices).2
  = [].
Proof.
  split; [reflexivity|].
  destruct (label_with_markup_leaves_the_list_empty plain_toolkit eq_refl)
    as (_ & Hraised & Hlist & _).
  exact (conj Hraised Hlist).
Defined.

Lemma added_after_same_trace (st st' : App) (n : nat) (effs : list Effect) :
  trace st' = trace st -> added st (after st' n effs) = effs.
Proof.
  intros Htr. unfold added, after. cbn [trace with_io]. rewrite Htr.
  apply drop_app_length.
Qed.

(** X24. Extraction of the device list.  For a reply that parses and whose
    status attribute is not "error", when the log takes the opening line
    and the label of every entry parses, [fetch_devices] ends normally and
    the list it presents holds exactly the options of the entries that
    have both a hostname and a serial child (an entry missing either is
    dropped, one having both is kept), each under its parsed label, sorted
    by the text of that label as the list shows it. *)
Theorem device_list_extraction
    (ui : Toolkit) (net : nat -> Request -> Reply) (auth : string * string)
    (st : App) (code : Z) (root : Element) (status : string)
    (Hip : pano_ip st <> "")
    (Hopen : accepted ui (FetchingDevices (pano_ip st)) = true)
    (Hr : net (clock st) (fetch_request auth (pano_ip st))
          = Ok code (Document root))
    (Hstatus : attrib root !! "status" = Some status)
    (Hok : status <> "error")
    (Hlabels : labels_parse ui (findall root path_device_entries)) :
  let out := fetch_devices ui net auth st in
  let entries := findall root path_device_entries in
  out.1 = Normal tt /\
  device_list out.2 ≡ₚ omap (entry_selection ui) entries /\
  (forall sel,
     sel ∈ device_list out.2 <->
     exists entry hostname_node serial_node shown,
       entry ∈ entries /\
       find entry path_hostname = Some hostname_node /\
       find entry path_serial = Some serial_node /\
       selection_prompt ui
         (device_label (text hostname_node) (text serial_node)) = Some shown /\
       sel = {| prompt := shown; value := text serial_node |}) /\
  StronglySorted by_prompt (device_list out.2) /\
  output_log (added st out.2) =
    [FetchingDevices (pano_ip st);
     FoundDevices (length (omap (entry_selection ui) entries))].
Proof.
  intros out entries.
  destruct (fetch_devices_listing ui net auth st code root status Hip Hopen
              Hr Hstatus Hok) as [[_ Hrun] | [Hno _]]; [|done].
  fold out entries in Hrun. rewrite Hrun.
  cbn [fst snd device_list after with_io with_devices].
  split; [done|]. split; [apply sort_by_prompt_perm|].
  split; [|split; [apply sort_by_prompt_sorted|]].
  - intros sel. rewrite sort_by_prompt_perm, list_elem_of_omap.
    unfold entry_selection. split.
    + intros (entry & Hin & Hsel).
      destruct (find entry path_hostname) as [h|] eqn:Hh; [|done].
      destruct (find entry path_serial) as [s|] eqn:Hs; [|done].
      destruct (selection_prompt ui _) as [shown|] eqn:Hl; [|done].
      injection Hsel as <-. by exists entry, h, s, shown.
    + intros (entry & h & s & shown & Hin & Hh & Hs & Hl & ->).
      exists entry. by rewrite Hh, Hs, Hl.
  - by rewrite added_after_same_trace.
Qed.

(** X24 on the sample device list: the entry without serial is gone, the
    two others are in the order of their labels. *)
Lemma device_list_extraction_witness :
  pano_ip two_devices <> "" /\
  accepted plain_toolkit (FetchingDevices (pano_ip two_devices)) = true /\
  labels_parse plain_toolkit (findall connected_devices path_device_entries) /\
  (let out := fetch_devices plain_toolkit
                (net_const (Ok 200 (Document connected_devices)))
                admin two_devices in
   out.1 = Normal tt /\
   StronglySorted by_prompt (device_list out.2) /\
   device_list out.2
   = [ {| prompt := "fw-a (001)"; value := Some "001" |};
       {| prompt := "fw-b (002)"; value := Some "002" |} ]).
Proof.
  assert (Hlabels : labels_parse plain_toolkit
                      (findall connected_devices path_device_entries)).
  { repeat constructor; intros label [= <-]; by eexists. }
  split; [done|]. split; [reflexivity|]. split; [exact Hlabels|].
  destruct (device_list_extraction plain_toolkit
              (net_const (Ok 200 (Document connected_devices))) admin
              two_devices 200%Z connected_devices "success"
              ltac:(done) eq_refl eq_refl eq_refl ltac:(done) Hlabels)
    as (Hnormal & _ & _ & Hsorted & _).
  split; [exact Hnormal|]. split; [exact Hsorted|]. reflexivity.
Defined.

(** The order of the labels is not the order of the hostnames when a
    hostname continues another one with a space: "a !" sorts before "a"
    by label, and after it by hostname. *)
Lemma label_order_is_not_hostname_order :
  String.leb (device_label (Some "a !") (Some "2"))
             (device_label (Some "a") (Some "1")) = true /\
  String.leb "a !" "a" = false.
Proof. vm_compute. split; reflexivity. Qed.

(** ** Error envelopes *)

Lemma version_check_catalog_entry :
  catalog_lookup "Software Version Check" URL_CHOICES =
  Some {| cmd := [Lit "<request><system><software><check></check></software></system></request>"];
          generates_job := None |}.
Proof. reflexivity. Qed.

(** C3 (as the code has it). Classification of an error envelope.  In
    [fetch_devices], once the opening line is written, a reply whose
    status attribute is "error" is reported as an API error with
    "Unknown API error" when there is no [msg] element below the root, and
    with the text of the first [msg] element when that element has a
    text; when that text holds "authentication failed" in any letter
    case, the dedicated authentication line is written instead.  In
    [run_version_check], a reply whose status attribute is "error" and
    that has a [msg] element is reported as an API error with the text of
    that element, whatever the text says.  In both, the line of the API
    error is written when the log takes it; when the log refuses it, the
    coroutine ends in [MarkupError] without a line.
    [run_execute_command] does not read the status attribute: for a
    command of the catalog that produces no job, once the device is
    announced, every reply that [requests] accepts is reported as a
    success. *)
Theorem error_envelope_classification
    (ui : Toolkit) (net : nat -> Request -> Reply) (auth : string * string)
    (st : App) (code : Z) (root : Element)
    (Hip : pano_ip st <> "")
    (Hopen : accepted ui (FetchingDevices (pano_ip st)) = true)
    (Hr : net (clock st) (fetch_request auth (pano_ip st))
          = Ok code (Document root))
    (Herr : attrib root !! "status" = Some "error") :
  let replied :=
    [Logged (FetchingDevices (pano_ip st));
     Requested (fetch_request auth (pano_ip st));
     Replied (Ok code (Document root))] in
  let reported line :=
    (Normal tt, after (cleared st) 1 (replied ++ [Logged line])) in
  let refused := (Raised MarkupError, after (cleared st) 1 replied) in
  (find root path_msg = None ->
   fetch_devices ui net auth st
   = reported (ApiError (Some "Unknown API error")))
  /\
  (forall msg_node m,
     find root path_msg = Some msg_node -> text msg_node = Some m ->
     fetch_devices ui net auth st =
     if contains "authentication failed" (lower m)
     then reported ApiErrorAuthFailed
     else if accepted ui (ApiError (Some m)) then reported (ApiError (Some m))
          else refused)
  /\
  (forall st' target rest code' root' msg_node,
     selected st' = target :: rest ->
     accepted ui (RunningVersionCheck (hostname_of st' target)) = true ->
     net (clock st') (version_check_request auth (pano_ip st') target)
     = Ok code' (Document root') ->
     attrib root' !! "status" = Some "error" ->
     find root' path_msg = Some msg_node ->
     let replied' :=
       [Logged (RunningVersionCheck (hostname_of st' target));
        Requested (version_check_request auth (pano_ip st') target);
        Replied (Ok code' (Document root'))] in
     run_version_check ui net auth st' =
     if accepted ui (ApiError (text msg_node))
     then (Normal tt,
           after st' 1 (replied' ++ [Logged (ApiError (text msg_node))]))
     else (Raised MarkupError, after st' 1 replied'))
  /\
  (forall command_name command_info version ip serial st' code' body,
     catalog_lookup command_name URL_CHOICES = Some command_info ->
     produces_job command_info = false ->
     accepted ui (Running command_name (hostname_of st' serial)) = true ->
     exists xml,
       render_command command_info version = Some xml /\
       (net (clock st') (device_request auth ip xml serial) = Ok code' body ->
        execute_on_device ui net auth command_name command_info version ip
          serial st'
        = (Normal tt,
           after st' 1
             [Logged (Running command_name (hostname_of st' serial));
              Requested (device_request auth ip xml serial);
              Replied (Ok code' body);
              Logged (Success code')]))).
Proof.
  intros replied reported refused. subst replied reported refused.
  assert (Hfetch : forall error_msg m,
    error_msg = match find root path_msg with
                | Some msg_node => text msg_node
                | None => Some "Unknown API error"
                end ->
    error_msg = Some m ->
    fetch_devices ui net auth st =
    if contains "authentication failed" (lower m)
    then (Normal tt,
          after (cleared st) 1
            ([Logged (FetchingDevices (pano_ip st));
              Requested (fetch_request auth (pano_ip st));
              Replied (Ok code (Document root))]
             ++ [Logged ApiErrorAuthFailed]))
    else if accepted ui (ApiError (Some m))
         then (Normal tt,
               after (cleared st) 1
                 ([Logged (FetchingDevices (pano_ip st));
                   Requested (fetch_request auth (pano_ip st));
                   Replied (Ok code (Document root))]
                  ++ [Logged (ApiError (Some m))]))
         else (Raised MarkupError,
               after (cleared st) 1
                 [Logged (FetchingDevices (pano_ip st));
                  Requested (fetch_request auth (pano_ip st));
                  Replied (Ok code (Document root))])).
  { intros error_msg m Hmsg Hm.
    unfold fetch_devices, fetch_request, after, cleared in *. run_monad.
    apply String.eqb_neq in Hip. rewrite Hip, Hopen. run_monad.
    rewrite Hr. run_monad. rewrite Herr. run_monad.
    change ("error" =? "error")%string with true. cbv iota.
    rewrite <- Hmsg, Hm. cbn [fmap option_fmap option_map]. run_monad.
    destruct (contains "authentication failed" (lower m)); run_monad;
      [by rewrite <- !app_assoc|].
    destruct (accepted ui (ApiError (Some m))); run_monad;
      by rewrite <- !app_assoc. }
  split; [|split; [|split]].
  - intros Hnone.
    assert (Hmsg : Some "Unknown API error" =
                   match find root path_msg with
                   | Some msg_node => text msg_node
                   | None => Some "Unknown API error"
                   end) by (by rewrite Hnone).
    rewrite (Hfetch _ "Unknown API error" Hmsg eq_refl).
    rewrite accepted_unknown_api_error. reflexivity.
  - intros msg_node m Hnode Hm. apply (Hfetch (Some m)); [|done].
    by rewrite Hnode.
  - intros st' target rest code' root' msg_node Hsel Hopen' Hr' Herr' Hnode
      replied'. subst replied'.
    unfold run_version_check, after, hostname_of in *. run_monad.
    rewrite Hsel. run_monad. rewrite Hopen'. run_monad.
    rewrite version_check_catalog_entry. run_monad.
    match goal with
    | |- context [net ?c ?rq] =>
        change rq with (version_check_request auth (pano_ip st') target)
    end.
    rewrite Hr'. run_monad. rewrite Herr'. run_monad.
    change ("error" =? "error")%string with true. cbv iota.
    rewrite Hnode. run_monad.
    destruct (accepted ui (ApiError _)); run_monad; by rewrite <- !app_assoc.
  - intros command_name command_info version ip serial st' code' body
      Hinfo Hjob Hrun.
    destruct (catalog_commands_render command_name command_info version Hinfo)
      as [xml Hxml].
    exists xml. split; [done|]. intros Hr'.
    unfold execute_on_device, after, hostname_of, device_request in *.
    run_monad. rewrite Hxml. run_monad. rewrite Hrun. run_monad.
    rewrite Hr', Hjob. run_monad.
    by rewrite <- !app_assoc.
Qed.

(** C3 on the sample envelope: the device-list fetch writes the
    authentication line. *)
Lemma error_envelope_classification_witness :
  pano_ip two_devices <> "" /\
  accepted plain_toolkit (FetchingDevices (pano_ip two_devices)) = true /\
  fetch_devices plain_toolkit
    (net_const (Ok 200 (Document authentication_failed))) admin two_devices =
  (Normal tt,
   after (cleared two_devices) 1
     [Logged (FetchingDevices "10.0.0.1");
      Requested (fetch_request admin "10.0.0.1");
      Replied (Ok 200 (Document authentication_failed));
      Logged ApiErrorAuthFailed]).
Proof.
  split; [done|]. split; [reflexivity|].
  exact (proj1 (proj2 (error_envelope_classification plain_toolkit
           (net_const (Ok 200 (Document authentication_failed))) admin
           two_devices 200%Z authentication_failed
           ltac:(done) eq_refl eq_refl eq_refl))
         (leaf "msg" "Authentication failed") "Authentication failed"
         eq_refl eq_refl).
Defined.

(** C3 (as stated) fails outside [fetch_devices]: the same envelope, whose
    message holds "authentication failed", is reported by the version
    check as a plain API error, and by "Reboot" as a success for each
    device. *)
Lemma authentication_failure_is_generic_outside_fetch :
  contains "authentication failed" (lower "Authentication failed") = true /\
  (forall ui,
     output_log (trace (run_version_check ui
                          (net_const (Ok 200 (Document authentication_failed)))
                          admin two_devices).2)
     = [RunningVersionCheck (Some "fw-a");
        ApiError (Some "Authentication failed")]) /\
  (forall ui,
     output_log (trace (run_execute_command ui
                          (net_const (Ok 200 (Document authentication_failed)))
                          admin "Reboot" None two_devices).2)
     = [Starting "Reboot" 2;
        Running "Reboot" (Some "fw-a"); Success 200;
        Running "Reboot" (Some "fw-b"); Success 200]).
Proof.
  split; [reflexivity|]. split; intros ui; vm_compute; reflexivity.
Qed.

(** ** More on the device list *)

Lemma fetch_devices_no_address
    (ui : Toolkit) (net : nat -> Request -> Reply) (auth : string * string)
    (st : App) :
  pano_ip st = "" ->
  fetch_devices ui net auth st
  = (Normal tt, after (cleared st) 0 [Logged ErrPanoIpRequired]).
Proof.
  intros Hip. unfold fetch_devices, after, cleared. run_monad.
  rewrite Hip. cbn [String.eqb]. by run_monad.
Qed.

(** When the log refuses the opening line, the fetch ends there. *)
Lemma fetch_devices_refused
    (ui : Toolkit) (net : nat -> Request -> Reply) (auth : string * string)
    (st : App) :
  pano_ip st <> "" ->
  accepted ui (FetchingDevices (pano_ip st)) = false ->
  fetch_devices ui net auth st = (Raised MarkupError, cleared st).
Proof.
  intros Hip Hopen. unfold fetch_devices, cleared. run_monad.
  apply String.eqb_neq in Hip. by rewrite Hip, Hopen.
Qed.

(** A fetch whose reply is no device list writes lines only after the
    reply, and leaves the list and the table cleared. *)
Lemma fetch_devices_without_listing
    (ui : Toolkit) (net : nat -> Request -> Reply) (auth : string * string)
    (st : App) :
  pano_ip st <> "" ->
  accepted ui (FetchingDevices (pano_ip st)) = true ->
  let r := net (clock st) (fetch_request auth (pano_ip st)) in
  (forall code root status,
     r = Ok code (Document root) -> attrib root !! "status" = Some status ->
     status = "error") ->
  exists res lines,
    fetch_devices ui net auth st =
    (res, after (cleared st) 1
            ([Logged (FetchingDevices (pano_ip st));
              Requested (fetch_request auth (pano_ip st)); Replied r]
             ++ (Logged <$> lines))).
Proof.
  intros Hip Hopen r Herr. subst r.
  unfold fetch_devices, fetch_request, after, cleared in *. run_monad.
  apply String.eqb_neq in Hip. rewrite Hip, Hopen. run_monad.
  destruct (net _ _) as [[c d | d] | code [| root]]; run_monad.
  - destruct (Z.eqb c 403); run_monad; lines_case.
  - lines_case.
  - lines_case.
  - destruct (attrib root !! "status") as [status|] eqn:Hstatus; run_monad;
      [| lines_case].
    rewrite (Herr code root status eq_refl Hstatus).
    change ("error" =? "error")%string with true. cbv iota.
    destruct (lower <$> _) as [lowered|]; run_monad; [| lines_case].
    destruct (contains "authentication failed" lowered); run_monad;
      lines_case.
Qed.

(** X10. Without an address, the fetch still clears.  With an empty
    address field, [fetch_devices] writes the "IP is required" error and
    issues no request, but the device list, the selection and the lookup
    table have already been emptied. *)
Theorem fetch_without_address_clears_the_list
    (ui : Toolkit) (net : nat -> Request -> Reply) (auth : string * string)
    (st : App)
    (Hip : pano_ip st = "") :
  fetch_devices ui net auth st
  = (Normal tt, after (cleared st) 0 [Logged ErrPanoIpRequired]).
Proof.
  unfold fetch_devices, after, cleared. run_monad.
  rewrite Hip. cbn [String.eqb]. by run_monad.
Qed.

(** X10 on a state with two devices listed and the address erased. *)
Lemma fetch_without_address_clears_the_list_witness :
  pano_ip no_address = "" /\
  device_list no_address <> [] /\
  fetch_devices plain_toolkit net_ok admin no_address
  = (Normal tt, after (cleared no_address) 0 [Logged ErrPanoIpRequired]) /\
  device_list (cleared no_address) = [].
Proof.
  split; [reflexivity|]. split; [discriminate|].
  split; [|reflexivity].
  exact (fetch_without_address_clears_the_list plain_toolkit net_ok admin
           no_address eq_refl).
Defined.

(** X11. A failed fetch leaves no devices.  When the opening line is
    written and the request of [fetch_devices] fails in [requests], there
    is one error line for it (the "403 Forbidden" line for an HTTP error
    with status 403, the HTTP error line for any other HTTP error, the
    connection error line otherwise): the coroutine ends normally with
    that line when the log takes it, and in [MarkupError] without a line
    when the log refuses it.  Either way the device list, the selection
    and the lookup table stay empty: the devices of an earlier fetch are
    gone. *)
Theorem failed_fetch_leaves_no_devices
    (ui : Toolkit) (net : nat -> Request -> Reply) (auth : string * string)
    (st : App) (e : RequestException)
    (Hip : pano_ip st <> "")
    (Hopen : accepted ui (FetchingDevices (pano_ip st)) = true)
    (Hr : net (clock st) (fetch_request auth (pano_ip st)) = Failed e) :
  let out := fetch_devices ui net auth st in
  let replied := [Logged (FetchingDevices (pano_ip st));
                  Requested (fetch_request auth (pano_ip st));
                  Replied (Failed e)] in
  (exists line,
     out = (if accepted ui line
            then (Normal tt, after (cleared st) 1 (replied ++ [Logged line]))
            else (Raised MarkupError, after (cleared st) 1 replied)) /\
     (forall d, e = HTTPError 403 d -> line = ErrForbidden) /\
     (forall c d, e = HTTPError c d -> c <> 403%Z -> line = ErrHttp d) /\
     (forall d, e = OtherRequestException d -> line = ErrConnection d)) /\
  device_list out.2 = [] /\ selected out.2 = [] /\
  serial_to_hostname out.2 = ∅.
Proof.
  intros out replied. subst out replied.
  unfold fetch_devices, fetch_request, after, cleared in *. run_monad.
  apply String.eqb_neq in Hip. rewrite Hip, Hopen. run_monad. rewrite Hr.
  destruct e as [c d | d]; [destruct (Z.eqb c 403) eqn:Hc|]; run_monad.
  - split; [|done]. exists ErrForbidden. rewrite accepted_ErrForbidden.
    rewrite <- !app_assoc. split; [done|].
    apply Z.eqb_eq in Hc as ->. split; [done|]. split; [|done].
    by intros c d' [= <- _] ?.
  - destruct (accepted ui (ErrHttp d)) eqn:Hline; run_monad;
      (split; [|done]); exists (ErrHttp d); rewrite Hline;
      rewrite <- ?app_assoc; (split; [done|]);
      apply Z.eqb_neq in Hc; (split; [|split; [|done]]);
      [by intros d' [= -> _] | by intros c' d' [= _ <-]
      | by intros d' [= -> _] | by intros c' d' [= _ <-]].
  - destruct (accepted ui (ErrConnection d)) eqn:Hline; run_monad;
      (split; [|done]); exists (ErrConnection d); rewrite Hline;
      rewrite <- ?app_assoc; (split; [done|]);
      (split; [done|]); (split; [done|]); by intros d' [= <-].
Qed.

(** X11 on a state with two devices listed and a request that times
    out. *)
Lemma failed_fetch_leaves_no_devices_witness :
  pano_ip two_devices <> "" /\
  accepted plain_toolkit (FetchingDevices (pano_ip two_devices)) = true /\
  device_list two_devices <> [] /\
  fetch_devices plain_toolkit (net_const timed_out) admin two_devices =
  (Normal tt,
   after (cleared two_devices) 1
     [Logged (FetchingDevices "10.0.0.1");
      Requested (fetch_request admin "10.0.0.1");
      Replied timed_out;
      Logged (ErrConnection "timed out")]).
Proof.
  split; [done|]. split; [reflexivity|]. split; [discriminate|].
  destruct (failed_fetch_leaves_no_devices plain_toolkit
              (net_const timed_out) admin two_devices
              (OtherRequestException "timed out")
              ltac:(done) eq_refl eq_refl)
    as ((line & Hrun & _ & _ & Hline) & _).
  rewrite (Hline "timed out" eq_refl) in Hrun. exact Hrun.
Defined.

(** X12. A fetch fills the lookup table from the reply alone.  For a
    reply that parses and whose status is not "error": every entry of the
    table comes from an entry element of this reply that has both a
    hostname and a serial (nothing of an earlier fetch survives), and
    every device of the presented list has its serial in the table.  The
    fetch ends normally exactly when the log takes the opening line and
    the label of every entry parses; then, when several entry elements
    carry the same serial, the hostname of the last one is the one
    kept. *)
Theorem fetch_fills_the_lookup_table
    (ui : Toolkit) (net : nat -> Request -> Reply) (auth : string * string)
    (st : App) (code : Z) (root : Element) (status : string)
    (Hip : pano_ip st <> "")
    (Hr : net (clock st) (fetch_request auth (pano_ip st))
          = Ok code (Document root))
    (Hstatus : attrib root !! "status" = Some status)
    (Hok : status <> "error") :
  let out := fetch_devices ui net auth st in
  let entries := findall root path_device_entries in
  (forall s h,
     serial_to_hostname out.2 !! s = Some h ->
     exists entry, entry ∈ entries /\ entry_pair entry = Some (s, h)) /\
  (forall sel,
     sel ∈ device_list out.2 ->
     is_Some (serial_to_hostname out.2 !! value sel)) /\
  (out.1 = Normal tt <->
   accepted ui (FetchingDevices (pano_ip st)) = true /\
   labels_parse ui entries) /\
  (out.1 = Normal tt ->
   forall before entry later s h,
     entries = before ++ entry :: later ->
     entry_pair entry = Some (s, h) ->
     (forall e h', e ∈ later -> entry_pair e <> Some (s, h')) ->
     serial_to_hostname out.2 !! s = Some h).
Proof.
  intros out entries. subst out entries.
  destruct (accepted ui (FetchingDevices (pano_ip st))) eqn:Hopen.
  2:{ rewrite (fetch_devices_refused ui net auth st Hip Hopen).
      cbn [fst snd cleared with_table with_devices serial_to_hostname
           device_list].
      split; [intros s h; by rewrite lookup_empty|].
      split; [intros sel Hin; by apply elem_of_nil in Hin|].
      split; [|done]. split; [done | by intros [? _]]. }
  destruct (fetch_devices_listing ui net auth st code root status Hip Hopen
              Hr Hstatus Hok)
    as [[Hlabels ->] | [Hlabels (stored & [rest Hpre] & Hne & ->)]];
    cbn [fst snd after with_io with_devices with_table serial_to_hostname
         device_list].
  - split; [|split; [|split]].
    + intros s h Hl. apply store_pairs_lookup_inv in Hl as [Hin | Hl];
        [|by rewrite lookup_empty in Hl].
      by apply list_elem_of_omap in Hin.
    + intros sel Hin. rewrite sort_by_prompt_perm in Hin.
      apply list_elem_of_omap in Hin as (entry & Hin & Hsel).
      destruct (entry_selection_pair ui entry sel Hsel) as [h Hp].
      apply (store_pairs_lookup_in _ _ _ h), list_elem_of_omap. eauto.
    + done.
    + intros _ before entry later s h -> Hp Hlater.
      rewrite omap_app. cbn. rewrite Hp, store_pairs_app, store_pairs_cons.
      rewrite store_pairs_other; [cbn; by rewrite lookup_insert_eq|].
      intros Hin. apply list_elem_of_fmap in Hin as ([s' h'] & -> & Hin).
      apply list_elem_of_omap in Hin as (e & He & Hpe).
      by apply (Hlater e h').
  - split; [|split; [|split]].
    + intros s h Hl. apply store_pairs_lookup_inv in Hl as [Hin | Hl];
        [|by rewrite lookup_empty in Hl].
      assert (Hin' : (s, h) ∈ omap entry_pair
                                (findall root path_device_entries))
        by (rewrite Hpre; apply elem_of_app; by left).
      by apply list_elem_of_omap in Hin'.
    + intros sel Hin. by apply elem_of_nil in Hin.
    + split; [done | by intros [_ ?]].
    + done.
Qed.

(** X12 on a reply that lists the serial 001 twice: the table keeps the
    hostname of the second entry. *)
Lemma fetch_fills_the_lookup_table_witness :
  pano_ip two_devices <> "" /\
  attrib renamed_device !! "status" = Some "success" /\
  (fetch_devices plain_toolkit
     (net_const (Ok 200 (Document renamed_device))) admin two_devices).1
  = Normal tt /\
  serial_to_hostname
    (fetch_devices plain_toolkit
       (net_const (Ok 200 (Document renamed_device))) admin
       two_devices).2 !! Some "001" = Some (Some "new-name").
Proof.
  split; [done|]. split; [reflexivity|]. split; [reflexivity|].
  refine (proj2 (proj2 (proj2 (fetch_fills_the_lookup_table plain_toolkit
            (net_const (Ok 200 (Document renamed_device))) admin two_devices
            200%Z renamed_device "success" ltac:(done) eq_refl eq_refl
            ltac:(done))))
          eq_refl
          [node "entry" [leaf "hostname" "old-name"; leaf "serial" "001"]]
          (node "entry" [leaf "hostname" "new-name"; leaf "serial" "001"])
          [] (Some "001") (Some "new-name") eq_refl eq_refl _).
  intros e h' Hin. by apply elem_of_nil in Hin.
Defined.

(** When every label parses, the entries yield no option exactly when
    they yield no pair. *)
Lemma entry_selections_none (ui : Toolkit) (entries : list Element) :
  labels_parse ui entries ->
  omap (entry_selection ui) entries = [] <-> omap entry_pair entries = [].
Proof.
  induction entries as [| entry entries IH]; intros Hlabels; [done|].
  apply labels_parse_cons in Hlabels as [Hlabel Hlabels].
  rewrite (omap_cons_case entry_pair), (omap_cons_case (entry_selection ui)).
  change (entry_pair entry)
    with (match find entry path_hostname, find entry path_serial with
          | Some hostname_node, Some serial_node =>
              Some (text serial_node, text hostname_node)
          | _, _ => None
          end).
  change (entry_selection ui entry)
    with (match find entry path_hostname, find entry path_serial with
          | Some hostname_node, Some serial_node =>
              (fun shown => {| prompt := shown; value := text serial_node |})
              <$> selection_prompt ui
                    (device_label (text hostname_node) (text serial_node))
          | _, _ => None
          end).
  unfold entry_label in Hlabel.
  destruct (find entry path_hostname) as [hn|]; [|by apply IH].
  destruct (find entry path_serial) as [sn|]; [|by apply IH].
  by destruct (Hlabel _ eq_refl) as [shown ->].
Qed.

(** X13. What every fetch leaves behind.  However [fetch_devices] ends
    (normally or with an exception), the selection is empty, every device
    of the presented list has its serial in the lookup table, an empty
    table goes with an empty list, and an empty list goes with an empty
    table unless the fetch has ended in [MarkupError]; at most one request
    has been issued, the request lists the connected devices and names no
    target, and no worker has been started. *)
Theorem fetch_keeps_listed_devices_in_the_table
    (ui : Toolkit) (net : nat -> Request -> Reply) (auth : string * string)
    (st : App) :
  let out := fetch_devices ui net auth st in
  selected out.2 = [] /\
  (serial_to_hostname out.2 = ∅ -> device_list out.2 = []) /\
  (device_list out.2 = [] ->
   serial_to_hostname out.2 = ∅ \/ out.1 = Raised MarkupError) /\
  (forall sel,
     sel ∈ device_list out.2 ->
     is_Some (serial_to_hostname out.2 !! value sel)) /\
  Forall (fun rq => rq = fetch_request auth (pano_ip st))
         (requests (added st out.2)) /\
  length (requests (added st out.2)) <= 1 /\
  workers (added st out.2) = [].
Proof.
  intros out.
  assert (Hcleared : forall res n effs,
    out = (res, after (cleared st) n effs) ->
    Forall (fun rq => rq = fetch_request auth (pano_ip st)) (requests effs) ->
    length (requests effs) <= 1 ->
    workers effs = [] ->
    selected out.2 = [] /\
    (serial_to_hostname out.2 = ∅ -> device_list out.2 = []) /\
    (device_list out.2 = [] ->
     serial_to_hostname out.2 = ∅ \/ out.1 = Raised MarkupError) /\
    (forall sel,
       sel ∈ device_list out.2 ->
       is_Some (serial_to_hostname out.2 !! value sel)) /\
    Forall (fun rq => rq = fetch_request auth (pano_ip st))
           (requests (added st out.2)) /\
    length (requests (added st out.2)) <= 1 /\
    workers (added st out.2) = []).
  { intros res n effs -> Hrq Hlen Hw. cbn [snd].
    rewrite (added_after_same_trace st (cleared st)) by done.
    split; [done|]. split; [done|]. split; [by left|]. split; [|done].
    intros sel Hin. by apply elem_of_nil in Hin. }
  destruct (decide (pano_ip st = "")) as [Hip | Hip].
  { apply (Hcleared (Normal tt) 0 [Logged ErrPanoIpRequired]); auto.
    by apply fetch_devices_no_address. }
  destruct (accepted ui (FetchingDevices (pano_ip st))) eqn:Hopen.
  2:{ apply (Hcleared (Raised MarkupError) 0 []); cbn; auto.
      subst out. by rewrite after_nothing, fetch_devices_refused. }
  assert (Hother :
    (forall code root status,
       net (clock st) (fetch_request auth (pano_ip st))
       = Ok code (Document root) ->
       attrib root !! "status" = Some status -> status = "error") ->
    selected out.2 = [] /\
    (serial_to_hostname out.2 = ∅ -> device_list out.2 = []) /\
    (device_list out.2 = [] ->
     serial_to_hostname out.2 = ∅ \/ out.1 = Raised MarkupError) /\
    (forall sel,
       sel ∈ device_list out.2 ->
       is_Some (serial_to_hostname out.2 !! value sel)) /\
    Forall (fun rq => rq = fetch_request auth (pano_ip st))
           (requests (added st out.2)) /\
    length (requests (added st out.2)) <= 1 /\
    workers (added st out.2) = []).
  { intros Herr.
    destruct (fetch_devices_without_listing ui net auth st Hip Hopen Herr)
      as (res & lines & Hrun).
    eapply Hcleared; [exact Hrun | | |];
      rewrite ?requests_app, ?workers_app, ?requests_logged, ?workers_logged;
      cbn; auto. }
  destruct (net (clock st) (fetch_request auth (pano_ip st)))
    as [e | code [| root]] eqn:Hr; try (apply Hother; intros; discriminate).
  destruct (attrib root !! "status") as [status|] eqn:Hstatus.
  2:{ apply Hother. intros ? ? ? [= _ <-]. congruence. }
  destruct (decide (status = "error")) as [-> | Hok].
  { apply Hother. intros ? ? ? [= _ <-]. congruence. }
  clear Hother.
  destruct (fetch_devices_listing ui net auth st code root status Hip Hopen
              Hr Hstatus Hok)
    as [[Hlabels Hrun] | [Hlabels (stored & [rest Hpre] & Hne & Hrun)]];
    fold out in Hrun; rewrite Hrun; cbn [fst snd];
    rewrite added_after_same_trace by done;
    cbn [after with_io with_devices with_table selected serial_to_hostname
         device_list].
  - split; [done|].
    pose proof (entry_selections_none ui _ Hlabels) as Hnone.
    split; [|split; [|split; [|cbn; auto]]].
    + rewrite store_pairs_empty, <- Hnone. intros Hnil.
      apply Permutation_nil_r. by rewrite <- Hnil, sort_by_prompt_perm.
    + intros Hnil. left. rewrite store_pairs_empty, <- Hnone.
      apply Permutation_nil_r. by rewrite <- Hnil, sort_by_prompt_perm.
    + intros sel Hin. rewrite sort_by_prompt_perm in Hin.
      apply list_elem_of_omap in Hin as (entry & Hin & Hsel).
      destruct (entry_selection_pair ui entry sel Hsel) as [h Hp].
      apply (store_pairs_lookup_in _ _ _ h), list_elem_of_omap. eauto.
  - split; [done|]. split; [done|]. split; [by right|].
    split; [|cbn; auto]. intros sel Hin. by apply elem_of_nil in Hin.
Qed.

(** X14. Replies the fetch has no line for.  When the request succeeds
    but the body is not well-formed XML, or the root has no status
    attribute, or the status is "error" and the first [msg] element has no
    text, [fetch_devices] ends with an exception ([ParseError], [KeyError],
    [AttributeError], in that order) right after the reply: no result or
    error line is written, and the list and the table stay empty.  (The
    request is issued once the opening line is written; when the log
    refuses that line, the fetch ends in [MarkupError] before it.) *)
Theorem fetch_raises_on_incomplete_reply
    (ui : Toolkit) (net : nat -> Request -> Reply) (auth : string * string)
    (st : App) (code : Z) (body : Body) (e : Exn)
    (Hip : pano_ip st <> "")
    (Hr : net (clock st) (fetch_request auth (pano_ip st)) = Ok code body)
    (Hcase :
       (body = Malformed /\ e = ParseError) \/
       (exists root,
          body = Document root /\ attrib root !! "status" = None /\
          e = KeyError) \/
       (exists root msg_node,
          body = Document root /\ attrib root !! "status" = Some "error" /\
          find root path_msg = Some msg_node /\ text msg_node = None /\
          e = AttributeError)) :
  fetch_devices ui net auth st =
  if accepted ui (FetchingDevices (pano_ip st))
  then (Raised e,
        after (cleared st) 1
          [Logged (FetchingDevices (pano_ip st));
           Requested (fetch_request auth (pano_ip st));
           Replied (Ok code body)])
  else (Raised MarkupError, cleared st).
Proof.
  destruct (accepted ui (FetchingDevices (pano_ip st))) eqn:Hopen;
    [|by apply fetch_devices_refused].
  unfold fetch_devices, fetch_request, after, cleared in *. run_monad.
  apply String.eqb_neq in Hip. rewrite Hip, Hopen. run_monad. rewrite Hr.
  destruct Hcase as [[-> ->] | [(root & -> & Hs & ->)
                               | (root & msg & -> & Hs & Hm & Ht & ->)]];
    run_monad; rewrite ?Hs; run_monad.
  - by rewrite <- !app_assoc.
  - by rewrite <- !app_assoc.
  - change ("error" =? "error")%string with true. cbv iota.
    rewrite Hm, Ht. cbn [fmap option_fmap option_map]. run_monad.
    by rewrite <- !app_assoc.
Qed.

(** X14 on an error envelope with an empty [msg] element. *)
Lemma fetch_raises_on_incomplete_reply_witness :
  pano_ip two_devices <> "" /\
  find error_with_empty_msg path_msg = Some (bare "msg") /\
  fetch_devices plain_toolkit
    (net_const (Ok 200 (Document error_with_empty_msg))) admin two_devices =
  (Raised AttributeError,
   after (cleared two_devices) 1
     [Logged (FetchingDevices (pano_ip two_devices));
      Requested (fetch_request admin (pano_ip two_devices));
      Replied (Ok 200 (Document error_with_empty_msg))]).
Proof.
  split; [done|]. split; [reflexivity|].
  refine (fetch_raises_on_incomplete_reply plain_toolkit
            (net_const (Ok 200 (Document error_with_empty_msg))) admin
            two_devices 200%Z (Document error_with_empty_msg) AttributeError
            ltac:(done) eq_refl _).
  right. right. exists error_with_empty_msg, (bare "msg").
  repeat split; reflexivity.
Defined.

(** ** The version check: [run_version_check] *)

(** Closes [x ∉ [y1; ...; yn]] when [x] differs from each [yi] by its
    constructor. *)
Ltac absent :=
  cbn; repeat (apply not_elem_of_cons; split; [discriminate|]);
  apply not_elem_of_nil.

(** Closes the goal of [run_version_check_effects] at the end of one path
    through the function: the rest of the trace is what follows the
    reply. *)
Ltac version_leaf :=
  eexists; rewrite <- ?app_assoc; cbn [app];
  split; [reflexivity|]; split; [reflexivity|]; absent.

(** When the log refuses the opening line, the version check ends there. *)
Lemma run_version_check_refused
    (ui : Toolkit) (net : nat -> Request -> Reply) (auth : string * string)
    (st : App) (target : Text) (rest : list Text) :
  selected st = target :: rest ->
  accepted ui (RunningVersionCheck (hostname_of st target)) = false ->
  run_version_check ui net auth st = (Raised MarkupError, st).
Proof.
  intros Hsel Hopen. unfold run_version_check, hostname_of in *. run_monad.
  rewrite Hsel. run_monad. by rewrite Hopen.
Qed.

(** With a device selected and the opening line written, the version
    check issues its one request; what follows holds no further request
    and no selection error. *)
Lemma run_version_check_effects
    (ui : Toolkit) (net : nat -> Request -> Reply) (auth : string * string)
    (st : App) (target : Text) (rest : list Text) :
  selected st = target :: rest ->
  accepted ui (RunningVersionCheck (hostname_of st target)) = true ->
  exists tail,
    trace (run_version_check ui net auth st).2 =
    trace st ++
      [Logged (RunningVersionCheck (hostname_of st target));
       Requested (version_check_request auth (pano_ip st) target);
       Replied (net (clock st)
                  (version_check_request auth (pano_ip st) target))] ++ tail /\
    requests tail = [] /\
    ErrSelectOneDevice ∉ output_log tail.
Proof.
  intros Hsel Hopen. unfold run_version_check, hostname_of in *. run_monad.
  rewrite Hsel. run_monad. rewrite Hopen. run_monad.
  rewrite version_check_catalog_entry. run_monad.
  match goal with
  | |- context [net ?c ?rq] =>
      change rq with (version_check_request auth (pano_ip st) target)
  end.
  destruct (net _ _) as [e | code [| root]]; run_monad.
  - destruct (accepted ui (ErrConnection _)); run_monad; version_leaf.
  - version_leaf.
  - destruct (attrib root !! "status") as [status|]; run_monad;
      [|version_leaf].
    destruct (String.eqb status "error"); run_monad.
    + destruct (find root path_msg) as [msg_node|]; run_monad;
        [|version_leaf].
      destruct (accepted ui (ApiError _)); run_monad; version_leaf.
    + destruct (text <$> findall root path_versions) as [| v vs]; run_monad;
        version_leaf.
Qed.

(** The devices selected after the first one play no part: with another
    rest of the selection the version check ends the same way, in the same
    state but for the selection itself. *)
Lemma run_version_check_ignores_rest
    (ui : Toolkit) (net : nat -> Request -> Reply) (auth : string * string)
    (st : App) (target : Text) (rest rest' : list Text) :
  selected st = target :: rest ->
  let st' := with_devices (device_list st) (target :: rest') st in
  (run_version_check ui net auth st').1 = (run_version_check ui net auth st).1
  /\
  (run_version_check ui net auth st').2 =
  with_devices (device_list st) (target :: rest')
    (run_version_check ui net auth st).2.
Proof.
  intros Hsel st'. subst st'. unfold run_version_check. run_monad.
  rewrite Hsel. run_monad.
  destruct (accepted ui (RunningVersionCheck _)); run_monad; [|done].
  rewrite version_check_catalog_entry. run_monad.
  destruct (net _ _) as [e | code [| root]]; run_monad;
    [by destruct (accepted ui _) | done |].
  destruct (attrib root !! "status") as [status|]; run_monad; [|done].
  destruct (String.eqb status "error"); run_monad.
  - destruct (find root path_msg); run_monad; [|done].
    by destruct (accepted ui _).
  - by destruct (text <$> findall root path_versions).
Qed.

(** C9. The version check works on the first selected device alone.  With
    an empty selection it writes the selection error and does nothing
    else.  With a selection [target :: rest] it issues exactly one
    request, addressed to [target], once its opening line is written (and
    none when the log refuses that line); the selection error is not
    written; and [rest] plays no part: whatever devices follow [target],
    the result, the lines written and the requests issued are the same. *)
Theorem version_check_targets_first_selected
    (ui : Toolkit) (net : nat -> Request -> Reply) (auth : string * string)
    (st : App) :
  let out := run_version_check ui net auth st in
  (selected st = [] ->
   out = (Normal tt, after st 0 [Logged ErrSelectOneDevice])) /\
  (ErrSelectOneDevice ∈ output_log (added st out.2) <-> selected st = []) /\
  (forall target rest,
     selected st = target :: rest ->
     requests (added st out.2) =
       (if accepted ui (RunningVersionCheck (hostname_of st target))
        then [version_check_request auth (pano_ip st) target]
        else []) /\
     (forall rest',
        let st' := with_devices (device_list st) (target :: rest') st in
        let out' := run_version_check ui net auth st' in
        out'.1 = out.1 /\
        out'.2 = with_devices (device_list st) (target :: rest') out.2 /\
        added st' out'.2 = added st out.2)).
Proof.
  intros out.
  assert (Hempty : selected st = [] ->
                   out = (Normal tt, after st 0 [Logged ErrSelectOneDevice])).
  { intros Hsel. subst out. unfold run_version_check, after. run_monad.
    rewrite Hsel. by run_monad. }
  assert (Hrefused : forall target rest,
    selected st = target :: rest ->
    accepted ui (RunningVersionCheck (hostname_of st target)) = false ->
    added st out.2 = []).
  { intros target rest Hsel Hopen. subst out.
    rewrite (run_version_check_refused ui net auth st target rest Hsel Hopen).
    unfold added. cbn [snd]. apply drop_all. }
  split; [exact Hempty|]. split.
  - destruct (selected st) as [| target rest] eqn:Hsel.
    + rewrite (Hempty eq_refl). unfold added, after. cbn [snd trace with_io].
      rewrite drop_app_length. cbn. split; [done|]. intros _.
      apply list_elem_of_here.
    + split; [|done]. intros Hin. exfalso.
      destruct (accepted ui (RunningVersionCheck (hostname_of st target)))
        eqn:Hopen.
      2:{ rewrite (Hrefused target rest eq_refl Hopen) in Hin.
          by apply elem_of_nil in Hin. }
      destruct (run_version_check_effects ui net auth st target rest Hsel
                  Hopen) as (tail & Htr & _ & Hnot).
      fold out in Htr. rewrite (added_app _ _ _ Htr) in Hin.
      apply Hnot. rewrite output_log_app in Hin. cbn in Hin.
      apply elem_of_cons in Hin as [Hin | Hin]; [discriminate | done].
  - intros target rest Hsel. split.
    + destruct (accepted ui (RunningVersionCheck (hostname_of st target)))
        eqn:Hopen.
      2:{ by rewrite (Hrefused target rest Hsel Hopen). }
      destruct (run_version_check_effects ui net auth st target rest Hsel
                  Hopen) as (tail & Htr & Hrq & _).
      fold out in Htr.
      rewrite (added_app _ _ _ Htr), requests_app, Hrq. reflexivity.
    + intros rest' st' out'.
      destruct (run_version_check_ignores_rest ui net auth st target rest
                  rest' Hsel) as [H1 H2].
      fold st' out out' in H1, H2. split; [done|]. split; [done|].
      unfold added. by rewrite H2.
Qed.

(** The version check on the sample selection of two devices: one request,
    to the first serial. *)
Lemma version_check_example (ui : Toolkit) :
  requests (trace (run_version_check ui net_ok admin two_devices).2)
  = [version_check_request admin "10.0.0.1" (Some "001")] /\
  output_log (trace (run_version_check ui net_ok admin two_devices).2)
  = [RunningVersionCheck (Some "fw-a"); WarnNoVersions].
Proof. vm_compute. split; reflexivity. Qed.

(** X15. Replies the version check has no line for.  With a device
    selected, when the request succeeds but the body is not well-formed
    XML, or the root has no status attribute, or the status is "error" and
    there is no [msg] element, [run_version_check] ends with an exception
    ([ParseError], [KeyError], [AttributeError], in that order) right after
    the reply, without a result or error line.  (The request is issued
    once the opening line is written; when the log refuses that line, the
    check ends in [MarkupError] before it.) *)
Theorem version_check_raises_on_incomplete_reply
    (ui : Toolkit) (net : nat -> Request -> Reply) (auth : string * string)
    (st : App) (target : Text) (rest : list Text) (code : Z) (body : Body)
    (e : Exn)
    (Hsel : selected st = target :: rest)
    (Hr : net (clock st) (version_check_request auth (pano_ip st) target)
          = Ok code body)
    (Hcase :
       (body = Malformed /\ e = ParseError) \/
       (exists root,
          body = Document root /\ attrib root !! "status" = None /\
          e = KeyError) \/
       (exists root,
          body = Document root /\ attrib root !! "status" = Some "error" /\
          find root path_msg = None /\ e = AttributeError)) :
  run_version_check ui net auth st =
  if accepted ui (RunningVersionCheck (hostname_of st target))
  then (Raised e,
        after st 1
          [Logged (RunningVersionCheck (hostname_of st target));
           Requested (version_check_request auth (pano_ip st) target);
           Replied (Ok code body)])
  else (Raised MarkupError, st).
Proof.
  destruct (accepted ui (RunningVersionCheck (hostname_of st target)))
    eqn:Hopen; [|by eapply run_version_check_refused].
  unfold run_version_check, after, hostname_of in *. run_monad.
  rewrite Hsel. run_monad. rewrite Hopen. run_monad.
  rewrite version_check_catalog_entry. run_monad.
  match goal with
  | |- context [net ?c ?rq] =>
      change rq with (version_check_request auth (pano_ip st) target)
  end.
  rewrite Hr.
  destruct Hcase as [[-> ->] | [(root & -> & Hs & ->)
                               | (root & -> & Hs & Hm & ->)]];
    run_monad; rewrite ?Hs; run_monad.
  - by rewrite <- !app_assoc.
  - by rewrite <- !app_assoc.
  - change ("error" =? "error")%string with true. cbv iota.
    rewrite Hm. run_monad. by rewrite <- !app_assoc.
Qed.

(** X15 on an error envelope without [msg]. *)
Lemma version_check_raises_on_incomplete_reply_witness :
  selected two_devices = [Some "001"; Some "002"] /\
  find error_without_msg path_msg = None /\
  run_version_check plain_toolkit
    (net_const (Ok 200 (Document error_without_msg))) admin two_devices =
  (Raised AttributeError,
   after two_devices 1
     [Logged (RunningVersionCheck (hostname_of two_devices (Some "001")));
      Requested (version_check_request admin (pano_ip two_devices)
                   (Some "001"));
      Replied (Ok 200 (Document error_without_msg))]).
Proof.
  split; [reflexivity|]. split; [reflexivity|].
  refine (version_check_raises_on_incomplete_reply plain_toolkit
            (net_const (Ok 200 (Document error_without_msg))) admin
            two_devices (Some "001") [Some "002"] 200%Z
            (Document error_without_msg) AttributeError eq_refl eq_refl _).
  right. right. exists error_without_msg. repeat split; reflexivity.
Defined.

(** X16. The version list goes into the dropdown in the order of the
    reply.  With a device selected, the opening line written, and a reply
    that parses and whose status is not "error": when the reply lists
    versions, the dropdown holds them in document order, each as its own
    label and value, it is enabled, its value is back to blank (a version
    chosen before is no longer chosen), and the count is reported; when it
    lists none, the warning is written and the dropdown is left as it
    was. *)
Theorem version_list_fills_the_dropdown
    (ui : Toolkit) (net : nat -> Request -> Reply) (auth : string * string)
    (st : App) (target : Text) (rest : list Text) (code : Z) (root : Element)
    (status : string)
    (Hsel : selected st = target :: rest)
    (Hopen : accepted ui (RunningVersionCheck (hostname_of st target)) = true)
    (Hr : net (clock st) (version_check_request auth (pano_ip st) target)
          = Ok code (Document root))
    (Hstatus : attrib root !! "status" = Some status)
    (Hok : status <> "error") :
  let out := run_version_check ui net auth st in
  let versions := text <$> findall root path_versions in
  let opening :=
    [Logged (RunningVersionCheck (hostname_of st target));
     Requested (version_check_request auth (pano_ip st) target);
     Replied (Ok code (Document root))] in
  (versions <> [] ->
   out.1 = Normal tt /\
   version_options out.2 = (fun v => (v, v)) <$> versions /\
   version_disabled out.2 = false /\
   version_value out.2 = BLANK /\
   added st out.2 = opening ++ [Logged (FoundVersions (length versions))]) /\
  (versions = [] ->
   out = (Normal tt, after st 1 (opening ++ [Logged WarnNoVersions]))).
Proof.
  intros out versions opening. subst out opening.
  assert (Hrun : run_version_check ui net auth st =
    match versions with
    | [] => (Normal tt,
             after st 1
               [Logged (RunningVersionCheck (hostname_of st target));
                Requested (version_check_request auth (pano_ip st) target);
                Replied (Ok code (Document root));
                Logged WarnNoVersions])
    | _ => (Normal tt,
            after (with_versions ((fun v => (v, v)) <$> versions) false st) 1
              [Logged (RunningVersionCheck (hostname_of st target));
               Requested (version_check_request auth (pano_ip st) target);
               Replied (Ok code (Document root));
               Logged (FoundVersions (length versions))])
    end).
  { unfold run_version_check, after, hostname_of in *. run_monad.
    rewrite Hsel. run_monad. rewrite Hopen. run_monad.
    rewrite version_check_catalog_entry. run_monad.
    match goal with
    | |- context [net ?c ?rq] =>
        change rq with (version_check_request auth (pano_ip st) target)
    end.
    rewrite Hr. run_monad. rewrite Hstatus. run_monad.
    apply String.eqb_neq in Hok. rewrite Hok. fold versions.
    destruct versions; run_monad; by rewrite <- !app_assoc. }
  rewrite Hrun. split.
  - destruct versions as [| v vs]; [done|]. intros _.
    cbn [fst snd]. rewrite added_after_same_trace by done. done.
  - by intros ->.
Qed.

(** X16 on a reply with two versions, a version having been chosen
    before. *)
Lemma version_list_fills_the_dropdown_witness :
  selected two_devices = [Some "001"; Some "002"] /\
  accepted plain_toolkit
    (RunningVersionCheck (hostname_of two_devices (Some "001"))) = true /\
  attrib two_versions !! "status" = Some "success" /\
  version_value two_devices = Chosen (Some "10.2.3") /\
  version_options
    (run_version_check plain_toolkit
       (net_const (Ok 200 (Document two_versions))) admin two_devices).2
  = [(Some "11.0.2", Some "11.0.2"); (Some "10.2.3", Some "10.2.3")] /\
  version_value
    (run_version_check plain_toolkit
       (net_const (Ok 200 (Document two_versions))) admin two_devices).2
  = BLANK.
Proof.
  split; [reflexivity|]. split; [reflexivity|]. split; [reflexivity|].
  split; [reflexivity|].
  destruct (proj1 (version_list_fills_the_dropdown plain_toolkit
                     (net_const (Ok 200 (Document two_versions))) admin
                     two_devices (Some "001") [Some "002"] 200%Z two_versions
                     "success" eq_refl eq_refl eq_refl eq_refl ltac:(done))
                  ltac:(discriminate))
    as (_ & Hoptions & _ & Hvalue & _).
  exact (conj Hoptions Hvalue).
Defined.

(** X17. The version check never empties the dropdown.  However
    [run_version_check] ends, it leaves the lookup table, the device list
    and the selection as they were; and either the dropdown is as it was
    (its options, its state and its value), or the check has ended
    normally with a non-empty list of versions in an enabled dropdown
    whose value is blank. *)
Theorem version_check_keeps_or_fills_the_dropdown
    (ui : Toolkit) (net : nat -> Request -> Reply) (auth : string * string)
    (st : App) :
  let out := run_version_check ui net auth st in
  serial_to_hostname out.2 = serial_to_hostname st /\
  device_list out.2 = device_list st /\
  selected out.2 = selected st /\
  (version_options out.2 = version_options st /\
   version_disabled out.2 = version_disabled st /\
   version_value out.2 = version_value st \/
   out.1 = Normal tt /\ version_options out.2 <> [] /\
   version_disabled out.2 = false /\ version_value out.2 = BLANK).
Proof.
  intros out. subst out. unfold run_version_check. run_monad.
  destruct (selected st) as [| target rest] eqn:Hsel; run_monad.
  { rewrite Hsel. auto 10. }
  destruct (accepted ui (RunningVersionCheck _)); run_monad;
    [| rewrite Hsel; auto 10].
  rewrite version_check_catalog_entry. run_monad.
  destruct (net _ _) as [e | code [| root]]; run_monad;
    [destruct (accepted ui _); run_monad; rewrite Hsel; auto 10
    | rewrite Hsel; auto 10 |].
  destruct (attrib root !! "status") as [status|]; run_monad;
    [| rewrite Hsel; auto 10].
  destruct (String.eqb status "error"); run_monad.
  - destruct (find root path_msg); run_monad; [|rewrite Hsel; auto 10].
    destruct (accepted ui _); run_monad; rewrite Hsel; auto 10.
  - destruct (text <$> findall root path_versions) as [| v vs] eqn:Hv;
      run_monad; rewrite Hsel; [auto 10|].
    do 3 (split; [done|]). by right.
Qed.

(** ** The credential guard: [handle_button_press] *)

(** Past the guard, the handler never writes the credentials error. *)
Lemma press_action_effects (ui : Toolkit) (button_id : string)
      (auth : string * string) (st : App) :
  exists effs,
    trace (press_action ui button_id auth st).2 = trace st ++ effs /\
    ErrCredentialsRequired ∉ output_log effs.
Proof.
  unfold press_action.
  destruct (String.eqb button_id "fetch"); run_monad.
  { eexists [_]. split; [done | absent]. }
  destruct (String.eqb button_id "run_check_versions"); run_monad.
  { eexists [_]. split; [done | absent]. }
  case_bool_decide; run_monad.
  2:{ exists []. rewrite app_nil_r. split; [done | absent]. }
  destruct (String.eqb button_id "run_download"); cbn [catalog_lookup];
    run_monad.
  { cbn. destruct (version_value st); eexists [_]; split; done || absent. }
  destruct (String.eqb button_id "run_install"); run_monad.
  { cbn. destruct (version_value st); eexists [_]; split; done || absent. }
  destruct (String.eqb button_id "run_reboot"); run_monad.
  { cbn. eexists [_]. split; [done | absent]. }
  cbn. exists []. rewrite app_nil_r. split; [done | absent].
Qed.

(** C10. The guard on empty credentials is asymmetric.  With an empty
    username or an empty password, "Fetch Connected Devices" is always
    rejected with the credentials error and starts no worker; every other
    button is rejected in the same way when the lookup table of serials
    holds an entry, and goes on as if the credentials were there when the
    table is empty: the version check and the reboot start their worker,
    download and install start theirs once a version is chosen, and the
    credentials error is not written. *)
Theorem credential_guard_is_asymmetric
    (ui : Toolkit) (button_id : string) (st : App)
    (Hcreds : username st = "" \/ password st = "") :
  let out := handle_button_press ui button_id st in
  let auth := (username st, password st) in
  let rejected := (Normal tt, after st 0 [Logged ErrCredentialsRequired]) in
  (button_id = "fetch" -> out = rejected) /\
  (button_id <> "fetch" -> serial_to_hostname st <> ∅ -> out = rejected) /\
  (button_id <> "fetch" -> serial_to_hostname st = ∅ ->
   out = press_action ui button_id auth st /\
   (ErrCredentialsRequired ∉ output_log (added st out.2)) /\
   (button_id = "run_check_versions" ->
    out = (Normal tt, after st 0 [Spawned (RunVersionCheck auth)])) /\
   (button_id = "run_reboot" ->
    out = (Normal tt,
           after st 0 [Spawned (RunExecuteCommand auth "Reboot" None)])) /\
   (forall v,
      version_value st = Chosen v ->
      (button_id = "run_download" ->
       out = (Normal tt,
              after st 0
                [Spawned (RunExecuteCommand auth "Download Version" v)])) /\
      (button_id = "run_install" ->
       out = (Normal tt,
              after st 0
                [Spawned (RunExecuteCommand auth "Install Version" v)])))).
Proof.
  intros out auth rejected.
  assert (Hguard : orb (String.eqb (username st) "")
                       (String.eqb (password st) "") = true).
  { destruct Hcreds as [-> | ->]; [done|]. by rewrite orb_true_r. }
  assert (Hout : out =
    if andb (negb (String.eqb button_id "fetch"))
            (bool_decide (serial_to_hostname st = ∅))
    then press_action ui button_id auth st else rejected).
  { subst out auth rejected. unfold handle_button_press, after. run_monad.
    rewrite Hguard. by destruct (andb _ _). }
  split; [|split].
  - intros ->. by rewrite Hout.
  - intros Hne Htable. rewrite Hout, (bool_decide_eq_false_2 _ Htable).
    by rewrite andb_false_r.
  - intros Hne Htable.
    apply String.eqb_neq in Hne.
    rewrite Hne, (bool_decide_eq_true_2 _ Htable) in Hout. cbn in Hout.
    split; [exact Hout|]. split.
    { destruct (press_action_effects ui button_id auth st) as (effs & Htr & Hnot).
      rewrite Hout. by rewrite (added_app _ _ _ Htr). }
    rewrite Hout. unfold press_action, after. run_monad.
    split; [by intros ->|]. split; [by intros ->|].
    intros v Hv.
    split; intros ->; cbn; run_monad;
      rewrite bool_decide_eq_true_2 by (rewrite !elem_of_cons; auto);
      cbv beta; by rewrite Hv.
Qed.

(** C10 on the state with nothing fetched and no credentials: the reboot
    goes on to its worker, the fetch is rejected. *)
Lemma credential_guard_is_asymmetric_witness :
  (username fresh_app = "" \/ password fresh_app = "") /\
  handle_button_press plain_toolkit "run_reboot" fresh_app =
  (Normal tt,
   after fresh_app 0 [Spawned (RunExecuteCommand ("", "") "Reboot" None)]) /\
  handle_button_press plain_toolkit "fetch" fresh_app =
  (Normal tt, after fresh_app 0 [Logged ErrCredentialsRequired]).
Proof.
  split; [by left|].
  destruct (credential_guard_is_asymmetric plain_toolkit "run_reboot" fresh_app
              (or_introl eq_refl)) as (_ & _ & Hempty).
  destruct (Hempty ltac:(done) eq_refl) as (_ & _ & _ & Hreboot & _).
  destruct (credential_guard_is_asymmetric plain_toolkit "fetch" fresh_app
              (or_introl eq_refl)) as (Hfetch & _).
  exact (conj (Hreboot eq_refl) (Hfetch eq_refl)).
Defined.

(** With devices fetched and a password missing, every button is
    rejected. *)
Lemma credential_guard_example (ui : Toolkit) :
  let st := with_table (serial_to_hostname two_devices) fresh_app in
  output_log (trace (handle_button_press ui "run_reboot" st).2)
  = [ErrCredentialsRequired] /\
  workers (trace (handle_button_press ui "run_reboot" st).2) = [].
Proof. vm_compute. split; reflexivity. Qed.


(** ** More on the button handler *)

(** Past the guard: the handler ends normally with at most one effect, a
    line or a worker, and the worker fits the button. *)
Lemma press_action_reach (ui : Toolkit) (button_id : string)
      (auth : string * string) (st : App) :
  exists effs,
    press_action ui button_id auth st = (Normal tt, after st 0 effs) /\
    length effs <= 1 /\
    requests effs = [] /\
    forall w, w ∈ workers effs ->
      match w with
      | FetchDevices a => a = auth /\ button_id = "fetch"
      | RunVersionCheck a => a = auth /\ button_id = "run_check_versions"
      | RunExecuteCommand a name v =>
          a = auth /\
          exists info,
            catalog_lookup name URL_CHOICES = Some info /\
            if produces_job info then version_value st = Chosen v
            else v = None
      | TrackJobProgress _ _ _ => False
      end.
Proof.
  unfold press_action.
  destruct (String.eqb button_id "fetch") eqn:Hfetch; run_monad.
  { apply String.eqb_eq in Hfetch. eexists [_]. split; [done|].
    split; [done|]. split; [done|].
    intros w Hw. cbn in Hw. by apply list_elem_of_singleton in Hw as ->. }
  destruct (String.eqb button_id "run_check_versions") eqn:Hcheck; run_monad.
  { apply String.eqb_eq in Hcheck. eexists [_]. split; [done|].
    split; [done|]. split; [done|].
    intros w Hw. cbn in Hw. by apply list_elem_of_singleton in Hw as ->. }
  case_bool_decide; run_monad.
  2:{ exists []. rewrite after_nothing. repeat split; auto.
      intros w Hw. by apply elem_of_nil in Hw. }
  assert (Hone : forall name info v,
    catalog_lookup name URL_CHOICES = Some info ->
    (if produces_job info then version_value st = Chosen v else v = None) ->
    forall w, w ∈ workers [Spawned (RunExecuteCommand auth name v)] ->
      match w with
      | FetchDevices a => a = auth /\ button_id = "fetch"
      | RunVersionCheck a => a = auth /\ button_id = "run_check_versions"
      | RunExecuteCommand a name v =>
          a = auth /\
          exists info,
            catalog_lookup name URL_CHOICES = Some info /\
            if produces_job info then version_value st = Chosen v
            else v = None
      | TrackJobProgress _ _ _ => False
      end).
  { intros name info v Hinfo Hv w Hw. cbn in Hw.
    apply list_elem_of_singleton in Hw as ->. split; [done|]. by exists info. }
  assert (Hnone : forall l, forall w, w ∈ workers [Logged l] ->
      match w with
      | FetchDevices a => a = auth /\ button_id = "fetch"
      | RunVersionCheck a => a = auth /\ button_id = "run_check_versions"
      | RunExecuteCommand a name v =>
          a = auth /\
          exists info,
            catalog_lookup name URL_CHOICES = Some info /\
            if produces_job info then version_value st = Chosen v
            else v = None
      | TrackJobProgress _ _ _ => False
      end).
  { intros l w Hw. by apply elem_of_nil in Hw. }
  destruct (String.eqb button_id "run_download") eqn:Hd; cbn [catalog_lookup];
    run_monad.
  { cbn. destruct (version_value st) as [| v] eqn:Hv; eexists [_];
      (split; [done|]; split; [done|]; split; [done|]);
      [apply Hnone | by eapply Hone]. }
  destruct (String.eqb button_id "run_install") eqn:Hi; run_monad.
  { cbn. destruct (version_value st) as [| v] eqn:Hv; eexists [_];
      (split; [done|]; split; [done|]; split; [done|]);
      [apply Hnone | by eapply Hone]. }
  destruct (String.eqb button_id "run_reboot") eqn:Hreboot; run_monad.
  { cbn. eexists [_]. split; [done|]. split; [done|]. split; [done|].
    by eapply Hone. }
  exfalso. apply String.eqb_neq in Hd, Hi, Hreboot.
  match goal with H : button_id ∈ _ |- _ => rename H into Hin end.
  rewrite !elem_of_cons in Hin. rewrite elem_of_nil in Hin.
  destruct Hin as [-> | [-> | [-> | []]]]; congruence.
Qed.

(** X8. What a press can start.  Whatever the button and the state,
    [handle_button_press] ends normally, issues no request itself, changes
    nothing but the trace, and has at most one effect, a line or a worker.
    A worker it starts carries the entered credentials; the fetch of the
    devices is started only by the "fetch" button and only when both
    credentials are there; a dispatch is started only for a command of the
    catalog, with the chosen version when the command produces a job and
    with no version otherwise; no tracker is started by a press. *)
Theorem press_starts_at_most_one_fitting_worker
    (ui : Toolkit) (button_id : string) (st : App) :
  let out := handle_button_press ui button_id st in
  let auth := (username st, password st) in
  out.1 = Normal tt /\
  out.2 = with_io (clock st) (trace out.2) st /\
  length (added st out.2) <= 1 /\
  requests (added st out.2) = [] /\
  forall w, w ∈ workers (added st out.2) ->
    match w with
    | FetchDevices a =>
        a = auth /\ button_id = "fetch" /\
        username st <> "" /\ password st <> ""
    | RunVersionCheck a => a = auth /\ button_id = "run_check_versions"
    | RunExecuteCommand a name v =>
        a = auth /\
        exists info,
          catalog_lookup name URL_CHOICES = Some info /\
          if produces_job info then version_value st = Chosen v
          else v = None
    | TrackJobProgress _ _ _ => False
    end.
Proof.
  intros out auth.
  destruct (press_action_reach ui button_id auth st)
    as (effs & Hpress & Hlen & Hrq & Hw).
  assert (Hcases :
    (out = press_action ui button_id auth st /\
     (button_id = "fetch" -> username st <> "" /\ password st <> "")) \/
    out = (Normal tt, after st 0 [Logged ErrCredentialsRequired])).
  { subst out auth. unfold handle_button_press, after. run_monad.
    destruct (String.eqb (username st) "") eqn:Hu;
      destruct (String.eqb (password st) "") eqn:Hp; cbn [orb];
      try (destruct (String.eqb button_id "fetch") eqn:Hf; cbn [negb andb];
           [by right |
            apply String.eqb_neq in Hf;
            destruct (bool_decide (serial_to_hostname st = ∅));
            [left; split; [done | by intros ->] | by right]]).
    left. split; [done|]. intros _.
    by apply String.eqb_neq in Hu, Hp. }
  destruct Hcases as [[-> Hfetch] | ->].
  - rewrite Hpress. cbn [fst snd]. rewrite added_after.
    split; [done|]. split; [done|]. split; [done|]. split; [done|].
    intros w Hin. specialize (Hw w Hin).
    destruct w; try done. destruct Hw as [-> ->]. by destruct Hfetch.
  - cbn [fst snd]. rewrite added_after.
    split; [done|]. split; [done|]. split; [done|]. split; [done|].
    intros w Hin. by apply elem_of_nil in Hin.
Qed.

(** X9. Download and install need a chosen version.  When the guard lets
    the press through (both credentials are there, or no device has been
    fetched) and the version dropdown is blank, "run_download" and
    "run_install" write the "select a version first" error and start no
    worker. *)
Theorem download_without_version_is_refused
    (ui : Toolkit) (button_id : string) (st : App)
    (Hbutton : button_id = "run_download" \/ button_id = "run_install")
    (Hguard : (username st <> "" /\ password st <> "") \/
              serial_to_hostname st = ∅)
    (Hblank : version_value st = BLANK) :
  handle_button_press ui button_id st
  = (Normal tt, after st 0 [Logged ErrSelectVersionFirst]).
Proof.
  assert (Hpress : press_action ui button_id (username st, password st) st
                   = (Normal tt, after st 0 [Logged ErrSelectVersionFirst])).
  { unfold press_action, after.
    destruct Hbutton as [-> | ->]; cbn; run_monad;
      rewrite bool_decide_eq_true_2 by (rewrite !elem_of_cons; auto);
      cbn; by rewrite Hblank. }
  rewrite <- Hpress. unfold handle_button_press. run_monad.
  assert (Hne : String.eqb button_id "fetch" = false)
    by (by destruct Hbutton as [-> | ->]).
  rewrite Hne. cbn [negb andb].
  destruct Hguard as [[Hu Hp] | Htable].
  - apply String.eqb_neq in Hu, Hp. by rewrite Hu, Hp.
  - rewrite (bool_decide_eq_true_2 _ Htable).
    by destruct (orb _ _).
Qed.

(** X9 on the state with nothing fetched and nothing chosen. *)
Lemma download_without_version_is_refused_witness :
  ((username fresh_app <> "" /\ password fresh_app <> "") \/
   serial_to_hostname fresh_app = ∅) /\
  version_value fresh_app = BLANK /\
  handle_button_press plain_toolkit "run_install" fresh_app
  = (Normal tt, after fresh_app 0 [Logged ErrSelectVersionFirst]).
Proof.
  split; [by right|]. split; [reflexivity|].
  exact (download_without_version_is_refused plain_toolkit "run_install" fresh_app
           (or_intror eq_refl) (or_intror eq_refl) eq_refl).
Defined.

(** ** More on the dispatch *)

(** One case of a device with [n] requests: leaves the way the body
    ends. *)
Ltac reach_case n :=
  eexists _, n, _;
  split; [unfold after; cbn [Nat.add]; rewrite <- ?app_assoc; reflexivity|];
  split; [cbn; repeat constructor; eauto|];
  split; [cbn; repeat constructor; eauto|];
  split; [reflexivity|]; split; [cbn; lia|]; split; [lia|];
  split; [|by cbn].

(** The same for a device left before its request. *)
Ltac reach_none :=
  eexists _, 0, [];
  split; [by rewrite after_nothing|];
  do 2 (split; [by constructor|]);
  split; [reflexivity|]; split; [cbn; lia|]; split; [lia|];
  split; [|done].

(** The body has ended in [MarkupError] on the line the goal names. *)
Ltac refused_line H :=
  do 3 right; split; [reflexivity|];
  eexists; split; [|exact H]; unfold device_line; eauto 7.

Section DispatchReach.

Variable ui : Toolkit.
Variable net : nat -> Request -> Reply.
Variables (auth : string * string) (command_name : string).
Variables (command_info : CommandInfo) (version : Text) (ip : string).

Local Abbreviation body :=
  (execute_on_device ui net auth command_name command_info version ip).

(** One device: the state changes by the clock and the trace only; the
    request, if any, is the rendered command for that serial; a worker, if
    any, is the tracker of that serial; and the body ends normally after
    its one request, or with [ParseError] for a command that produces a
    job, or with [KeyError] when the template does not render, or with
    [MarkupError] when the log refuses one of the lines of the device. *)
Lemma execute_on_device_reach (serial : Text) (st : App) :
  exists res n effs,
    body serial st = (res, after st n effs) /\
    Forall (fun rq => rq_url rq = base_url ip /\ rq_auth rq = auth /\
                      rq_target rq = Some serial /\
                      Some (rq_cmd rq) = render_command command_info version)
           (requests effs) /\
    Forall (fun w => exists job_id, w = TrackJobProgress auth serial job_id)
           (workers effs) /\
    length (requests effs) = n /\
    length (workers effs) <= n /\
    n <= 1 /\
    (res = Normal tt /\ n = 1 \/
     res = Raised ParseError /\ produces_job command_info = true \/
     res = Raised KeyError /\ render_command command_info version = None \/
     res = Raised MarkupError /\
     exists line,
       device_line command_name command_info (hostname_of st serial) line /\
       accepted ui line = false) /\
    (produces_job command_info = false -> workers effs = []).
Proof.
  unfold execute_on_device, hostname_of. run_monad.
  destruct (render_command command_info version) as [xml|]; run_monad.
  2:{ reach_none. auto. }
  destruct (accepted ui (Running _ _)) eqn:Hrunning; run_monad.
  2:{ reach_none. refused_line Hrunning. }
  match goal with
  | |- context [net ?c ?rq] => destruct (net c rq) as [e | code body0]
  end; run_monad.
  { destruct (accepted ui (ErrForDevice _ _)) eqn:Herr; run_monad;
      reach_case 1; [auto | refused_line Herr]. }
  destruct (produces_job command_info) eqn:Hjob; run_monad.
  2:{ reach_case 1. auto. }
  destruct body0 as [| root]; run_monad.
  { reach_case 1. auto. }
  destruct (text_if_any (find root path_job)) as [job_id|]; run_monad;
    match goal with
    | |- context [accepted ui ?l] => destruct (accepted ui l) eqn:Hline
    end; run_monad; reach_case 1; auto; refused_line Hline.
Qed.

Lemma dispatch_loop_reach (serials : list Text) (st : App) :
  exists res n effs,
    for_each serials body st = (res, after st n effs) /\
    Forall (fun rq => rq_url rq = base_url ip /\ rq_auth rq = auth /\
                      (exists serial,
                         serial ∈ serials /\ rq_target rq = Some serial) /\
                      Some (rq_cmd rq) = render_command command_info version)
           (requests effs) /\
    Forall (fun w => exists serial job_id,
                       serial ∈ serials /\
                       w = TrackJobProgress auth serial job_id)
           (workers effs) /\
    length (requests effs) = n /\
    length (workers effs) <= n /\
    n <= length serials /\
    (res = Normal tt /\ n = length serials \/
     res = Raised ParseError /\ produces_job command_info = true \/
     res = Raised KeyError /\ render_command command_info version = None \/
     res = Raised MarkupError /\
     exists serial line,
       serial ∈ serials /\
       device_line command_name command_info (hostname_of st serial) line /\
       accepted ui line = false) /\
    (produces_job command_info = false -> workers effs = []) /\
    rq_target <$> requests effs = Some <$> take n serials.
Proof.
  revert st. induction serials as [| serial rest IH]; intros st.
  { exists (Normal tt), 0, []. rewrite after_nothing. repeat split; auto. }
  rewrite for_each_cons.
  destruct (execute_on_device_reach serial st)
    as (res1 & n1 & effs1 & -> & Hrq1 & Hw1 & Hn1 & Hwn1 & Hle1 & Hres1
        & Hnw1).
  assert (Ht1 : rq_target <$> requests effs1 = replicate n1 (Some serial)).
  { rewrite <- Hn1. clear -Hrq1.
    induction Hrq1 as [| rq l (_ & _ & Ht & _) _ IHl]; [done|].
    cbn. by rewrite Ht, IHl. }
  assert (Hrq1' : Forall (fun rq => rq_url rq = base_url ip /\
                    rq_auth rq = auth /\
                    (exists s, s ∈ serial :: rest /\ rq_target rq = Some s) /\
                    Some (rq_cmd rq) = render_command command_info version)
                  (requests effs1)).
  { eapply Forall_impl; [exact Hrq1|]. intros rq (? & ? & ? & ?).
    repeat split; auto. exists serial. split; [left | done]. }
  assert (Hw1' : Forall (fun w => exists s job_id,
                    s ∈ serial :: rest /\ w = TrackJobProgress auth s job_id)
                  (workers effs1)).
  { eapply Forall_impl; [exact Hw1|]. intros w [job_id ->].
    exists serial, job_id. split; [left | done]. }
  destruct res1 as [[] | e].
  - destruct (IH (after st n1 effs1))
      as (res2 & n2 & effs2 & -> & Hrq2 & Hw2 & Hn2 & Hwn2 & Hle2 & Hres2
          & Hnw2 & Ht2).
    exists res2, (n2 + n1), (effs1 ++ effs2).
    split; [by rewrite after_after|].
    rewrite requests_app, workers_app, fmap_app, !length_app.
    split; [apply Forall_app; split; [done|]|].
    { eapply Forall_impl; [exact Hrq2|].
      intros rq (? & ? & (s & ? & ?) & ?). repeat split; auto.
      exists s. split; [by right | done]. }
    split; [apply Forall_app; split; [done|]|].
    { eapply Forall_impl; [exact Hw2|]. intros w (s & job_id & ? & ->).
      exists s, job_id. split; [by right | done]. }
    split; [lia|]. split; [lia|]. split; [cbn; lia|].
    assert (Hone : n1 = 1).
    { by destruct Hres1 as [[_ ->] | [[? _] | [[? _] | [? _]]]]. }
    split; [|split; [intros Hj; by rewrite Hnw1, Hnw2|]].
    + subst n1.
      destruct Hres2
        as [[-> ->] | [[-> ?] | [[-> ?] | [-> (s & line & Hs & Hl & Hno)]]]];
        auto.
      * left. split; [done | cbn; lia].
      * do 3 right. split; [done|]. exists s, line.
        split; [by right | done].
    + rewrite Ht1, Ht2, Hone. by rewrite Nat.add_1_r.
  - exists (Raised e), n1, effs1.
    do 5 (split; [done|]). split; [cbn; lia|].
    split; [|split; [done|]].
    + destruct Hres1
        as [[? _] | [[-> ?] | [[-> ?] | [-> (line & Hl & Hno)]]]]; auto;
        [discriminate|].
      do 3 right. split; [done|]. exists serial, line.
      split; [left | done].
    + rewrite Ht1. destruct n1 as [| [| n1]]; [done | done | lia].
Qed.

End DispatchReach.

(** The effects of [run_execute_command] with a device selected and a
    command of the catalog: the opening line, then those of the loop. *)
Lemma run_execute_command_reach
    (ui : Toolkit) (net : nat -> Request -> Reply) (auth : string * string)
    (command_name : string) (version : Text) (st : App) (info : CommandInfo) :
  selected st <> [] ->
  catalog_lookup command_name URL_CHOICES = Some info ->
  exists res n effs,
    run_execute_command ui net auth command_name version st
    = (res, after st n
              (Logged (Starting command_name (length (selected st))) :: effs))
    /\
    Forall (fun rq => rq_url rq = base_url (pano_ip st) /\ rq_auth rq = auth /\
                      (exists serial,
                         serial ∈ selected st /\ rq_target rq = Some serial) /\
                      Some (rq_cmd rq) = render_command info version)
           (requests effs) /\
    Forall (fun w => exists serial job_id,
                       serial ∈ selected st /\
                       w = TrackJobProgress auth serial job_id)
           (workers effs) /\
    length (requests effs) = n /\
    length (workers effs) <= n /\
    n <= length (selected st) /\
    (res = Normal tt /\ n = length (selected st) \/
     res = Raised ParseError /\ produces_job info = true \/
     res = Raised KeyError /\ render_command info version = None \/
     res = Raised MarkupError /\
     exists serial line,
       serial ∈ selected st /\
       device_line command_name info (hostname_of st serial) line /\
       accepted ui line = false) /\
    (produces_job info = false -> workers effs = []) /\
    rq_target <$> requests effs = Some <$> take n (selected st).
Proof.
  intros Hsel Hinfo.
  destruct (dispatch_loop_reach ui net auth command_name info version
              (pano_ip st) (selected st)
              (after st 0 [Logged (Starting command_name
                                     (length (selected st)))]))
    as (res & n & effs & Hloop & Hfacts).
  exists res, n, effs. split; [|exact Hfacts].
  unfold run_execute_command. run_monad.
  destruct (selected st) as [| serial rest] eqn:Hs; [done|]. run_monad.
  rewrite Hinfo. run_monad.
  rewrite (accepted_Starting ui command_name info _ Hinfo). run_monad.
  change (with_io (clock st)
            (trace st ++ [Logged (Starting command_name
                                    (length (serial :: rest)))]) st)
    with (after st 0 [Logged (Starting command_name
                                (length (serial :: rest)))]).
  rewrite Hloop, after_after. do 2 f_equal. lia.
Qed.

(** X4. Dispatch reaches the selected devices only.  Whatever the command
    and the replies, [run_execute_command] changes nothing of the
    application state but the clock and the trace; every request it issues
    goes to the API of the entered address with the credentials it was
    given, is addressed to a selected serial and carries the rendered
    command of the catalog entry; every worker it starts is the tracker of
    a selected serial with those credentials; the requests go to the
    first of the selected serials, one each and in the order of the
    selection (so there is at most one request per selected device), and
    there is at most one tracker per request. *)
Theorem dispatch_reaches_only_selected_devices
    (ui : Toolkit) (net : nat -> Request -> Reply) (auth : string * string)
    (command_name : string) (version : Text) (st : App) :
  let out := run_execute_command ui net auth command_name version st in
  out.2 = with_io (clock out.2) (trace out.2) st /\
  Forall (fun rq =>
            rq_url rq = base_url (pano_ip st) /\ rq_auth rq = auth /\
            (exists serial,
               serial ∈ selected st /\ rq_target rq = Some serial) /\
            exists info,
              catalog_lookup command_name URL_CHOICES = Some info /\
              Some (rq_cmd rq) = render_command info version)
         (requests (added st out.2)) /\
  Forall (fun w => exists serial job_id,
                     serial ∈ selected st /\
                     w = TrackJobProgress auth serial job_id)
         (workers (added st out.2)) /\
  length (workers (added st out.2)) <= length (requests (added st out.2)) /\
  length (requests (added st out.2)) <= length (selected st) /\
  rq_target <$> requests (added st out.2) =
    Some <$> take (length (requests (added st out.2))) (selected st).
Proof.
  intros out. subst out.
  destruct (decide (selected st = [])) as [Hsel | Hsel].
  { unfold run_execute_command. run_monad. rewrite Hsel. run_monad.
    change (with_io (clock st) (trace st ++ [Logged ErrNoDevicesSelected]) st)
      with (after st 0 [Logged ErrNoDevicesSelected]).
    rewrite added_after. repeat split; auto. }
  destruct (catalog_lookup command_name URL_CHOICES) as [info|] eqn:Hinfo.
  2:{ assert (Hrun : run_execute_command ui net auth command_name version st
                     = (Raised KeyError, after st 0 [])).
      { unfold run_execute_command. run_monad.
        destruct (selected st); [done|]. run_monad. rewrite Hinfo. run_monad.
        by rewrite after_nothing. }
      rewrite Hrun. cbn [snd]. rewrite added_after.
      repeat split; auto; cbn; lia. }
  destruct (run_execute_command_reach ui net auth command_name version st
              info Hsel Hinfo)
    as (res & n & effs & -> & Hrq & Hw & Hn & Hwn & Hle & _ & _ & Ht).
  cbn [snd]. rewrite added_after. split; [apply after_frame|].
  change (requests (Logged (Starting command_name (length (selected st)))
                    :: effs)) with (requests effs).
  change (workers (Logged (Starting command_name (length (selected st)))
                   :: effs)) with (workers effs).
  split; [|split; [done|split; [lia|split; [lia|by rewrite Hn]]]].
  eapply Forall_impl; [exact Hrq|]. intros rq (? & ? & ? & ?).
  repeat split; auto. by exists info.
Qed.



(** X6. With no device selected, [run_execute_command] writes the
    "no devices selected" error and does nothing else, for any command
    name: the selection is looked at before the catalog. *)
Theorem dispatch_without_selection_does_nothing
    (ui : Toolkit) (net : nat -> Request -> Reply) (auth : string * string)
    (command_name : string) (version : Text) (st : App)
    (Hsel : selected st = []) :
  run_execute_command ui net auth command_name version st
  = (Normal tt, after st 0 [Logged ErrNoDevicesSelected]).
Proof.
  unfold run_execute_command, after. run_monad. by rewrite Hsel.
Qed.

(** X6 on a name that is not in the catalog. *)
Lemma dispatch_without_selection_does_nothing_witness :
  selected fresh_app = [] /\
  catalog_lookup "Factory Reset" URL_CHOICES = None /\
  run_execute_command plain_toolkit net_ok admin "Factory Reset" None
    fresh_app
  = (Normal tt, after fresh_app 0 [Logged ErrNoDevicesSelected]).
Proof.
  split; [reflexivity|]. split; [reflexivity|].
  exact (dispatch_without_selection_does_nothing plain_toolkit net_ok admin
           "Factory Reset" None fresh_app eq_refl).
Defined.

(** X7. The version goes into the command as it is.  For each command of
    the catalog that produces a job there are a prefix and a suffix such
    that a non-empty version is sent between them unchanged (nothing is
    escaped), and with no version, or an empty one, the command is sent
    with the placeholder [{version}] left in it. *)
Theorem version_is_inserted_verbatim
    (command_name : string) (info : CommandInfo)
    (Hinfo : catalog_lookup command_name URL_CHOICES = Some info)
    (Hjob : produces_job info = true) :
  exists pre post,
    (forall v, v <> "" ->
       render_command info (Some v) = Some (pre +:+ v +:+ post)) /\
    render_command info None = Some (pre +:+ "{version}" +:+ post) /\
    render_command info (Some "") = Some (pre +:+ "{version}" +:+ post).
Proof.
  revert Hinfo. cbn [catalog_lookup URL_CHOICES].
  destruct (String.eqb _ command_name); [intros [= <-]; discriminate|].
  destruct (String.eqb _ command_name).
  { intros [= <-].
    exists "<request><system><software><download><version>",
           "</version></download></software></system></request>".
    split; [|split; reflexivity].
    intros [| c v] Hv; [done|]. vm_compute. reflexivity. }
  destruct (String.eqb _ command_name).
  { intros [= <-].
    exists "<request><system><software><install><version>",
           "</version></install></software></system></request>".
    split; [|split; reflexivity].
    intros [| c v] Hv; [done|]. vm_compute. reflexivity. }
  destruct (String.eqb _ command_name); [intros [= <-]|]; discriminate.
Qed.

(** X7 on "Download Version" and a version with markup in it. *)
Lemma version_is_inserted_verbatim_witness :
  catalog_lookup "Download Version" URL_CHOICES = Some download_info /\
  produces_job download_info = true /\
  exists pre post,
    render_command download_info (Some "1</version><x>")
    = Some (pre +:+ "1</version><x>" +:+ post) /\
    render_command download_info None = Some (pre +:+ "{version}" +:+ post).
Proof.
  split; [reflexivity|]. split; [reflexivity|].
  destruct (version_is_inserted_verbatim "Download Version" download_info
              eq_refl eq_refl) as (pre & post & Hv & Hnone & _).
  exists pre, post. split; [apply Hv; discriminate | exact Hnone].
Defined.

(** ** Dispatch is sequential *)

(** However [run_execute_command] ends, the workers it has started are
    trackers of selected serials, and its requests have gone to the first
    of the selected serials, in the order of the selection. *)
Lemma run_execute_command_served
    (ui : Toolkit) (net : nat -> Request -> Reply) (auth : string * string)
    (command_name : string) (version : Text) (st : App) :
  let effs :=
    added st (run_execute_command ui net auth command_name version st).2 in
  Forall (fun w => exists serial job_id,
                     serial ∈ selected st /\
                     w = TrackJobProgress auth serial job_id)
         (workers effs) /\
  rq_target <$> requests effs =
    Some <$> take (length (requests effs)) (selected st).
Proof.
  cbv zeta.
  destruct (decide (selected st = [])) as [Hsel | Hsel].
  { unfold run_execute_command. run_monad. rewrite Hsel. run_monad.
    change (with_io (clock st) (trace st ++ [Logged ErrNoDevicesSelected]) st)
      with (after st 0 [Logged ErrNoDevicesSelected]).
    rewrite added_after. split; [constructor | done]. }
  destruct (catalog_lookup command_name URL_CHOICES) as [info|] eqn:Hinfo.
  2:{ assert (Hrun : run_execute_command ui net auth command_name version st
                     = (Raised KeyError, after st 0 [])).
      { unfold run_execute_command. run_monad.
        destruct (selected st); [done|]. run_monad. rewrite Hinfo. run_monad.
        by rewrite after_nothing. }
      rewrite Hrun. cbn [snd]. rewrite added_after.
      split; [constructor | done]. }
  destruct (run_execute_command_reach ui net auth command_name version st
              info Hsel Hinfo)
    as (res & n & effs & -> & _ & Hw & Hn & _ & _ & _ & _ & Ht).
  cbn [snd]. rewrite added_after.
  change (requests (Logged (Starting command_name (length (selected st)))
                    :: effs)) with (requests effs).
  split; [done | by rewrite Hn].
Qed.

(** C8 (as the code has it). Dispatch is sequential: the devices are served
    one after the other in the order of the selection, and never are two
    requests in flight; every request is answered before the next one is
    issued.  When the coroutine ends normally, the requests it has issued
    are those of the selected serials, in that order, and its trace is the
    opening line followed by one block per selected device, in that order:
    each device has its outcome line written right after its reply, before
    the next device is announced.  However the coroutine ends, the
    requests it has issued have gone to the first of the selected serials,
    one each and in the order of the selection, and the only workers it
    has started are trackers of jobs of selected serials. *)
Theorem dispatch_is_sequential
    (ui : Toolkit) (net : nat -> Request -> Reply) (auth : string * string)
    (command_name : string) (version : Text) (st : App) :
  let out := run_execute_command ui net auth command_name version st in
  trace out.2 = trace st ++ added st out.2 /\
  handshake false (added st out.2) = Some false /\
  ~ overlapping (added st out.2) /\
  (out.1 = Normal tt ->
   rq_target <$> requests (added st out.2) = Some <$> selected st) /\
  (out.1 = Normal tt -> selected st <> [] ->
   exists blocks,
     added st out.2 = Logged (Starting command_name (length (selected st)))
                      :: concat blocks /\
     Forall2 served (selected st) blocks) /\
  rq_target <$> requests (added st out.2) =
    Some <$> take (length (requests (added st out.2))) (selected st) /\
  Forall (fun w => exists serial job_id,
                     serial ∈ selected st /\
                     w = TrackJobProgress auth serial job_id)
         (workers (added st out.2)).
Proof.
  intros out.
  destruct (run_execute_command_served ui net auth command_name version st)
    as [Hworkers Htargets].
  destruct (run_execute_command_effects ui net auth command_name version st)
    as (effs & Htr & Hhs & Hrq & Hsv).
  fold out in Htr, Hrq, Hsv, Hworkers, Htargets.
  rewrite (added_app _ _ _ Htr) in *.
  split; [done|]. split; [done|]. split; [|done].
  apply (handshake_no_overlap false). by rewrite Hhs.
Qed.

(** C8 (as stated) fails: "Reboot" on two devices.  The request for the
    second device is issued only after the reply of the first has come
    back and its outcome has been written; the two requests never
    overlap. *)
Lemma reboot_of_two_devices_is_not_concurrent :
  let out ui := run_execute_command ui net_ok admin "Reboot" None
                  two_devices in
  (forall ui,
     trace (out ui).2 =
       [Logged (Starting "Reboot" 2);
        Logged (Running "Reboot" (Some "fw-a"));
        Requested (device_request admin "10.0.0.1" reboot_xml (Some "001"));
        Replied (Ok 200 (Document (response "success" [])));
        Logged (Success 200);
        Logged (Running "Reboot" (Some "fw-b"));
        Requested (device_request admin "10.0.0.1" reboot_xml (Some "002"));
        Replied (Ok 200 (Document (response "success" [])));
        Logged (Success 200)]) /\
  (forall ui, ~ overlapping (trace (out ui).2)).
Proof.
  assert (Htr : forall ui,
    trace (run_execute_command ui net_ok admin "Reboot" None
             two_devices).2 =
    [Logged (Starting "Reboot" 2);
     Logged (Running "Reboot" (Some "fw-a"));
     Requested (device_request admin "10.0.0.1" reboot_xml (Some "001"));
     Replied (Ok 200 (Document (response "success" [])));
     Logged (Success 200);
     Logged (Running "Reboot" (Some "fw-b"));
     Requested (device_request admin "10.0.0.1" reboot_xml (Some "002"));
     Replied (Ok 200 (Document (response "success" [])));
     Logged (Success 200)]) by (intros ui; vm_compute; reflexivity).
  cbv zeta. split; [exact Htr|].
  intros ui. rewrite Htr. apply (handshake_no_overlap false). by eexists.
Qed.
(** * Properties of the command-line script *)

Module ScriptFacts.
Import Script.

Lemma prepend_prepend {A : Type} (p q : list Event) (r : Run A) :
  prepend p (prepend q r) = prepend (p ++ q) r.
Proof. destruct r; cbn; by rewrite app_assoc. Qed.

Lemma host_prompts_cons (first count : nat) :
  host_prompts first (S count)
  = Prompted (HostPrompt first) :: host_prompts (S first) count.
Proof. reflexivity. Qed.

(** The loop over the hosts on lines that hold an empty one. *)
Lemma read_hosts_up_to_empty (hosts read rest : list string) :
  Forall (fun h => h <> "") hosts ->
  read_hosts read (hosts ++ "" :: rest)
  = Returned (read ++ hosts) rest
      (host_prompts (length read + 1) (S (length hosts))).
Proof.
  revert read. induction hosts as [| h hosts IH]; intros read Hne.
  { cbn. by rewrite app_nil_r. }
  apply Forall_cons in Hne as [Hh Hne]. apply String.eqb_neq in Hh.
  cbn [app read_hosts]. rewrite Hh, (IH _ Hne).
  cbn [prepend]. rewrite <- app_assoc. cbn [app length].
  rewrite (host_prompts_cons _ (S (length hosts))), length_app.
  cbn [length]. by replace (S (length read + 1)) with (length read + 1 + 1)
    by lia.
Qed.

Lemma read_hosts_returns (read lines hosts rest : list string)
      (out : list Event) :
  read_hosts read lines = Returned hosts rest out ->
  exists new,
    hosts = read ++ new /\ lines = new ++ "" :: rest /\
    Forall (fun h => h <> "") new.
Proof.
  revert read out. induction lines as [| l lines IH]; intros read out;
    [done|]. cbn [read_hosts].
  destruct (String.eqb l "") eqn:Hl.
  - apply String.eqb_eq in Hl as ->. intros [= <- <- _].
    exists []. by rewrite app_nil_r.
  - apply String.eqb_neq in Hl.
    destruct (read_hosts (read ++ [l]) lines) as [hs r o | e o] eqn:Hrec;
      [|done].
    cbn. intros [= <- <- _].
    destruct (IH _ _ Hrec) as (new & -> & -> & Hnew).
    exists (l :: new). rewrite <- app_assoc. by repeat constructor.
Qed.

Lemma read_hosts_without_empty (read lines : list string) :
  Forall (fun h => h <> "") lines ->
  exists out, read_hosts read lines = Crashed EOFError out.
Proof.
  revert read. induction lines as [| l lines IH]; intros read Hne;
    [by eexists|].
  apply Forall_cons in Hne as [Hl Hne]. apply String.eqb_neq in Hl.
  cbn [read_hosts]. rewrite Hl.
  destruct (IH (read ++ [l]) Hne) as [out ->]. by eexists.
Qed.

(** X18. The host list is what comes before the first empty line.
    [get_host_list] on the hosts followed by an empty line returns
    exactly these hosts, leaves the lines after the empty one unread, and
    has prompted "Host #1" to "Host #n+1".  Whenever it returns, the lines
    read were its result followed by an empty line, and no host of the
    result is empty.  On lines without an empty one it ends in
    [EOFError]. *)
Theorem host_list_ends_at_the_empty_line :
  (forall hosts rest,
     Forall (fun h => h <> "") hosts ->
     get_host_list (hosts ++ "" :: rest)
     = Returned hosts rest
         ([Printed EnterHosts; Printed PressEnter]
          ++ host_prompts 1 (S (length hosts)))) /\
  (forall lines hosts rest out,
     get_host_list lines = Returned hosts rest out ->
     lines = hosts ++ "" :: rest /\ Forall (fun h => h <> "") hosts) /\
  (forall lines,
     Forall (fun h => h <> "") lines ->
     exists out, get_host_list lines = Crashed EOFError out).
Proof.
  unfold get_host_list. split; [|split].
  - intros hosts rest Hne. by rewrite (read_hosts_up_to_empty _ [] _ Hne).
  - intros lines hosts rest out Hrun.
    destruct (read_hosts [] lines) as [hs r o | e o] eqn:Hrec; [|done].
    injection Hrun as -> -> _.
    by destruct (read_hosts_returns _ _ _ _ _ Hrec) as (new & -> & -> & ?).
  - intros lines Hne.
    destruct (read_hosts_without_empty [] lines Hne) as [out ->]. by eexists.
Qed.

(** The answers that are no key of the menu are refused one by one. *)
Lemma choose_skips_invalid (bad lines : list string) :
  Forall (fun l => lookup_choice l URL_CHOICES = None) bad ->
  choose (bad ++ lines)
  = prepend (concat ((fun _ => [Prompted ChoicePrompt; Printed InvalidChoice])
                       <$> bad))
      (choose lines).
Proof.
  induction bad as [| b bad IH]; intros Hbad.
  { cbn [app fmap list_fmap concat]. by destruct (choose lines). }
  apply Forall_cons in Hbad as [Hb Hbad].
  cbn [app choose]. rewrite Hb, (IH Hbad), prepend_prepend. reflexivity.
Qed.

(** X19. The selection is the first answer that is a key of the menu.
    [get_user_selections] prints the menu, refuses every answer that is no
    key with one "Invalid choice" line, and stops at the first key.  For a
    check that needs no version it returns the check with no version and
    reads nothing more; for a check that needs one it reads the next line
    as the version, whatever it is (also empty), and ends in [EOFError]
    when there is no next line. *)
Theorem selection_is_the_first_valid_answer
    (bad : list string) (choice : string) (rest : list string) (check : Check)
    (Hbad : Forall (fun l => lookup_choice l URL_CHOICES = None) bad)
    (Hchoice : lookup_choice choice URL_CHOICES = Some check) :
  let refusals :=
    concat ((fun _ => [Prompted ChoicePrompt; Printed InvalidChoice])
              <$> bad) in
  (requires_version check = false ->
   get_user_selections (bad ++ choice :: rest)
   = Returned (check, None) rest
       (menu ++ refusals ++ [Prompted ChoicePrompt])) /\
  (requires_version check = true ->
   forall version rest',
     rest = version :: rest' ->
     get_user_selections (bad ++ choice :: rest)
     = Returned (check, Some version) rest'
         (menu ++ refusals
          ++ [Prompted ChoicePrompt; Prompted (VersionPrompt (name check))]))
  /\
  (requires_version check = true -> rest = [] ->
   get_user_selections (bad ++ choice :: rest)
   = Crashed EOFError
       (menu ++ refusals
        ++ [Prompted ChoicePrompt; Prompted (VersionPrompt (name check))])).
Proof.
  intros refusals. unfold get_user_selections.
  rewrite (choose_skips_invalid _ _ Hbad). fold refusals.
  cbn [choose]. rewrite Hchoice.
  split; [|split].
  - by intros ->.
  - by intros -> version rest' ->.
  - by intros -> ->.
Qed.

(** X19 on the answers "9", "x", then "2" and an empty version. *)
Lemma selection_is_the_first_valid_answer_witness :
  Forall (fun l => lookup_choice l URL_CHOICES = None) ["9"; "x"] /\
  lookup_choice "2" URL_CHOICES = Some download_check /\
  get_user_selections (["9"; "x"] ++ "2" :: [""; "fw-1"])
  = Returned (download_check, Some "") ["fw-1"]
      (menu
       ++ concat ((fun _ => [Prompted ChoicePrompt; Printed InvalidChoice])
                    <$> ["9"; "x"])
       ++ [Prompted ChoicePrompt; Prompted (VersionPrompt "Download Version")]).
Proof.
  assert (Hbad : Forall (fun l => lookup_choice l URL_CHOICES = None)
                   ["9"; "x"]) by (by repeat constructor).
  split; [exact Hbad|]. split; [reflexivity|].
  exact (proj1 (proj2 (selection_is_the_first_valid_answer ["9"; "x"] "2"
                         [""; "fw-1"] download_check Hbad eq_refl))
           eq_refl "" ["fw-1"] eq_refl).
Defined.

(** ** [run_commands] *)

Lemma fetched_app (a b : list Event) : fetched (a ++ b) = fetched a ++ fetched b.
Proof. apply omap_app. Qed.

Lemma printed_app (a b : list Event) : printed (a ++ b) = printed a ++ printed b.
Proof. apply omap_app. Qed.

Lemma fetched_host_prompts (first count : nat) :
  fetched (host_prompts first count) = [].
Proof. unfold host_prompts. by induction (seq first count). Qed.

Lemma is_report_report (host : string) (o : Outcome) :
  is_report (report host o) = true.
Proof. by destruct o as [[] |]. Qed.





(** With a check that needs a version and none given, the first host
    already fails. *)
Lemma run_commands_without_version
    (net : nat -> string -> Outcome) (choice : string) (check : Check)
    (version : Text) (api_key host : string) (hosts : list string) :
  lookup_choice choice URL_CHOICES = Some check ->
  requires_version check = true ->
  truthy version = false ->
  run_commands net (host :: hosts) check api_key version
  = (Some KeyError,
     [Printed (StartingLine (name check) (length (host :: hosts)))]).
Proof.
  intros Hchoice Hneeds Hversion.
  revert Hchoice Hneeds. cbn [lookup_choice URL_CHOICES].
  unfold run_commands. cbn [visit]. unfold format_args. rewrite Hversion.
  repeat (destruct (String.eqb _ choice);
          [intros [= <-] Hneeds; try discriminate; reflexivity|]).
  discriminate.
Qed.

(** X21. A missing version ends the script before any request.  For a
    check of the menu that needs a version, when the version is missing or
    empty and there is at least one host, [run_commands] prints its
    opening line and ends in [KeyError] on the first host: the template
    cannot be filled, no host is announced and none is requested.  With no
    host at all it prints "No hosts entered" and returns. *)
Theorem script_without_version_requests_nothing
    (net : nat -> string -> Outcome) (choice : string) (check : Check)
    (version : Text) (api_key : string) (hosts : list string)
    (Hchoice : lookup_choice choice URL_CHOICES = Some check)
    (Hneeds : requires_version check = true)
    (Hversion : truthy version = false) :
  (hosts <> [] ->
   run_commands net hosts check api_key version
   = (Some KeyError,
      [Printed (StartingLine (name check) (length hosts))])) /\
  (hosts = [] ->
   run_commands net hosts check api_key version = (None, [Printed NoHosts])).
Proof.
  split; [|by intros ->].
  destruct hosts as [| host hosts]; [done|]. intros _.
  by apply (run_commands_without_version net choice).
Qed.

(** X21 on "Download Version" with an empty version. *)
Lemma script_without_version_requests_nothing_witness :
  lookup_choice "2" URL_CHOICES = Some download_check /\
  requires_version download_check = true /\
  truthy (Some "") = false /\
  run_commands all_ok ["fw-1"; "fw-2"] download_check "KEY" (Some "")
  = (Some KeyError, [Printed (StartingLine "Download Version" 2)]).
Proof.
  split; [reflexivity|]. split; [reflexivity|]. split; [reflexivity|].
  exact (proj1 (script_without_version_requests_nothing all_ok "2"
                  download_check (Some "") "KEY" ["fw-1"; "fw-2"]
                  eq_refl eq_refl eq_refl) ltac:(discriminate)).
Defined.

(** X22. The whole script on an empty version.  When the operator enters
    a key, chooses a check that needs a version, answers the version
    prompt with an empty line and then gives at least one host, [main]
    ends in [KeyError] without a single request: the empty version is
    accepted by the menu and fails only when the first URL is built. *)
Theorem main_with_empty_version_ends_in_key_error
    (net : nat -> string -> Outcome) (api_key choice : string)
    (check : Check) (host : string) (hosts rest : list string)
    (Hchoice : lookup_choice choice URL_CHOICES = Some check)
    (Hneeds : requires_version check = true)
    (Hhosts : Forall (fun h => h <> "") (host :: hosts)) :
  exists out,
    main net (api_key :: choice :: "" :: (host :: hosts) ++ "" :: rest)
    = Crashed KeyError out /\
    fetched out = [] /\
    last (printed out)
    = Some (StartingLine (name check) (S (length hosts))).
Proof.
  unfold main, get_api_key, get_user_selections, get_host_list.
  cbn [input and_then choose]. rewrite Hchoice, Hneeds.
  cbn [input and_then prepend].
  rewrite (read_hosts_up_to_empty (host :: hosts) [] rest Hhosts).
  cbn [and_then prepend fst snd app].
  rewrite (run_commands_without_version net choice check (Some "") api_key
             host hosts Hchoice Hneeds eq_refl).
  cbn [fst snd prepend].
  eexists. split; [reflexivity|]. split.
  - rewrite !fetched_app.
    match goal with
    | |- context [fetched (Printed EnterHosts :: Printed PressEnter :: ?hp)] =>
        change (fetched (Printed EnterHosts :: Printed PressEnter :: hp))
          with (fetched hp)
    end.
    by rewrite fetched_host_prompts.
  - rewrite !app_assoc, printed_app.
    exact (last_snoc (StartingLine (name check) (length (host :: hosts))) _).
Qed.

(** X22 on "Download Version" with one host: the script ends in
    [KeyError] after the starting line. *)
Lemma main_with_empty_version_ends_in_key_error_witness :
  lookup_choice "2" URL_CHOICES = Some download_check /\
  requires_version download_check = true /\
  Forall (fun h => h <> "") ["fw-1"] /\
  exists out,
    main all_ok ["KEY"; "2"; ""; "fw-1"; ""] = Crashed KeyError out /\
    fetched out = [] /\
    last (printed out) = Some (StartingLine "Download Version" 1).
Proof.
  split; [reflexivity|]. split; [reflexivity|].
  assert (Hhosts : Forall (fun h : string => h <> "") ["fw-1"])
    by (by repeat constructor).
  split; [exact Hhosts|].
  exact (main_with_empty_version_ends_in_key_error all_ok "KEY" "2"
           download_check "fw-1" [] [] eq_refl eq_refl Hhosts).
Defined.

End ScriptFacts.
